(** * Expense analytics: a shallow embedding of the aggregation service

    The development follows [app/api/v1/expenses]: [models.py] (the
    [Expense] table and its category enumeration), [schemas.py] (response
    models and their serializers), [service.py] ([ExpenseService]) and
    [routes.py] (the request handlers).

    Conventions of the embedding.
    - A [Numeric(10, 2)] column value and every SQL [SUM] over it is an exact
      decimal with two places; it is represented by its number of cents in
      [Z].
    - A Python [float] is a binary64 number and is represented by a rational
      in [Q].  The float that [float(d)] makes of a two-place decimal [d] is
      kept as [d], which stands for the binary64 number nearest to it; every
      other float is represented by its exact value.  The operations on
      floats -- [+], [/], [*], [sum], [round] and the comparison with a
      decimal -- read their operands through [b64], the rounding to the
      nearest binary64 number, and round their exact result with it.  The
      exponent range is not bounded: a sum of amounts would have to exceed
      10^300 to leave it; and decimals are taken to stay below 2^45, where
      rounding a float to two places gives back the decimal it was made of.
      Equalities between floats are stated with [==].
    - Python [int] is [Z]; [str] is [string]; [Optional[T]] is [option T].
    - A [datetime] is its calendar date and time of day as stored; time zones
      are not modelled, so [extract] and [date] read the stored fields.
    - [await session.execute(statement)] is a step of the [IO] monad below:
      it evaluates the statement against the table held by the session and
      records the statement in a trace.  Exceptions are the left summand. *)

From Stdlib Require Import ZArith QArith Qround Qabs Qpower List String Ascii Bool.
From Stdlib Require Import Lia Lqa.
From Stdlib Require Import Permutation Sorted DecimalString.
Import ListNotations.
Open Scope string_scope.
Open Scope list_scope.
Open Scope Z_scope.

Set Implicit Arguments.

(* ===================================================================== *)
(** ** Generic list helpers *)
(* ===================================================================== *)

Section InsertionSort.
Context {A : Type}.
Variable leb : A -> A -> bool.

(** Stable insertion: [x] goes before the first element it precedes. *)
Fixpoint insert_sorted (x : A) (l : list A) : list A :=
  match l with
  | [] => [x]
  | y :: l' => if leb x y then x :: y :: l' else y :: insert_sorted x l'
  end.

Fixpoint isort (l : list A) : list A :=
  match l with
  | [] => []
  | x :: l' => insert_sorted x (isort l')
  end.
End InsertionSort.

(** The sum of a list of numbers as a left fold from [0], without rounding:
    the sum of decimals, and the sum that the statements below compare the
    float sums of the code with.  Python's [sum] over floats is [sum_float]
    below. *)
Definition py_sum (l : list Q) : Q := fold_left Qplus l 0%Q.

(** Python's [sum(...)] over ints. *)
Definition py_sum_int (l : list Z) : Z := fold_left Z.add l 0.

(* ===================================================================== *)
(** ** models.py *)
(* ===================================================================== *)

Inductive ExpenseCategory : Set :=
| FOOD | TRANSPORT | RENT | GROCERIES | UTILITIES | ENTERTAINMENT
| HEALTHCARE | EDUCATION | SHOPPING | SAVINGS | FOODSTUFF | TRAVEL | OTHERS.

(** The members of the enumeration, in declaration order. *)
Definition all_categories : list ExpenseCategory :=
  [FOOD; TRANSPORT; RENT; GROCERIES; UTILITIES; ENTERTAINMENT;
   HEALTHCARE; EDUCATION; SHOPPING; SAVINGS; FOODSTUFF; TRAVEL; OTHERS].

Definition ExpenseCategory_eq_dec (a b : ExpenseCategory) : {a = b} + {a <> b}.
Proof. decide equality. Defined.

Definition category_eqb (a b : ExpenseCategory) : bool :=
  if ExpenseCategory_eq_dec a b then true else false.

(** The value of an enumeration member ([category.value]). *)
Definition category_value (c : ExpenseCategory) : string :=
  match c with
  | FOOD => "Food" | TRANSPORT => "Transport" | RENT => "Rent"
  | GROCERIES => "Groceries" | UTILITIES => "Utilities"
  | ENTERTAINMENT => "Entertainment" | HEALTHCARE => "Healthcare"
  | EDUCATION => "Education" | SHOPPING => "Shopping" | SAVINGS => "Savings"
  | FOODSTUFF => "Foodstuff" | TRAVEL => "Travel" | OTHERS => "Others"
  end.

Definition UUID := N.

(** A [datetime]: calendar date and the time of day in microseconds.
    Comparison is chronological, i.e. lexicographic on the fields. *)
Record datetime : Set := mk_datetime
  { dt_year : Z; dt_month : Z; dt_day : Z; dt_time : Z }.

Definition lex3_ltb (a b : Z * Z * Z) : bool :=
  let '(a1, a2, a3) := a in
  let '(b1, b2, b3) := b in
  (a1 <? b1) || ((a1 =? b1) && ((a2 <? b2) || ((a2 =? b2) && (a3 <? b3)))).

Definition datetime_leb (a b : datetime) : bool :=
  lex3_ltb (dt_year a, dt_month a, dt_day a) (dt_year b, dt_month b, dt_day b)
  || ((dt_year a =? dt_year b) && (dt_month a =? dt_month b)
      && (dt_day a =? dt_day b) && (dt_time a <=? dt_time b)).

(** A row of the [expenses] table.  [amount] is in cents. *)
Record Expense : Set := mk_Expense
  { id : UUID;
    user_id : UUID;
    title : string;
    amount : Z;
    category : ExpenseCategory;
    description : option string;
    expense_date : datetime;
    created_at : datetime;
    updated_at : datetime }.

(* ===================================================================== *)
(** ** Numbers and text at the Python level *)
(* ===================================================================== *)

(** [float(d)] for a two-place decimal [d] given in cents. *)
Definition float_of_decimal (cents : Z) : Q := cents # 100.

(** [round(x)] to the nearest integer, ties to the even one. *)
Definition round_half_even (x : Q) : Z :=
  let n := Qfloor x in
  let twice := Qfloor (x * 2) - 2 * n in      (* 0 below the half, 1 from it on *)
  if twice =? 0 then n
  else if Qeq_bool (x * 2) (inject_Z (2 * n + 1))   (* exactly on the half *)
       then (if Z.even n then n else n + 1)
       else n + 1.

(** The exponent of a positive number:
    [2 ^ ilog2 x <= x < 2 ^ (ilog2 x + 1)]. *)
Definition ilog2 (x : Q) : Z :=
  let k := Z.log2 (Qnum x) - Z.log2 (Zpos (Qden x)) in
  if Qle_bool (2 ^ k) x then k else k - 1.

(** The nearest number with a significand of 53 bits, ties to the even
    significand, for a positive number. *)
Definition b64_pos (x : Q) : Q :=
  let e := ilog2 x - 52 in
  (inject_Z (round_half_even (x / 2 ^ e)) * 2 ^ e)%Q.

(** The binary64 number nearest to [x]: what [x] is as a [float]. *)
Definition b64 (x : Q) : Q :=
  match (x ?= 0)%Q with
  | Eq => 0%Q
  | Gt => b64_pos x
  | Lt => (- b64_pos (- x))%Q
  end.

(** [a + b], [a * b] and [a / b] on floats.  The divisions of the code
    are guarded: their divisor is not zero. *)
Definition float_add (a b : Q) : Q := b64 (b64 a + b64 b).

Definition float_mul (a b : Q) : Q := b64 (b64 a * b64 b).

Definition float_truediv (a b : Q) : Q := b64 (b64 a / b64 b).

(** Python's [sum(...)] over floats: a left fold of [+] starting from the
    int [0]. *)
Definition sum_float (l : list Q) : Q := fold_left float_add l 0%Q.

(** A number with at most two decimal places. *)
Definition is_decimal2 (x : Q) : bool :=
  Qeq_bool (inject_Z (Qfloor (x * 100))) (x * 100).

(** [round(float(value), 2)] as the serializers of [schemas.py] use it: the
    two-place decimal nearest to the binary64 number, ties to the even one.
    A float that is kept as a two-place decimal is returned as it is:
    it is the binary64 number nearest to that decimal, and so is the result
    of rounding it to two places, as long as binary64 numbers of its size
    are less than 0.005 apart, that is below 2^45, about 3.5 * 10^13. *)
Definition round2 (x : Q) : Q :=
  if is_decimal2 x then x else round_half_even (b64 x * 100) # 100.

(** Half a unit in the last place of a number between 1 and 2: the
    relative error of one rounding. *)
Definition ulp_half : Q := 1 # 9007199254740992.

(** A whole unit, 2 ^ -52. *)
Definition unit_52 : Q := 1 # 4503599627370496.

(** [x] is [X] up to a relative error of [k] units. *)
Definition near (k : Z) (x X : Q) : Prop :=
  (X * (1 - inject_Z k * unit_52) <= x /\ x <= X * (1 + inject_Z k * unit_52))%Q.

(** [str(n)] for an int. *)
Definition str_int (n : Z) : string := NilZero.string_of_int (Z.to_int n).

Fixpoint zeros (n : nat) : string :=
  match n with O => EmptyString | S n' => String "0" (zeros n') end.

(** [format(n, "0{w}d")]: sign-aware zero padding to width [w]. *)
Definition format_0d (w : nat) (n : Z) : string :=
  if n <? 0
  then let digits := str_int (- n) in
       ("-" ++ zeros (w - 1 - String.length digits) ++ digits)%string
  else let digits := str_int n in
       (zeros (w - String.length digits) ++ digits)%string.

(** [str(d)] for a [date]: ISO format. *)
Definition str_date (y m d : Z) : string :=
  (format_0d 4 y ++ "-" ++ format_0d 2 m ++ "-" ++ format_0d 2 d)%string.

(* ===================================================================== *)
(** ** schemas.py: response models and their serializers *)
(* ===================================================================== *)

Module CategorySpendingModel.
Record t : Set := make
  { category : ExpenseCategory; total_amount : Q; expense_count : Z }.

(** [@field_serializer("total_amount")] *)
Definition serialize (m : t) : t :=
  {| category := category m;
     total_amount := round2 (total_amount m);
     expense_count := expense_count m |}.
End CategorySpendingModel.

Module SpendingSummaryModel.
Record t : Set := make
  { total_spending : Q;
    expense_count : Z;
    category_breakdown : list CategorySpendingModel.t;
    start_date : option datetime;
    end_date : option datetime }.

(** [@field_serializer("total_spending")]; the breakdown is serialized by
    its own model and the dates keep their value. *)
Definition serialize (m : t) : t :=
  {| total_spending := round2 (total_spending m);
     expense_count := expense_count m;
     category_breakdown := map CategorySpendingModel.serialize (category_breakdown m);
     start_date := start_date m;
     end_date := end_date m |}.
End SpendingSummaryModel.

Module ExpenseStatisticsModel.
Record t : Set := make
  { period : string;
    total_spending : Q;
    average_expense : Q;
    expense_count : Z;
    top_category : option ExpenseCategory;
    top_category_amount : option Q }.

(** [@field_serializer("total_spending", "average_expense")] and
    [@field_serializer("top_category_amount")]: the latter gives [None] for a
    falsy value. *)
Definition serialize (m : t) : t :=
  {| period := period m;
     total_spending := round2 (total_spending m);
     average_expense := round2 (average_expense m);
     expense_count := expense_count m;
     top_category := top_category m;
     top_category_amount :=
       match top_category_amount m with
       | Some v => if Qeq_bool v 0 then None else Some (round2 v)
       | None => None
       end |}.
End ExpenseStatisticsModel.

Module ChartDataPointModel.
Record t : Set := make
  { period : string; total_amount : Q; expense_count : Z }.

(** [@field_serializer("total_amount")] *)
Definition serialize (m : t) : t :=
  {| period := period m;
     total_amount := round2 (total_amount m);
     expense_count := expense_count m |}.
End ChartDataPointModel.

Module ChartVisualizationResponseModel.
Record t : Set := make
  { period_type : string;
    data_points : list ChartDataPointModel.t;
    total_periods : Z;
    total_spending : Q;
    average_spending : Q }.

(** [@field_serializer("total_spending", "average_spending")]; the data
    points are serialized by their own model. *)
Definition serialize (m : t) : t :=
  {| period_type := period_type m;
     data_points := map ChartDataPointModel.serialize (data_points m);
     total_periods := total_periods m;
     total_spending := round2 (total_spending m);
     average_spending := round2 (average_spending m) |}.
End ChartVisualizationResponseModel.

Module CategoryChartDataModel.
Record t : Set := make
  { category : ExpenseCategory;
    total_amount : Q;
    expense_count : Z;
    percentage : Q }.

(** [@field_serializer("total_amount", "percentage")] *)
Definition serialize (m : t) : t :=
  {| category := category m;
     total_amount := round2 (total_amount m);
     expense_count := expense_count m;
     percentage := round2 (percentage m) |}.
End CategoryChartDataModel.

Module CategoryChartResponseModel.
Record t : Set := make
  { categories : list CategoryChartDataModel.t;
    total_spending : Q;
    total_expenses : Z }.

(** [@field_serializer("total_spending")]; the categories are serialized
    by their own model. *)
Definition serialize (m : t) : t :=
  {| categories := map CategoryChartDataModel.serialize (categories m);
     total_spending := round2 (total_spending m);
     total_expenses := total_expenses m |}.
End CategoryChartResponseModel.

(** [expenses] holds the rows as validated into [ExpenseResponseModel],
    which has the fields of the row. *)
Module ExpenseListResponseModel.
Record t : Set := make
  { expenses : list Expense;
    total : Z;
    page : Z;
    page_size : Z;
    total_pages : Z }.
End ExpenseListResponseModel.

(* ===================================================================== *)
(** ** The store: statements, rows and their evaluation *)
(* ===================================================================== *)

(** Conditions added to a statement with [.where(...)]. *)
Inductive Clause : Set :=
| UserIs (u : UUID)                 (* Expense.user_id == u *)
| CategoryIs (c : ExpenseCategory)  (* Expense.category == c *)
| DateGe (d : datetime)             (* Expense.expense_date >= d *)
| DateLe (d : datetime)             (* Expense.expense_date <= d *)
| YearIs (y : Z)                    (* extract("year", expense_date) == y *)
| MonthIs (m : Z)                   (* extract("month", expense_date) == m *)
| TextILike (pattern : string).     (* title ILIKE p OR description ILIKE p *)

(** The grouping of the time-series statements. *)
Inductive Granularity : Set := ByMonth | ByYear | ByDate.

(** The [select(...)] part together with grouping, ordering and limits. *)
Inductive Select : Set :=
| SelectCategoryTotals              (* category, sum, count; by category; desc sum *)
| SelectTotals                      (* sum, count *)
| SelectStatistics                  (* sum, avg, count *)
| SelectTopCategory                 (* category, sum; by category; desc sum; limit 1 *)
| SelectSeries (g : Granularity) (limit : Z)
| SelectCount                       (* count(id) *)
| SelectExpenses (ordered : bool) (offset limit : option Z).   (* rows; desc expense_date *)

Record Statement : Set := mk_Statement
  { columns : Select; conditions : list Clause }.

(** [statement.where(c)] *)
Definition where_ (st : Statement) (c : Clause) : Statement :=
  {| columns := columns st; conditions := conditions st ++ [c] |}.

(** [statement.offset(skip).limit(limit)] on a row selection. *)
Definition offset_limit (st : Statement) (skip limit : Z) : Statement :=
  {| columns := match columns st with
                | SelectExpenses o _ _ => SelectExpenses o (Some skip) (Some limit)
                | c => c
                end;
     conditions := conditions st |}.

Module CategoryRow.
Record t : Set := make
  { category : ExpenseCategory; total_amount : Z; expense_count : Z }.
End CategoryRow.

Module TotalsRow.
Record t : Set := make { total : option Z; expense_count : Z }.
End TotalsRow.

Module StatisticsRow.
Record t : Set := make
  { total : option Z; average : option Q; expense_count : Z }.
End StatisticsRow.

Module TopCategoryRow.
Record t : Set := make { category : ExpenseCategory; category_total : Z }.
End TopCategoryRow.

(** The key of a time bucket, as selected by the series statements. *)
Inductive BucketKey : Set :=
| KMonth (year month : Z)
| KYear (year : Z)
| KDate (year month day : Z).

Module SeriesRow.
Record t : Set := make
  { key : BucketKey; total : option Z; expense_count : Z }.
End SeriesRow.

(** The type of the rows a statement returns. *)
Definition row_of (c : Select) : Set :=
  match c with
  | SelectCategoryTotals => CategoryRow.t
  | SelectTotals => TotalsRow.t
  | SelectStatistics => StatisticsRow.t
  | SelectTopCategory => TopCategoryRow.t
  | SelectSeries _ _ => SeriesRow.t
  | SelectCount => Z
  | SelectExpenses _ _ _ => Expense
  end.

Definition total_desc (a b : CategoryRow.t) : Prop :=
  CategoryRow.total_amount b <= CategoryRow.total_amount a.

Definition date_desc (a b : Expense) : Prop :=
  datetime_leb (expense_date b) (expense_date a) = true.

(** The statements executed so far. *)
Definition Trace : Set := list Statement.

(** A database session: the rows of the [expenses] table, the ids of the
    rows of the [users] table that [Expense.user_id] refers to, and the
    choices SQL leaves to the engine.  [ORDER BY] fixes the order of rows only up to
    ties of the ordering expression; each execution returns some
    arrangement of the rows that is ordered, and nothing more is known about
    it.  The arrangement may differ from one execution to the next: it is a
    function of the statements the engine has executed before. *)
Record AsyncSession : Type := mk_AsyncSession
  { table : list Expense;
    users : list UUID;
    ilike : string -> string -> bool;
    order_by_total : Trace -> list CategoryRow.t -> list CategoryRow.t;
    order_by_total_perm : forall tr l, Permutation (order_by_total tr l) l;
    order_by_total_sorted :
      forall tr l, StronglySorted total_desc (order_by_total tr l);
    order_by_date : Trace -> list Expense -> list Expense;
    order_by_date_perm : forall tr l, Permutation (order_by_date tr l) l;
    order_by_date_sorted :
      forall tr l, StronglySorted date_desc (order_by_date tr l) }.

Definition holds (session : AsyncSession) (c : Clause) (e : Expense) : bool :=
  match c with
  | UserIs u => N.eqb (user_id e) u
  | CategoryIs c => category_eqb (category e) c
  | DateGe d => datetime_leb d (expense_date e)
  | DateLe d => datetime_leb (expense_date e) d
  | YearIs y => dt_year (expense_date e) =? y
  | MonthIs m => dt_month (expense_date e) =? m
  | TextILike p =>
      ilike session (title e) p
      || match description e with
         | Some d => ilike session d p
         | None => false
         end
  end.

(** The rows of the table that satisfy every condition. *)
Definition selected (session : AsyncSession) (cs : list Clause) : list Expense :=
  filter (fun e => forallb (fun c => holds session c e) cs) (table session).

Definition sum_amount (l : list Expense) : Z :=
  fold_right (fun e acc => amount e + acc) 0 l.

(** SQL [SUM]: NULL over no rows. *)
Definition sql_sum (l : list Expense) : option Z :=
  match l with [] => None | _ => Some (sum_amount l) end.

(** PostgreSQL keeps a NUMERIC in digits of base 10000.  For an integer
    [v >= 1] whose first digit has weight [w] when [v] is below 10000:
    the weight of its first digit, and that digit. *)
Fixpoint leading_digit (fuel : nat) (v w : Z) : Z * Z :=
  match fuel with
  | O => (w, v)
  | S fuel' =>
      if v <? 10000 then (w, v) else leading_digit fuel' (v / 10000) (w + 1)
  end.

(** The same for a two-place decimal given in cents; zero has no digit. *)
Definition numeric_leading (cents : Z) : Z * Z :=
  let a := Z.abs cents in
  if a =? 0 then (0, 0)
  else if a <? 100 then (-1, a * 100)
  else leading_digit (Z.to_nat (Z.log2 a)) (a / 100) 0.

(** The scale PostgreSQL selects for the quotient of a two-place decimal
    and an integer: sixteen significant digits by the estimated weight of
    the quotient, and not fewer places than the dividend has. *)
Definition select_div_scale (cents n : Z) : Z :=
  let '(weight1, firstdigit1) := numeric_leading cents in
  let '(weight2, firstdigit2) := numeric_leading (n * 100) in
  let qweight :=
    weight1 - weight2 - (if firstdigit1 <=? firstdigit2 then 1 else 0) in
  Z.min 1000 (Z.max 2 (16 - qweight * 4)).

(** Rounding to an integer, ties away from zero. *)
Definition round_half_away (x : Q) : Z :=
  if Qle_bool 0 x then Qfloor (x + (1 # 2)) else - Qfloor (- x + (1 # 2)).

(** NUMERIC division of a two-place decimal by a positive integer: the
    quotient rounded to the selected scale. *)
Definition numeric_div (cents n : Z) : Q :=
  let unit := inject_Z (10 ^ select_div_scale cents n) in
  (inject_Z (round_half_away (float_of_decimal cents / inject_Z n * unit)) / unit)%Q.

(** SQL [AVG], a decimal in currency units: NULL over no rows, and
    otherwise the sum divided by the count. *)
Definition sql_avg (l : list Expense) : option Q :=
  match l with
  | [] => None
  | _ => Some (numeric_div (sum_amount l) (Z.of_nat (List.length l)))
  end.

Definition sql_count (l : list Expense) : Z := Z.of_nat (List.length l).

Definition in_category (c : ExpenseCategory) (e : Expense) : bool :=
  category_eqb (category e) c.

(** [GROUP BY category] with [SUM(amount)] and [COUNT(id)]: one row for each
    category that occurs. *)
Definition group_by_category (l : list Expense) : list CategoryRow.t :=
  map (fun c => let g := filter (in_category c) l in
                CategoryRow.make c (sum_amount g) (sql_count g))
      (filter (fun c => existsb (in_category c) l) all_categories).

Definition bucket_key (g : Granularity) (d : datetime) : BucketKey :=
  match g with
  | ByMonth => KMonth (dt_year d) (dt_month d)
  | ByYear => KYear (dt_year d)
  | ByDate => KDate (dt_year d) (dt_month d) (dt_day d)
  end.

Definition BucketKey_eq_dec (a b : BucketKey) : {a = b} + {a <> b}.
Proof. decide equality; apply Z.eq_dec. Defined.

Definition key_eqb (a b : BucketKey) : bool :=
  if BucketKey_eq_dec a b then true else false.

Definition key_tuple (k : BucketKey) : Z * Z * Z :=
  match k with
  | KMonth y m => (y, m, 0)
  | KYear y => (y, 0, 0)
  | KDate y m d => (y, m, d)
  end.

(** Chronological order of bucket keys. *)
Definition key_ltb (a b : BucketKey) : bool := lex3_ltb (key_tuple a) (key_tuple b).

Definition key_geb (a b : BucketKey) : bool := negb (key_ltb a b).

Definition in_bucket (g : Granularity) (k : BucketKey) (e : Expense) : bool :=
  key_eqb (bucket_key g (expense_date e)) k.

(** The bucket keys that occur, most recent first ([ORDER BY ... DESC] on the
    grouping columns: groups have distinct keys, so the order is fixed). *)
Definition bucket_keys_desc (g : Granularity) (l : list Expense) : list BucketKey :=
  isort key_geb (nodup BucketKey_eq_dec (map (fun e => bucket_key g (expense_date e)) l)).

Definition bucket_row (g : Granularity) (l : list Expense) (k : BucketKey) : SeriesRow.t :=
  let grp := filter (in_bucket g k) l in
  SeriesRow.make k (sql_sum grp) (sql_count grp).

Definition group_by_bucket (g : Granularity) (l : list Expense) : list SeriesRow.t :=
  map (bucket_row g l) (bucket_keys_desc g l).

Inductive Exception : Set :=
| HTTPException (status_code : Z) (detail : string)
| DBAPIError (detail : string)
| RequestValidationError (parameter : string)
| AttributeError (name : string)
| ZeroDivisionError.

(** [LIMIT n]; the engine rejects a negative count. *)
Definition sql_limit {A : Type} (n : Z) (rows : list A) : Exception + list A :=
  if n <? 0 then inl (DBAPIError "LIMIT must not be negative")
  else inr (firstn (Z.to_nat n) rows).

(** [OFFSET n]; the engine rejects a negative count. *)
Definition sql_offset {A : Type} (n : Z) (rows : list A) : Exception + list A :=
  if n <? 0 then inl (DBAPIError "OFFSET must not be negative")
  else inr (skipn (Z.to_nat n) rows).

Definition top_category_row (r : CategoryRow.t) : TopCategoryRow.t :=
  TopCategoryRow.make (CategoryRow.category r) (CategoryRow.total_amount r).

Definition eval_select (session : AsyncSession) (tr : Trace) (c : Select)
    (rows : list Expense)
  : Exception + list (row_of c) :=
  match c return Exception + list (row_of c) with
  | SelectCategoryTotals =>
      inr (order_by_total session tr (group_by_category rows))
  | SelectTotals =>
      inr [TotalsRow.make (sql_sum rows) (sql_count rows)]
  | SelectStatistics =>
      inr [StatisticsRow.make (sql_sum rows) (sql_avg rows) (sql_count rows)]
  | SelectTopCategory =>
      inr (firstn 1 (map top_category_row
                         (order_by_total session tr (group_by_category rows))))
  | SelectSeries g limit =>
      sql_limit limit (group_by_bucket g rows)
  | SelectCount =>
      inr [sql_count rows]
  | SelectExpenses ordered offset limit =>
      let rows := if ordered then order_by_date session tr rows else rows in
      match match offset with Some n => sql_offset n rows | None => inr rows end with
      | inl e => inl e
      | inr rows => match limit with Some n => sql_limit n rows | None => inr rows end
      end
  end.

(** The rows a statement returns in a session that has executed [tr]. *)
Definition eval (session : AsyncSession) (tr : Trace) (st : Statement)
  : Exception + list (row_of (columns st)) :=
  eval_select session tr (columns st) (selected session (conditions st)).

(* ===================================================================== *)
(** ** The [IO] monad: exceptions and the trace of executed statements *)
(* ===================================================================== *)

Definition IO (A : Type) : Type := Trace -> (Exception + A) * Trace.

Definition ret {A : Type} (a : A) : IO A := fun tr => (inr a, tr).

Definition raise {A : Type} (e : Exception) : IO A := fun tr => (inl e, tr).

Definition bind {A B : Type} (m : IO A) (f : A -> IO B) : IO B :=
  fun tr =>
    match m tr with
    | (inl e, tr') => (inl e, tr')
    | (inr a, tr') => f a tr'
    end.

Declare Scope io_scope.
Delimit Scope io_scope with io.
Notation "x <- m ;; k" := (bind m (fun x => k))
  (at level 100, m at next level, right associativity) : io_scope.
Notation "' pat <- m ;; k" := (bind m (fun x => match x with pat => k end))
  (at level 100, pat pattern, m at next level, right associativity) : io_scope.

(** Lift a pure fallible value. *)
Definition lift {A : Type} (r : Exception + A) : IO A := fun tr => (r, tr).

(** [await session.execute(statement)] then [.all()]. *)
Definition execute (session : AsyncSession) (st : Statement)
  : IO (list (row_of (columns st))) :=
  fun tr => (eval session tr st, tr ++ [st]).

(** A [for] loop that appends one item per element. *)
Fixpoint for_each {A B : Type} (f : A -> Exception + B) (l : list A) : Exception + list B :=
  match l with
  | [] => inr []
  | a :: l' =>
      match f a with
      | inl e => inl e
      | inr b => match for_each f l' with
                 | inl e => inl e
                 | inr bs => inr (b :: bs)
                 end
      end
  end.


(** Two invocations, one after the other. *)
Definition twice {A : Type} (m : IO A) : IO (A * A) :=
  fun tr =>
    match m tr with
    | (inl e, tr') => (inl e, tr')
    | (inr a, tr') =>
        match m tr' with
        | (inl e, tr'') => (inl e, tr'')
        | (inr b, tr'') => (inr (a, b), tr'')
        end
    end.

(* ===================================================================== *)
(** ** service.py: [ExpenseService] *)
(* ===================================================================== *)

(** [if cond: statement = statement.where(c)]; [None] when the guard fails. *)
Definition where_if (st : Statement) (c : option Clause) : Statement :=
  {| columns := columns st;
     conditions := conditions st ++ match c with Some c => [c] | None => [] end |}.

(** [statement.order_by(desc(Expense.expense_date))] on a row selection. *)
Definition order_by_desc_expense_date (st : Statement) : Statement :=
  {| columns := match columns st with
                | SelectExpenses _ o l => SelectExpenses true o l
                | c => c
                end;
     conditions := conditions st |}.

(** [x if x else 0.0] for a decimal that may be NULL: zero is falsy. *)
Definition float_or_zero (d : option Z) : Q :=
  match d with
  | Some t => if t =? 0 then 0%Q else float_of_decimal t
  | None => 0%Q
  end.

(** [x if x else 0] for a count. *)
Definition int_or_zero (n : Z) : Z := if n =? 0 then 0 else n.

Module ExpenseService.
Local Open Scope io_scope.

Definition get_user_expenses (session : AsyncSession) (user_id : UUID)
    (skip limit : Z) (category : option ExpenseCategory)
    (start_date end_date : option datetime) (search : option string)
  : IO (list Expense * Z) :=
  let statement := mk_Statement (SelectExpenses false None None) [UserIs user_id] in
  let count_statement := mk_Statement SelectCount [UserIs user_id] in
  let statement := where_if statement (option_map CategoryIs category) in
  let count_statement := where_if count_statement (option_map CategoryIs category) in
  let statement := where_if statement (option_map DateGe start_date) in
  let count_statement := where_if count_statement (option_map DateGe start_date) in
  let statement := where_if statement (option_map DateLe end_date) in
  let count_statement := where_if count_statement (option_map DateLe end_date) in
  let search_clause :=
    match search with
    | Some s => if (s =? EmptyString)%string then None
                else Some (TextILike ("%" ++ s ++ "%")%string)
    | None => None
    end in
  let statement := where_if statement search_clause in
  let count_statement := where_if count_statement search_clause in
  count_result <- execute session count_statement ;;
  let total_count :=
    match hd_error count_result with
    | Some n => int_or_zero n
    | None => 0
    end in
  let statement := order_by_desc_expense_date statement in
  let statement := offset_limit statement skip limit in
  expenses <- execute session statement ;;
  ret (expenses, total_count).

Definition category_spending_of_row (row : CategoryRow.t) : CategorySpendingModel.t :=
  CategorySpendingModel.make
    (CategoryRow.category row)
    (float_of_decimal (CategoryRow.total_amount row))
    (CategoryRow.expense_count row).

Definition get_spending_by_category (session : AsyncSession) (user_id : UUID)
    (start_date end_date : option datetime)
  : IO (list CategorySpendingModel.t) :=
  let statement := mk_Statement SelectCategoryTotals [UserIs user_id] in
  let statement := where_if statement (option_map DateGe start_date) in
  let statement := where_if statement (option_map DateLe end_date) in
  rows <- execute session statement ;;
  ret (map category_spending_of_row rows).

Definition get_spending_summary (session : AsyncSession) (user_id : UUID)
    (start_date end_date : option datetime)
  : IO SpendingSummaryModel.t :=
  let total_statement := mk_Statement SelectTotals [UserIs user_id] in
  let total_statement := where_if total_statement (option_map DateGe start_date) in
  let total_statement := where_if total_statement (option_map DateLe end_date) in
  total_result <- execute session total_statement ;;
  let total_row := hd_error total_result in
  let total_spending :=
    match total_row with
    | Some row => float_or_zero (TotalsRow.total row)
    | None => 0%Q
    end in
  let expense_count :=
    match total_row with
    | Some row => int_or_zero (TotalsRow.expense_count row)
    | None => 0
    end in
  category_breakdown <- get_spending_by_category session user_id start_date end_date ;;
  ret (SpendingSummaryModel.make total_spending expense_count category_breakdown
         start_date end_date).

(** The dict returned has the keys of [ExpenseStatisticsModel], which the
    route builds from it. *)
Definition get_monthly_statistics (session : AsyncSession) (user_id : UUID)
    (year month : Z)
  : IO ExpenseStatisticsModel.t :=
  let statement :=
    mk_Statement SelectStatistics [UserIs user_id; YearIs year; MonthIs month] in
  result <- execute session statement ;;
  let row := hd_error result in
  let category_statement :=
    mk_Statement SelectTopCategory [UserIs user_id; YearIs year; MonthIs month] in
  category_result <- execute session category_statement ;;
  let top_category_row := hd_error category_result in
  ret (ExpenseStatisticsModel.make
         (str_int year ++ "-" ++ format_0d 2 month)%string
         match row with
         | Some row => float_or_zero (StatisticsRow.total row)
         | None => 0%Q
         end
         match row with
         | Some row =>
             match StatisticsRow.average row with
             | Some a => if Qeq_bool a 0 then 0%Q else b64 a
             | None => 0%Q
             end
         | None => 0%Q
         end
         match row with
         | Some row => int_or_zero (StatisticsRow.expense_count row)
         | None => 0
         end
         (option_map TopCategoryRow.category top_category_row)
         (option_map (fun r => float_of_decimal (TopCategoryRow.category_total r))
                     top_category_row)).

(** [row.year], [row.month], [row.date]: present only when selected. *)
Definition row_year (row : SeriesRow.t) : Exception + Z :=
  match SeriesRow.key row with
  | KMonth y _ => inr y
  | KYear y => inr y
  | KDate _ _ _ => inl (AttributeError "year")
  end.

Definition row_month (row : SeriesRow.t) : Exception + Z :=
  match SeriesRow.key row with
  | KMonth _ m => inr m
  | _ => inl (AttributeError "month")
  end.

Definition row_date (row : SeriesRow.t) : Exception + Z * Z * Z :=
  match SeriesRow.key row with
  | KDate y m d => inr (y, m, d)
  | _ => inl (AttributeError "date")
  end.

(** The body of the loop over the rows: one data point per row. *)
Definition chart_point (period_type : string) (row : SeriesRow.t)
  : Exception + ChartDataPointModel.t :=
  let total_amount := float_or_zero (SeriesRow.total row) in
  let expense_count := int_or_zero (SeriesRow.expense_count row) in
  if (period_type =? "month")%string then
    match row_year row with
    | inl e => inl e
    | inr y =>
        match row_month row with
        | inl e => inl e
        | inr m =>
            inr (ChartDataPointModel.make
                   (str_int y ++ "-" ++ format_0d 2 m)%string
                   total_amount expense_count)
        end
    end
  else if (period_type =? "year")%string then
    match row_year row with
    | inl e => inl e
    | inr y => inr (ChartDataPointModel.make (str_int y) total_amount expense_count)
    end
  else
    match row_date row with
    | inl e => inl e
    | inr (y, m, d) =>
        inr (ChartDataPointModel.make (str_date y m d) total_amount expense_count)
    end.

(** The grouping chosen by the [if]/[elif]/[else] on [period_type]. *)
Definition granularity (period_type : string) : Granularity :=
  if (period_type =? "month")%string then ByMonth
  else if (period_type =? "year")%string then ByYear
  else ByDate.

Definition get_expenses_for_visualization (session : AsyncSession) (user_id : UUID)
    (period_type : string) (limit : Z)
  : IO (list ChartDataPointModel.t) :=
  let statement :=
    mk_Statement (SelectSeries (granularity period_type) limit) [UserIs user_id] in
  rows <- execute session statement ;;
  lift (for_each (chart_point period_type) (rev rows)).

Definition get_category_chart_data (session : AsyncSession) (user_id : UUID)
    (start_date end_date : option datetime)
  : IO (list CategoryChartDataModel.t) :=
  category_spending <- get_spending_by_category session user_id start_date end_date ;;
  let total_spending :=
    sum_float (map CategorySpendingModel.total_amount category_spending) in
  ret (map (fun category =>
              let percentage :=
                if Qlt_le_dec 0 total_spending
                then float_mul
                       (float_truediv (CategorySpendingModel.total_amount category)
                                      total_spending)
                       100
                else 0%Q in
              CategoryChartDataModel.make
                (CategorySpendingModel.category category)
                (CategorySpendingModel.total_amount category)
                (CategorySpendingModel.expense_count category)
                percentage)
           category_spending).

End ExpenseService.

(* ===================================================================== *)
(** ** routes.py: the request handlers *)
(* ===================================================================== *)

(** Modelled from the spec: [UserModel] of [app/api/v1/auth/schemas] is not
    among the sources.  The handlers read only its [id], the owner
    identifier of the spec. *)
Module UserModel.
Record t : Set := make { id : UUID }.
End UserModel.

(** A [Query(..., ge=lo, le=hi)] bound, checked before the handler body. *)
Definition query_bounds (parameter : string) (lo hi : option Z) (v : Z) : IO unit :=
  let ge_ok := match lo with Some l => l <=? v | None => true end in
  let le_ok := match hi with Some h => v <=? h | None => true end in
  if ge_ok && le_ok then ret tt else raise (RequestValidationError parameter).

(** [math.ceil(a / b)]: true division, then the ceiling. *)
Definition ceil_div (a b : Z) : Exception + Z :=
  if b =? 0 then inl ZeroDivisionError
  else inr (Qceiling (inject_Z a / inject_Z b)).

Module Routes.
Local Open Scope io_scope.

(** [math.ceil(total_count / page_size) if total_count > 0 else 0] *)
Definition total_pages_of (total_count page_size : Z) : Exception + Z :=
  if 0 <? total_count then ceil_div total_count page_size else inr 0.

Definition get_expenses (page page_size : Z) (category : option ExpenseCategory)
    (start_date end_date : option datetime) (search : option string)
    (current_user : UserModel.t) (session : AsyncSession)
  : IO ExpenseListResponseModel.t :=
  _ <- query_bounds "page" (Some 1) None page ;;
  _ <- query_bounds "page_size" (Some 1) (Some 100) page_size ;;
  let skip := (page - 1) * page_size in
  r <- ExpenseService.get_user_expenses session (UserModel.id current_user)
         skip page_size category start_date end_date search ;;
  let '(expenses, total_count) := r in
  total_pages <- lift (total_pages_of total_count page_size) ;;
  ret (ExpenseListResponseModel.make expenses total_count page page_size total_pages).

Definition get_spending_by_category (start_date end_date : option datetime)
    (current_user : UserModel.t) (session : AsyncSession)
  : IO (list CategorySpendingModel.t) :=
  ExpenseService.get_spending_by_category session (UserModel.id current_user)
    start_date end_date.

Definition get_spending_summary (start_date end_date : option datetime)
    (current_user : UserModel.t) (session : AsyncSession)
  : IO SpendingSummaryModel.t :=
  ExpenseService.get_spending_summary session (UserModel.id current_user)
    start_date end_date.

(** [get_monthly_statistics] of [routes.py] declares its path parameters
    [year] and [month] with [Query], which FastAPI refuses when the route is
    declared; there is no such handler to call, and none is modelled. *)

Definition period_types : list string := ["day"; "week"; "month"; "year"].

Definition get_visualization_data (period_type : string) (limit : Z)
    (current_user : UserModel.t) (session : AsyncSession)
  : IO ChartVisualizationResponseModel.t :=
  _ <- query_bounds "limit" (Some 1) (Some 100) limit ;;
  if negb (existsb (String.eqb period_type) period_types) then
    raise (HTTPException 400
             "Invalid period_type. Must be one of: day, week, month, year")
  else
    data_points <- ExpenseService.get_expenses_for_visualization session
                     (UserModel.id current_user) period_type limit ;;
    let total_spending := sum_float (map ChartDataPointModel.total_amount data_points) in
    let average_spending :=
      match data_points with
      | [] => 0%Q
      | _ => float_truediv total_spending
               (inject_Z (Z.of_nat (List.length data_points)))
      end in
    ret (ChartVisualizationResponseModel.make
           period_type data_points
           (Z.of_nat (List.length data_points))
           total_spending average_spending).

Definition get_category_chart_data (start_date end_date : option datetime)
    (current_user : UserModel.t) (session : AsyncSession)
  : IO CategoryChartResponseModel.t :=
  categories <- ExpenseService.get_category_chart_data session
                  (UserModel.id current_user) start_date end_date ;;
  let total_spending :=
    sum_float (map CategoryChartDataModel.total_amount categories) in
  let total_expenses := py_sum_int (map CategoryChartDataModel.expense_count categories) in
  ret (CategoryChartResponseModel.make categories total_spending total_expenses).

End Routes.

(* ===================================================================== *)
(** ** Vocabulary of the statements below *)
(* ===================================================================== *)

(** *** Sums *)

Definition Qsum (l : list Q) : Q := fold_right Qplus 0%Q l.

Definition Zsum (l : list Z) : Z := fold_right Z.add 0 l.

(** *** The records an aggregate is computed from *)

Definition owned (u : UUID) (x : Expense) : bool := N.eqb (user_id x) u.

(** The expenses of a user. *)
Definition expenses_of (session : AsyncSession) (u : UUID) : list Expense :=
  filter (owned u) (table session).

(** The expenses of a user inside an optional inclusive window. *)
Definition owned_in_window (u : UUID) (start_date end_date : option datetime)
    (x : Expense) : bool :=
  N.eqb (user_id x) u
  && match start_date with Some d => datetime_leb d (expense_date x) | None => true end
  && match end_date with Some d => datetime_leb (expense_date x) d | None => true end.

Definition records (session : AsyncSession) (u : UUID)
    (start_date end_date : option datetime) : list Expense :=
  filter (owned_in_window u start_date end_date) (table session).

(** The expenses of a user dated in a month of a year. *)
Definition in_month (u : UUID) (year month : Z) (x : Expense) : bool :=
  owned u x && (dt_year (expense_date x) =? year) && (dt_month (expense_date x) =? month).

Definition month_records (session : AsyncSession) (u : UUID) (year month : Z)
  : list Expense :=
  filter (in_month u year month) (table session).

(** *** Category spending *)

Definition category_statement (u : UUID) (start_date end_date : option datetime)
  : Statement :=
  where_if (where_if (mk_Statement SelectCategoryTotals [UserIs u])
                     (option_map DateGe start_date))
           (option_map DateLe end_date).

Definition totals_statement (u : UUID) (start_date end_date : option datetime)
  : Statement :=
  where_if (where_if (mk_Statement SelectTotals [UserIs u])
                     (option_map DateGe start_date))
           (option_map DateLe end_date).

(** The rows of the category statement in a session that has executed [tr]. *)
Definition category_rows (session : AsyncSession) (tr : Trace) (u : UUID)
    (start_date end_date : option datetime) : list CategoryRow.t :=
  order_by_total session tr
    (group_by_category (records session u start_date end_date)).

(** Descending order of the reported totals. *)
Definition amount_desc (a b : CategorySpendingModel.t) : Prop :=
  (CategorySpendingModel.total_amount b <= CategorySpendingModel.total_amount a)%Q.

(** *** Category chart *)

(** The percentage computed in the loop of [get_category_chart_data]. *)
Definition percentage_of (total_spending : Q) (category : CategorySpendingModel.t) : Q :=
  if Qlt_le_dec 0 total_spending
  then float_mul
         (float_truediv (CategorySpendingModel.total_amount category) total_spending)
         100
  else 0%Q.

Definition chart_data_of (total_spending : Q) (category : CategorySpendingModel.t)
  : CategoryChartDataModel.t :=
  CategoryChartDataModel.make
    (CategorySpendingModel.category category)
    (CategorySpendingModel.total_amount category)
    (CategorySpendingModel.expense_count category)
    (percentage_of total_spending category).



(** *** Time series *)

(** [a] is chronologically before [b]. *)
Definition key_lt (a b : BucketKey) : Prop := key_ltb a b = true.

(** The keys a grouping produces. *)
Definition key_kind (g : Granularity) (k : BucketKey) : Prop :=
  match g, k with
  | ByMonth, KMonth _ _ => True
  | ByYear, KYear _ => True
  | ByDate, KDate _ _ _ => True
  | _, _ => False
  end.

(** The label of a bucket. *)
Definition label (k : BucketKey) : string :=
  match k with
  | KMonth y m => (str_int y ++ "-" ++ format_0d 2 m)%string
  | KYear y => str_int y
  | KDate y m d => str_date y m d
  end.

(** The expenses of a list that fall in a bucket. *)
Definition members (g : Granularity) (l : list Expense) (k : BucketKey) : list Expense :=
  filter (in_bucket g k) l.

(** The data point of a bucket. *)
Definition series_point (g : Granularity) (l : list Expense) (k : BucketKey)
  : ChartDataPointModel.t :=
  ChartDataPointModel.make
    (label k)
    (float_or_zero (sql_sum (members g l k)))
    (int_or_zero (sql_count (members g l k))).

Definition series_statement (u : UUID) (period_type : string) (limit : Z) : Statement :=
  mk_Statement (SelectSeries (ExpenseService.granularity period_type) limit) [UserIs u].

(** The buckets kept by [LIMIT], oldest first. *)
Definition kept_keys (g : Granularity) (l : list Expense) (limit : Z) : list BucketKey :=
  rev (firstn (Z.to_nat limit) (bucket_keys_desc g l)).

(** The data points of an outcome. *)
Definition data_points_of (r : Exception + ChartVisualizationResponseModel.t)
  : Exception + list ChartDataPointModel.t :=
  match r with
  | inl e => inl e
  | inr resp => inr (ChartVisualizationResponseModel.data_points resp)
  end.

(** The exception of the handler for an unrecognized period_type. *)
Definition invalid_period_type : Exception :=
  HTTPException 400 "Invalid period_type. Must be one of: day, week, month, year".

(** *** Monthly statistics *)

(** Decimal digits. *)
Definition digit (d : Z) : ascii := ascii_of_nat (48 + Z.to_nat d).

Definition four_digits (y : Z) : string :=
  String (digit (y / 1000)) (String (digit (y / 100 mod 10))
    (String (digit (y / 10 mod 10)) (String (digit (y mod 10)) EmptyString))).

Definition two_digits (m : Z) : string :=
  String (digit (m / 10)) (String (digit (m mod 10)) EmptyString).

(** *** Calendar dates *)

(** The calendar date of an expense: year, month and day. *)
Definition calendar_date (x : Expense) : Z * Z * Z :=
  (dt_year (expense_date x), dt_month (expense_date x), dt_day (expense_date x)).

Definition on_date (d : Z * Z * Z) (x : Expense) : bool :=
  let '(y, m, dd) := d in
  (dt_year (expense_date x) =? y) && (dt_month (expense_date x) =? m)
  && (dt_day (expense_date x) =? dd).

(** [a] is a date before [b]. *)
Definition date_lt (a b : Z * Z * Z) : Prop := lex3_ltb a b = true.

(** The ISO format of a date: YYYY-MM-DD. *)
Definition iso_date (d : Z * Z * Z) : string :=
  let '(y, m, dd) := d in
  (four_digits y ++ "-" ++ two_digits m ++ "-" ++ two_digits dd)%string.

(** [p] is the data point of the calendar date [d] among the expenses [l]:
    labelled with the date, with the sum and the number of the expenses of
    that date. *)
Definition point_of_date (l : list Expense) (p : ChartDataPointModel.t)
    (d : Z * Z * Z) : Prop :=
  ChartDataPointModel.period p = str_date (fst (fst d)) (snd (fst d)) (snd d)
  /\ (ChartDataPointModel.total_amount p
      == float_of_decimal (sum_amount (filter (on_date d) l)))%Q
  /\ ChartDataPointModel.expense_count p
     = Z.of_nat (List.length (filter (on_date d) l)).

(** The integers [lo], [lo + 1], ..., [lo + n - 1]. *)
Definition Zrange (lo n : Z) : list Z :=
  map (fun i => lo + Z.of_nat i) (seq 0 (Z.to_nat n)).

Definition empty_month_statistics (period : string) : ExpenseStatisticsModel.t :=
  ExpenseStatisticsModel.make period 0%Q 0%Q 0 None None.

(** *** Engines and sample tables *)

Definition total_geb (a b : CategoryRow.t) : bool :=
  CategoryRow.total_amount b <=? CategoryRow.total_amount a.

Definition date_geb (a b : Expense) : bool :=
  datetime_leb (expense_date b) (expense_date a).

(** The rows in the order met, or in the opposite order, by turns. *)
Definition by_turns {A : Type} (tr : Trace) (l : list A) : list A :=
  if Nat.even (List.length tr) then l else rev l.

(** An exact, case-sensitive stand-in for the pattern operator. *)
Definition ilike_exact (s pattern : string) : bool := String.eqb s pattern.

Definition at_date (y m d : Z) : datetime := mk_datetime y m d 0.

Definition expense (owner : UUID) (c : ExpenseCategory) (cents : Z) (d : datetime)
  : Expense :=
  mk_Expense 0%N owner EmptyString cents c None d d d.

(** The registered users of the samples. *)
Definition sample_users : list UUID := [1%N; 2%N; 7%N].

(** Food 10.00 and 5.00 and Transport 15.00 for user 1; Rent for user 2. *)
Definition sample_table : list Expense :=
  [ expense 1%N FOOD 1000 (at_date 2025 3 1);
    expense 1%N FOOD 500 (at_date 2025 3 2);
    expense 1%N TRANSPORT 1500 (at_date 2025 4 2);
    expense 2%N RENT 70000 (at_date 2025 3 1) ].

(** Category totals that differ: Food 12.00, Transport 15.00. *)
Definition distinct_totals_table : list Expense :=
  [ expense 1%N FOOD 1000 (at_date 2025 3 1);
    expense 1%N TRANSPORT 1500 (at_date 2025 4 2);
    expense 1%N FOOD 200 (at_date 2025 4 3) ].



(* ===================================================================== *)
(** * The record operations

    The rest of [service.py] and [routes.py]: creating, reading, updating
    and deleting single expenses.

    These operations change the table, so they return the session they leave
    behind.  What a call takes from its environment -- the readings of the
    clock, the fresh identifier and the engine's conversion of a float to
    the [Numeric(10, 2)] column -- is passed in [Env.t].  The column
    constraints are those declared in [models.py]: [id] is the primary key,
    [user_id] is a foreign key to [users.id], [title] is a [String(100)],
    and [title], [amount], [category] and [expense_date] are not nullable.
    A statement that breaks one of them raises and leaves the table as it
    was; when it breaks several, the values are converted first, column by
    column in the order of their declaration, then the primary key is
    checked and then the foreign key.  The statements
    of these operations return no ordered result and are not entered in the
    trace. *)
(* ===================================================================== *)

(* ===================================================================== *)
(** ** schemas.py: request models and message responses *)
(* ===================================================================== *)

Module ExpenseCreateModel.
Record t : Set := make
  { title : string;
    amount : Q;
    category : ExpenseCategory;
    description : option string;
    expense_date : option datetime }.

(** The [Field] constraints: [min_length=1, max_length=100] on the title,
    [gt=0] on the amount, [max_length=500] on the description. *)
Definition valid (m : t) : bool :=
  (1 <=? String.length (title m))%nat
  && (String.length (title m) <=? 100)%nat
  && (if Qlt_le_dec 0 (amount m) then true else false)
  && match description m with
     | Some d => (String.length d <=? 500)%nat
     | None => true
     end.
End ExpenseCreateModel.

(** A field of a partial update as [model_dump(exclude_unset=True)] sees it:
    left out of the request, or given, possibly as [null]. *)
Inductive Field (A : Type) : Type :=
| Unset
| Provided (value : option A).
Arguments Unset {A}.
Arguments Provided {A} value.

Module ExpenseUpdateModel.
Record t : Set := make
  { title : Field string;
    amount : Field Q;
    category : Field ExpenseCategory;
    description : Field string;
    expense_date : Field datetime }.

(** The [Field] constraints bind the values that are given and not null. *)
Definition valid (m : t) : bool :=
  match title m with
  | Provided (Some s) =>
      (1 <=? String.length s)%nat && (String.length s <=? 100)%nat
  | _ => true
  end
  && match amount m with
     | Provided (Some a) => if Qlt_le_dec 0 a then true else false
     | _ => true
     end
  && match description m with
     | Provided (Some d) => (String.length d <=? 500)%nat
     | _ => true
     end.
End ExpenseUpdateModel.

(** [ExpenseCreateResponse] and [ExpenseUpdateResponse]: a [BaseResponse]
    with the expense. *)
Module ExpenseMessageResponse.
Record t : Set := make { message : string; status : string; expense : Expense }.
End ExpenseMessageResponse.

(** [ExpenseDeleteResponse] *)
Module ExpenseDeleteResponse.
Record t : Set := make { message : string; status : string }.
End ExpenseDeleteResponse.

(* ===================================================================== *)
(** ** The environment of a call and the table after a write *)
(* ===================================================================== *)

Module Env.
Record t : Type := make
  { uuid4 : UUID;                    (* the column default of [id] *)
    now : datetime;                  (* [datetime.now()] *)
    created_at_default : datetime;   (* [datetime.now(timezone.utc)] *)
    updated_at_default : datetime;   (* the same, read for [updated_at] *)
    numeric : Q -> Exception + Z }.  (* float to [Numeric(10, 2)], in cents *)
End Env.

(** The session after its table has been replaced; the engine is the same. *)
Definition with_table (session : AsyncSession) (rows : list Expense) : AsyncSession :=
  {| table := rows;
     users := users session;
     ilike := ilike session;
     order_by_total := order_by_total session;
     order_by_total_perm := order_by_total_perm session;
     order_by_total_sorted := order_by_total_sorted session;
     order_by_date := order_by_date session;
     order_by_date_perm := order_by_date_perm session;
     order_by_date_sorted := order_by_date_sorted session |}.

(** [and_(Expense.id == expense_id, Expense.user_id == owner)] *)
Definition id_and_owner (expense_id owner : UUID) (e : Expense) : bool :=
  N.eqb (id e) expense_id && N.eqb (user_id e) owner.

Definition has_id (expense_id : UUID) (e : Expense) : bool := N.eqb (id e) expense_id.

(** The owner and the category of a row. *)
Definition owner_of (e : Expense) : UUID := user_id e.

Definition Expense_category (e : Expense) : ExpenseCategory := category e.

Definition datetime_eqb (a b : datetime) : bool :=
  (dt_year a =? dt_year b) && (dt_month a =? dt_month b)
  && (dt_day a =? dt_day b) && (dt_time a =? dt_time b).

Definition option_eqb {A : Type} (eqb : A -> A -> bool) (a b : option A) : bool :=
  match a, b with
  | Some x, Some y => eqb x y
  | None, None => true
  | _, _ => false
  end.

(** [Decimal == float], as the unit of work compares the loaded amount with
    the one assigned: the exact values are compared, so that [0.1] is not
    [Decimal("0.10")] and [5.0] is [Decimal("5.00")]. *)
Definition same_amount (v : Q) (old : Z) : bool := Qeq_bool (b64 v) (old # 100).

(** The value a column takes in an [UPDATE]: [None] when the attribute was
    not set or was set to the value it had, so that the column is left out
    of the statement. *)
Definition changed {A B : Type} (same : A -> B -> bool) (f : Field A) (old : B)
  : option (option A) :=
  match f with
  | Unset => None
  | Provided None => Some None
  | Provided (Some v) => if same v old then None else Some (Some v)
  end.

(** The same for the nullable [description]. *)
Definition changed_nullable {A : Type} (eqb : A -> A -> bool) (f : Field A)
    (old : option A) : option (option A) :=
  match f with
  | Unset => None
  | Provided v => if option_eqb eqb v old then None else Some v
  end.

Definition not_null_violation (column : string) : Exception :=
  DBAPIError ("null value in column " ++ column)%string.

(** A column that is not nullable: keep, reject [NULL], or convert. *)
Definition set_column {A B : Type} (column : string) (convert : A -> Exception + B)
    (new : option (option A)) (old : B) : Exception + B :=
  match new with
  | None => inr old
  | Some None => inl (not_null_violation column)
  | Some (Some v) => convert v
  end.

(** [String(100)] *)
Definition string_100 (s : string) : Exception + string :=
  if (String.length s <=? 100)%nat then inr s
  else inl (DBAPIError "value too long for type character varying(100)").

Definition is_some {A : Type} (o : option A) : bool :=
  match o with Some _ => true | None => false end.

(* ===================================================================== *)
(** ** service.py: the record operations of [ExpenseService] *)
(* ===================================================================== *)

Module ExpenseRecords.

Definition create_expense (env : Env.t) (session : AsyncSession) (user_id : UUID)
    (expense_data : ExpenseCreateModel.t)
  : (Exception + Expense) * AsyncSession :=
  let expense_date :=
    match ExpenseCreateModel.expense_date expense_data with
    | Some d => d
    | None => Env.now env
    end in
  match string_100 (ExpenseCreateModel.title expense_data) with
  | inl e => (inl e, session)
  | inr title =>
      match Env.numeric env (ExpenseCreateModel.amount expense_data) with
      | inl e => (inl e, session)
      | inr amount =>
          let new_expense :=
            mk_Expense (Env.uuid4 env) user_id title amount
              (ExpenseCreateModel.category expense_data)
              (ExpenseCreateModel.description expense_data)
              expense_date (Env.created_at_default env) (Env.updated_at_default env) in
          if existsb (has_id (Env.uuid4 env)) (table session)
          then (inl (DBAPIError "duplicate key value violates unique constraint"),
                session)
          else if negb (existsb (N.eqb user_id) (users session))
          then (inl (DBAPIError "insert or update violates foreign key constraint"),
                session)
          else (inr new_expense, with_table session (table session ++ [new_expense]))
      end
  end.

Definition get_expense_by_id (session : AsyncSession) (expense_id user_id : UUID)
  : option Expense :=
  hd_error (filter (id_and_owner expense_id user_id) (table session)).

Definition update_expense (env : Env.t) (session : AsyncSession)
    (expense_id user_id : UUID) (expense_data : ExpenseUpdateModel.t)
  : (Exception + option Expense) * AsyncSession :=
  match get_expense_by_id session expense_id user_id with
  | None => (inr None, session)
  | Some expense =>
      let new_title :=
        changed String.eqb (ExpenseUpdateModel.title expense_data) (title expense) in
      let new_amount :=
        changed same_amount (ExpenseUpdateModel.amount expense_data)
                (amount expense) in
      let new_category :=
        changed category_eqb (ExpenseUpdateModel.category expense_data)
                (category expense) in
      let new_description :=
        changed_nullable String.eqb (ExpenseUpdateModel.description expense_data)
                         (description expense) in
      let new_expense_date :=
        changed datetime_eqb (ExpenseUpdateModel.expense_date expense_data)
                (expense_date expense) in
      let any_change :=
        is_some new_title || is_some new_amount || is_some new_category
        || is_some new_description || is_some new_expense_date in
      match set_column "title" string_100 new_title (title expense) with
      | inl e => (inl e, session)
      | inr title' =>
      match set_column "amount" (Env.numeric env) new_amount (amount expense) with
      | inl e => (inl e, session)
      | inr amount' =>
      match set_column "category" inr new_category (category expense) with
      | inl e => (inl e, session)
      | inr category' =>
      match set_column "expense_date" inr new_expense_date (expense_date expense) with
      | inl e => (inl e, session)
      | inr expense_date' =>
          let description' :=
            match new_description with
            | Some d => d
            | None => description expense
            end in
          let refreshed :=
            mk_Expense (id expense) (owner_of expense) title' amount' category'
              description' expense_date' (created_at expense)
              (if any_change then Env.updated_at_default env else updated_at expense) in
          (inr (Some refreshed),
           with_table session
             (map (fun e => if has_id (id expense) e then refreshed else e)
                  (table session)))
      end end end end
  end.

Definition delete_expense (session : AsyncSession) (expense_id user_id : UUID)
  : (Exception + bool) * AsyncSession :=
  match get_expense_by_id session expense_id user_id with
  | None => (inr false, session)
  | Some expense =>
      (inr true,
       with_table session
         (filter (fun e => negb (has_id (id expense) e)) (table session)))
  end.

End ExpenseRecords.

(* ===================================================================== *)
(** ** routes.py: the handlers of single expenses *)
(* ===================================================================== *)

Module RecordRoutes.

(** [HTTPException(status_code=404, detail="Expense not found")] *)
Definition not_found : Exception := HTTPException 404 "Expense not found".

Definition create_expense (env : Env.t) (expense_data : ExpenseCreateModel.t)
    (current_user : UserModel.t) (session : AsyncSession)
  : (Exception + ExpenseMessageResponse.t) * AsyncSession :=
  if negb (ExpenseCreateModel.valid expense_data)
  then (inl (RequestValidationError "expense_data"), session)
  else
    match ExpenseRecords.create_expense env session (UserModel.id current_user)
            expense_data with
    | (inl e, session') => (inl e, session')
    | (inr new_expense, session') =>
        (inr (ExpenseMessageResponse.make "Expense created successfully" "success"
                new_expense),
         session')
    end.

Definition get_expense (expense_id : UUID) (current_user : UserModel.t)
    (session : AsyncSession)
  : Exception + Expense :=
  match ExpenseRecords.get_expense_by_id session expense_id
          (UserModel.id current_user) with
  | None => inl not_found
  | Some expense => inr expense
  end.

Definition update_expense (env : Env.t) (expense_id : UUID)
    (expense_data : ExpenseUpdateModel.t) (current_user : UserModel.t)
    (session : AsyncSession)
  : (Exception + ExpenseMessageResponse.t) * AsyncSession :=
  if negb (ExpenseUpdateModel.valid expense_data)
  then (inl (RequestValidationError "expense_data"), session)
  else
    match ExpenseRecords.update_expense env session expense_id
            (UserModel.id current_user) expense_data with
    | (inl e, session') => (inl e, session')
    | (inr None, session') => (inl not_found, session')
    | (inr (Some updated_expense), session') =>
        (inr (ExpenseMessageResponse.make "Expense updated successfully" "success"
                updated_expense),
         session')
    end.

Definition delete_expense (expense_id : UUID) (current_user : UserModel.t)
    (session : AsyncSession)
  : (Exception + ExpenseDeleteResponse.t) * AsyncSession :=
  match ExpenseRecords.delete_expense session expense_id
          (UserModel.id current_user) with
  | (inl e, session') => (inl e, session')
  | (inr false, session') => (inl not_found, session')
  | (inr true, session') =>
      (inr (ExpenseDeleteResponse.make "Expense deleted successfully" "success"),
       session')
  end.

End RecordRoutes.

(* ===================================================================== *)
(** ** Vocabulary of the statements on records and pages *)
(* ===================================================================== *)

(** The primary key: no two rows share an [id]. *)
Definition unique_ids (session : AsyncSession) : Prop :=
  NoDup (map id (table session)).

(** The decimal the driver sends for a float: [str(x)], the shortest
    decimal that reads back as [x].  For an amount that fits the column it
    has three places or fewer when a decimal of three places reads back as
    [x]; otherwise its third place is that of the exact value, and not
    followed by zeros only. *)
Definition shortest_decimal (x : Q) : Q :=
  let thousandths := round_half_even (b64 x * 1000) in
  if Qeq_bool (b64 (thousandths # 1000)) (b64 x) then thousandths # 1000 else b64 x.

(** A clock, an identifier and the conversion of PostgreSQL to
    [Numeric(10, 2)], in cents: the decimal sent is rounded to two places,
    ties away from zero, and what does not fit ten digits is refused. *)
Definition numeric_round (x : Q) : Exception + Z :=
  let cents := round_half_away (shortest_decimal x * 100) in
  if Z.abs cents <? 10000000000 then inr cents
  else inl (DBAPIError "numeric field overflow").

Definition sample_env (new_id : UUID) : Env.t :=
  Env.make new_id (mk_datetime 2025 10 7 36000) (mk_datetime 2025 10 7 32400)
           (mk_datetime 2025 10 7 32401) numeric_round.

(** The search condition of the list: absent for no or an empty string. *)
Definition search_matches (session : AsyncSession) (search : option string)
    (x : Expense) : bool :=
  match search with
  | Some s =>
      if (s =? EmptyString)%string then true
      else holds session (TextILike ("%" ++ s ++ "%")%string) x
  | None => true
  end.

(** The rows the list of a user is taken from. *)
Definition listed (session : AsyncSession) (u : UUID)
    (category : option ExpenseCategory) (start_date end_date : option datetime)
    (search : option string) (x : Expense) : bool :=
  owned u x
  && match category with Some c => category_eqb (Expense_category x) c | None => true end
  && match start_date with Some d => datetime_leb d (expense_date x) | None => true end
  && match end_date with Some d => datetime_leb (expense_date x) d | None => true end
  && search_matches session search x.

Definition matching (session : AsyncSession) (u : UUID)
    (category : option ExpenseCategory) (start_date end_date : option datetime)
    (search : option string) : list Expense :=
  filter (listed session u category start_date end_date search) (table session).

(** The total of a category among some expenses, in cents. *)
Definition category_total (l : list Expense) (c : ExpenseCategory) : Z :=
  sum_amount (filter (in_category c) l).

Definition percentage_desc (a b : CategoryChartDataModel.t) : Prop :=
  (CategoryChartDataModel.percentage b <= CategoryChartDataModel.percentage a)%Q.

Definition listing_conditions (u : UUID) (category : option ExpenseCategory)
    (start_date end_date : option datetime) (search : option string) : list Clause :=
  conditions
    (where_if
       (where_if
          (where_if
             (where_if (mk_Statement SelectCount [UserIs u])
                       (option_map CategoryIs category))
             (option_map DateGe start_date))
          (option_map DateLe end_date))
       match search with
       | Some s => if (s =? EmptyString)%string then None
                   else Some (TextILike ("%" ++ s ++ "%")%string)
       | None => None
       end).

Definition shuffled_table : list Expense :=
  [ expense 7%N OTHERS 999 (at_date 2024 1 1);
    expense 1%N TRANSPORT 1500 (at_date 2025 4 2);
    expense 1%N FOOD 500 (at_date 2025 3 2);
    expense 1%N FOOD 1000 (at_date 2025 3 1) ].

Definition with_id (i : UUID) (e : Expense) : Expense :=
  mk_Expense i (user_id e) (title e) (amount e) (category e) (description e)
    (expense_date e) (created_at e) (updated_at e).

(** Rows 11, 12, 13 of user 1 and row 14 of user 2. *)
Definition keyed_table : list Expense :=
  [ with_id 11%N (expense 1%N FOOD 1000 (at_date 2025 3 1));
    with_id 12%N (expense 1%N FOOD 500 (at_date 2025 3 2));
    with_id 13%N (expense 1%N TRANSPORT 1500 (at_date 2025 4 2));
    with_id 14%N (expense 2%N RENT 70000 (at_date 2025 3 1)) ].

(** What a successful creation stores, for the created expense [e]. *)
Definition created_as (env : Env.t) (owner : UUID) (data : ExpenseCreateModel.t)
    (e : Expense) : Prop :=
  id e = Env.uuid4 env
  /\ user_id e = owner
  /\ title e = ExpenseCreateModel.title data
  /\ Env.numeric env (ExpenseCreateModel.amount data) = inr (amount e)
  /\ category e = ExpenseCreateModel.category data
  /\ description e = ExpenseCreateModel.description data
  /\ expense_date e = match ExpenseCreateModel.expense_date data with
                      | Some d => d
                      | None => Env.now env
                      end
  /\ created_at e = Env.created_at_default env
  /\ updated_at e = Env.updated_at_default env.

(** What a partial update asks of a column that is not nullable. *)
Definition field_set {A : Type} (f : Field A) (old new : A) : Prop :=
  match f with
  | Unset => new = old
  | Provided (Some v) => new = v
  | Provided None => False
  end.

(** The same for the nullable description. *)
Definition nullable_set {A : Type} (f : Field A) (old new : option A) : Prop :=
  match f with
  | Unset => new = old
  | Provided v => new = v
  end.

(** The amount is converted unless it compares equal to the stored one. *)
Definition amount_set (env : Env.t) (f : Field Q) (old new : Z) : Prop :=
  match f with
  | Unset => new = old
  | Provided (Some q) =>
      if same_amount q old then new = old
      else Env.numeric env q = inr new
  | Provided None => False
  end.

(** The required columns that a partial update sets to null. *)
Definition is_null {A : Type} (f : Field A) : bool :=
  match f with
  | Provided None => true
  | _ => false
  end.

Definition nulls_required (data : ExpenseUpdateModel.t) : bool :=
  is_null (ExpenseUpdateModel.title data)
  || is_null (ExpenseUpdateModel.amount data)
  || is_null (ExpenseUpdateModel.category data)
  || is_null (ExpenseUpdateModel.expense_date data).

(** A partial update that only repeats what is stored. *)
Definition restates (data : ExpenseUpdateModel.t) (e : Expense) : bool :=
  match ExpenseUpdateModel.title data with
  | Unset => true
  | Provided (Some v) => String.eqb v (title e)
  | Provided None => false
  end
  && match ExpenseUpdateModel.amount data with
     | Unset => true
     | Provided (Some q) => same_amount q (amount e)
     | Provided None => false
     end
  && match ExpenseUpdateModel.category data with
     | Unset => true
     | Provided (Some c) => category_eqb c (category e)
     | Provided None => false
     end
  && match ExpenseUpdateModel.description data with
     | Unset => true
     | Provided d => option_eqb String.eqb d (description e)
     end
  && match ExpenseUpdateModel.expense_date data with
     | Unset => true
     | Provided (Some d) => datetime_eqb d (expense_date e)
     | Provided None => false
     end.

(** The amount 5.0 and the category Food, and nothing else. *)
Definition repeat_amount : ExpenseUpdateModel.t :=
  ExpenseUpdateModel.make Unset (Provided (Some 5%Q)) (Provided (Some FOOD))
    Unset Unset.

(** One expense of 0.10. *)
Definition tenth_table : list Expense :=
  [ with_id 21%N (expense 1%N FOOD 10 (at_date 2025 3 1)) ].

(* ===================================================================== *)
(** ** Facts about the list helpers *)
(* ===================================================================== *)

Section InsertionSortFacts.
Context {A : Type}.
Variable leb : A -> A -> bool.

Lemma insert_sorted_perm (x : A) (l : list A) :
  Permutation (insert_sorted leb x l) (x :: l).
Proof.
  induction l as [|y l IH]; simpl.
  - apply Permutation_refl.
  - destruct (leb x y).
    + apply Permutation_refl.
    + eapply perm_trans; [apply perm_skip, IH | apply perm_swap].
Qed.

Lemma isort_perm (l : list A) : Permutation (isort leb l) l.
Proof.
  induction l as [|x l IH]; simpl.
  - constructor.
  - eapply perm_trans; [apply insert_sorted_perm | apply perm_skip, IH].
Qed.

Hypothesis leb_total : forall a b, leb a b = true \/ leb b a = true.
Hypothesis leb_trans : forall a b c, leb a b = true -> leb b c = true -> leb a c = true.

Let le (a b : A) : Prop := leb a b = true.

Lemma insert_sorted_sorted (x : A) (l : list A) :
  StronglySorted le l -> StronglySorted le (insert_sorted leb x l).
Proof.
  induction 1 as [|y l Hs IH Hall]; simpl.
  - repeat constructor.
  - destruct (leb x y) eqn:E.
    + constructor; [constructor; assumption|].
      constructor; [exact E|].
      eapply Forall_impl; [|exact Hall].
      intros z Hz. eapply leb_trans; eassumption.
    + constructor; [exact IH|].
      assert (Hyx : le y x) by (destruct (leb_total x y) as [H|H]; [congruence | exact H]).
      eapply Permutation_Forall; [apply Permutation_sym, insert_sorted_perm|].
      constructor; assumption.
Qed.

Lemma isort_sorted (l : list A) : StronglySorted le (isort leb l).
Proof.
  induction l as [|x l IH]; simpl.
  - constructor.
  - apply insert_sorted_sorted, IH.
Qed.
End InsertionSortFacts.

Lemma StronglySorted_weaken {A : Type} (R S : A -> A -> Prop) (l : list A) :
  (forall a b, R a b -> S a b) -> StronglySorted R l -> StronglySorted S l.
Proof.
  intros HRS; induction 1 as [|x l Hs IH Hall]; constructor; auto.
  eapply Forall_impl; [|exact Hall]. auto.
Qed.

Lemma StronglySorted_map {A B : Type} (R : A -> A -> Prop) (S : B -> B -> Prop)
    (f : A -> B) (l : list A) :
  (forall a b, R a b -> S (f a) (f b)) ->
  StronglySorted R l -> StronglySorted S (map f l).
Proof.
  intros H; induction 1 as [|x l Hs IH Hall]; simpl; constructor; auto.
  apply Forall_map. eapply Forall_impl; [|exact Hall]. auto.
Qed.

Lemma StronglySorted_app {A : Type} (R : A -> A -> Prop) (l1 l2 : list A) :
  StronglySorted R l1 -> StronglySorted R l2 ->
  (forall a b, In a l1 -> In b l2 -> R a b) ->
  StronglySorted R (l1 ++ l2).
Proof.
  induction 1 as [|x l1 Hs IH Hall]; intros S2 H; simpl; [exact S2|].
  constructor.
  - apply IH; [exact S2|]. intros a b Ha Hb. apply H; [right; exact Ha | exact Hb].
  - apply Forall_app. split; [exact Hall|].
    apply Forall_forall. intros b Hb. apply H; [left; reflexivity | exact Hb].
Qed.

Lemma StronglySorted_app_inv {A : Type} (R : A -> A -> Prop) (l1 l2 : list A) :
  StronglySorted R (l1 ++ l2) ->
  StronglySorted R l1 /\ forall a b, In a l1 -> In b l2 -> R a b.
Proof.
  induction l1 as [|x l1 IH]; simpl; intros S.
  - split; [constructor | intros a b []].
  - inversion S as [|? ? S' F]; subst. destruct (IH S') as [S1 H].
    apply Forall_app in F. destruct F as [F1 F2].
    split; [constructor; assumption|].
    intros a b [->|Ha] Hb.
    + rewrite Forall_forall in F2. apply F2, Hb.
    + apply H; assumption.
Qed.

Lemma StronglySorted_firstn {A : Type} (R : A -> A -> Prop) (n : nat) (l : list A) :
  StronglySorted R l -> StronglySorted R (firstn n l).
Proof.
  intros S. rewrite <- (firstn_skipn n l) in S.
  apply StronglySorted_app_inv in S. apply S.
Qed.

Lemma In_firstn {A : Type} (n : nat) (l : list A) (a : A) :
  In a (firstn n l) -> In a l.
Proof.
  intros H. rewrite <- (firstn_skipn n l). apply in_or_app. left. exact H.
Qed.

Lemma StronglySorted_rev {A : Type} (R : A -> A -> Prop) (l : list A) :
  StronglySorted R l -> StronglySorted (fun a b => R b a) (rev l).
Proof.
  induction 1 as [|x l Hs IH Hall]; simpl; [constructor|].
  apply StronglySorted_app; [exact IH | repeat constructor|].
  intros a b Ha [<-|[]]. rewrite Forall_forall in Hall.
  apply Hall. apply in_rev. exact Ha.
Qed.

(** Distinct elements of an ordered list are strictly ordered. *)
Lemma StronglySorted_strict {A : Type} (R S : A -> A -> Prop) (P : A -> Prop)
    (l : list A) :
  (forall a b, P a -> P b -> R a b -> a <> b -> S a b) ->
  Forall P l -> NoDup l -> StronglySorted R l -> StronglySorted S l.
Proof.
  intros H FP N Srt. induction Srt as [|x l Hs IH Hall]; [constructor|].
  inversion FP as [|? ? Px FP']; subst. inversion N as [|? ? Nx N']; subst.
  constructor; [apply IH; assumption|].
  rewrite Forall_forall in *. intros b Hb.
  apply H; auto. intros ->. contradiction.
Qed.

(** Two descending arrangements of the same rows agree when no two rows
    have the same key. *)
Lemma descending_arrangement_unique {A : Type} (key : A -> Z) (l1 : list A) :
  forall l2,
    Permutation l1 l2 ->
    StronglySorted (fun a b => key b <= key a) l1 ->
    StronglySorted (fun a b => key b <= key a) l2 ->
    NoDup (map key l1) ->
    l1 = l2.
Proof.
  induction l1 as [|x l1 IH]; intros l2 P S1 S2 N.
  - apply Permutation_nil in P. congruence.
  - destruct l2 as [|y l2].
    { apply Permutation_sym, Permutation_nil in P. discriminate. }
    inversion S1 as [|? ? S1' F1]; subst.
    inversion S2 as [|? ? S2' F2]; subst.
    inversion N as [|? ? Nx N']; subst.
    assert (E : x = y).
    { assert (Hx : In x (y :: l2)) by (eapply Permutation_in; [exact P | left; reflexivity]).
      assert (Hy : In y (x :: l1))
        by (eapply Permutation_in; [apply Permutation_sym; exact P | left; reflexivity]).
      destruct Hx as [Hx|Hx]; [congruence|].
      destruct Hy as [Hy|Hy]; [congruence|].
      rewrite Forall_forall in F1, F2.
      specialize (F1 y Hy). specialize (F2 x Hx).
      exfalso. apply Nx. replace (key x) with (key y) by lia.
      apply in_map, Hy. }
    subst y. f_equal.
    apply IH; auto. eapply Permutation_cons_inv; exact P.
Qed.

Lemma existsb_false_filter {A : Type} (p : A -> bool) (l : list A) :
  existsb p l = false -> filter p l = [].
Proof.
  induction l as [|a l IH]; simpl; [reflexivity|].
  destruct (p a); simpl; [discriminate | exact IH].
Qed.

Lemma for_each_map {A B : Type} (f : A -> Exception + B) (g : A -> B) (l : list A) :
  (forall a, In a l -> f a = inr (g a)) -> for_each f l = inr (map g l).
Proof.
  induction l as [|a l IH]; intros H; simpl; [reflexivity|].
  rewrite (H a (or_introl eq_refl)), IH; [reflexivity|].
  intros b Hb. apply H. right. exact Hb.
Qed.

(* ===================================================================== *)
(** ** Orders and two engines *)
(* ===================================================================== *)

Lemma lex3_ltb_spec (a b : Z * Z * Z) :
  lex3_ltb a b = true <->
  (let '(a1, a2, a3) := a in let '(b1, b2, b3) := b in
   a1 < b1 \/ (a1 = b1 /\ (a2 < b2 \/ (a2 = b2 /\ a3 < b3)))).
Proof.
  destruct a as [[a1 a2] a3], b as [[b1 b2] b3]; unfold lex3_ltb.
  rewrite !orb_true_iff, !andb_true_iff, !orb_true_iff, !andb_true_iff,
    !Z.ltb_lt, !Z.eqb_eq. tauto.
Qed.

Lemma datetime_leb_spec (a b : datetime) :
  datetime_leb a b = true <->
  (dt_year a < dt_year b \/
   (dt_year a = dt_year b /\
    (dt_month a < dt_month b \/
     (dt_month a = dt_month b /\
      (dt_day a < dt_day b \/ (dt_day a = dt_day b /\ dt_time a <= dt_time b)))))).
Proof.
  unfold datetime_leb. rewrite orb_true_iff, lex3_ltb_spec.
  rewrite !andb_true_iff, !Z.eqb_eq, Z.leb_le. lia.
Qed.

Lemma total_desc_sorted (l : list CategoryRow.t) :
  StronglySorted total_desc (isort total_geb l).
Proof.
  apply StronglySorted_weaken with (R := fun a b => total_geb a b = true).
  - unfold total_geb, total_desc; intros a b H. apply Z.leb_le, H.
  - apply (isort_sorted total_geb); unfold total_geb; intros.
    + rewrite !Z.leb_le. lia.
    + rewrite Z.leb_le in *. lia.
Qed.

Lemma date_desc_sorted (l : list Expense) :
  StronglySorted date_desc (isort date_geb l).
Proof.
  apply StronglySorted_weaken with (R := fun a b => date_geb a b = true).
  - auto.
  - apply (isort_sorted date_geb); unfold date_geb; intros.
    + rewrite !datetime_leb_spec. lia.
    + rewrite datetime_leb_spec in *. lia.
Qed.

(** An engine that keeps tied rows in the order it met them. *)
Definition stable_session (rows : list Expense) : AsyncSession :=
  {| table := rows;
     users := sample_users;
     ilike := ilike_exact;
     order_by_total := fun _ => isort total_geb;
     order_by_total_perm := fun _ => isort_perm total_geb;
     order_by_total_sorted := fun _ => total_desc_sorted;
     order_by_date := fun _ => isort date_geb;
     order_by_date_perm := fun _ => isort_perm date_geb;
     order_by_date_sorted := fun _ => date_desc_sorted |}.

Lemma by_turns_perm {A : Type} (leb : A -> A -> bool) (tr : Trace) (l : list A) :
  Permutation (isort leb (by_turns tr l)) l.
Proof.
  eapply perm_trans; [apply isort_perm|].
  unfold by_turns. destruct (Nat.even _);
    [apply Permutation_refl | apply Permutation_sym, Permutation_rev].
Qed.

(** An engine whose arrangement of tied rows changes from one execution to
    the next. *)
Definition alternating_session (rows : list Expense) : AsyncSession :=
  {| table := rows;
     users := sample_users;
     ilike := ilike_exact;
     order_by_total := fun tr l => isort total_geb (by_turns tr l);
     order_by_total_perm := by_turns_perm total_geb;
     order_by_total_sorted := fun tr l => total_desc_sorted (by_turns tr l);
     order_by_date := fun tr l => isort date_geb (by_turns tr l);
     order_by_date_perm := by_turns_perm date_geb;
     order_by_date_sorted := fun tr l => date_desc_sorted (by_turns tr l) |}.

(* ===================================================================== *)
(** ** Sums *)
(* ===================================================================== *)

Lemma fold_left_Qplus (l : list Q) (a : Q) : (fold_left Qplus l a == a + Qsum l)%Q.
Proof.
  revert a; induction l as [|x l IH]; intros a; simpl.
  - ring.
  - rewrite IH. ring.
Qed.

Lemma py_sum_spec (l : list Q) : (py_sum l == Qsum l)%Q.
Proof. unfold py_sum. rewrite fold_left_Qplus. ring. Qed.

Lemma py_sum_int_spec (l : list Z) : py_sum_int l = Zsum l.
Proof.
  unfold py_sum_int.
  assert (H : forall a, fold_left Z.add l a = a + Zsum l).
  { induction l as [|x l IH]; intros a; simpl; [lia | rewrite IH; lia]. }
  apply H.
Qed.

Lemma Qsum_perm (l l' : list Q) : Permutation l l' -> (Qsum l == Qsum l')%Q.
Proof.
  induction 1; simpl.
  - reflexivity.
  - rewrite IHPermutation. reflexivity.
  - ring.
  - etransitivity; eassumption.
Qed.

Lemma Zsum_perm (l l' : list Z) : Permutation l l' -> Zsum l = Zsum l'.
Proof. induction 1; simpl; lia. Qed.

Lemma Qsum_float (zs : list Z) :
  (Qsum (map float_of_decimal zs) == float_of_decimal (Zsum zs))%Q.
Proof.
  induction zs as [|z zs IH]; simpl.
  - reflexivity.
  - rewrite IH. unfold float_of_decimal, Qeq, Qplus; simpl. lia.
Qed.

Lemma float_of_decimal_le (a b : Z) :
  (float_of_decimal a <= float_of_decimal b)%Q <-> a <= b.
Proof. unfold float_of_decimal, Qle; simpl. lia. Qed.

Lemma float_or_zero_sum (l : list Expense) :
  (float_or_zero (sql_sum l) == float_of_decimal (sum_amount l))%Q.
Proof.
  destruct l as [|x l]; [reflexivity|].
  unfold sql_sum, float_or_zero.
  destruct (Z.eqb_spec (sum_amount (x :: l)) 0) as [E|E].
  - rewrite E. reflexivity.
  - reflexivity.
Qed.

Lemma int_or_zero_id (n : Z) : int_or_zero n = n.
Proof. unfold int_or_zero. destruct (Z.eqb_spec n 0); congruence. Qed.

Lemma Zsum_map_filter {A : Type} (P : A -> bool) (f : A -> Z) (l : list A) :
  (forall a, P a = false -> f a = 0) ->
  Zsum (map f (filter P l)) = Zsum (map f l).
Proof.
  intros H; induction l as [|a l IH]; simpl; [reflexivity|].
  destruct (P a) eqn:E; simpl; rewrite IH; [reflexivity|].
  rewrite (H a E). reflexivity.
Qed.

(* ===================================================================== *)
(** ** Grouping by category *)
(* ===================================================================== *)

Lemma one_category_of (e : Expense) (v : Z) :
  Zsum (map (fun c => if in_category c e then v else 0) all_categories) = v.
Proof. unfold in_category. destruct (category e); simpl; lia. Qed.

Lemma Zsum_map_add {A : Type} (f g : A -> Z) (l : list A) :
  Zsum (map (fun a => f a + g a) l) = Zsum (map f l) + Zsum (map g l).
Proof. induction l as [|a l IH]; simpl; lia. Qed.

Lemma Zsum_map_ext {A : Type} (f g : A -> Z) (l : list A) :
  (forall a, f a = g a) -> Zsum (map f l) = Zsum (map g l).
Proof. intros H; induction l as [|a l IH]; simpl; [reflexivity | rewrite H, IH; reflexivity]. Qed.

(** Every expense falls in exactly one category. *)
Lemma sum_over_all_categories (l : list Expense) :
  Zsum (map (fun c => sum_amount (filter (in_category c) l)) all_categories)
  = sum_amount l.
Proof.
  induction l as [|e l IH]; [reflexivity|].
  rewrite (Zsum_map_ext _
             (fun c => (if in_category c e then amount e else 0)
                       + sum_amount (filter (in_category c) l))).
  - rewrite Zsum_map_add, one_category_of, IH. reflexivity.
  - intros c; simpl. destruct (in_category c e); reflexivity.
Qed.

Lemma count_over_all_categories (l : list Expense) :
  Zsum (map (fun c => sql_count (filter (in_category c) l)) all_categories)
  = sql_count l.
Proof.
  induction l as [|e l IH]; [reflexivity|].
  rewrite (Zsum_map_ext _
             (fun c => (if in_category c e then 1 else 0)
                       + sql_count (filter (in_category c) l))).
  - rewrite Zsum_map_add, one_category_of, IH. unfold sql_count.
    change (List.length (e :: l)) with (S (List.length l)). lia.
  - intros c; simpl. unfold sql_count.
    destruct (in_category c e);
      [change (List.length (e :: filter (in_category c) l))
         with (S (List.length (filter (in_category c) l)))|]; lia.
Qed.

Lemma all_categories_complete (c : ExpenseCategory) : In c all_categories.
Proof. destruct c; simpl; tauto. Qed.

Lemma group_by_category_in (l : list Expense) (r : CategoryRow.t) :
  In r (group_by_category l) <->
  exists c, existsb (in_category c) l = true
            /\ r = CategoryRow.make c (category_total l c)
                     (sql_count (filter (in_category c) l)).
Proof.
  unfold group_by_category, category_total. rewrite in_map_iff. split.
  - intros (c & <- & Hc). apply filter_In in Hc. exists c. split; [apply Hc | reflexivity].
  - intros (c & Hc & ->). exists c. split; [reflexivity|].
    apply filter_In. split; [apply all_categories_complete | exact Hc].
Qed.

Lemma in_category_self (x : Expense) : in_category (category x) x = true.
Proof.
  unfold in_category, category_eqb.
  destruct (ExpenseCategory_eq_dec (category x) (category x)); congruence.
Qed.

Lemma occurs_in_category (l : list Expense) (c : ExpenseCategory) :
  existsb (in_category c) l = true <-> exists x, In x l /\ category x = c.
Proof.
  rewrite existsb_exists. unfold in_category, category_eqb.
  split; intros (x & Hx & E); exists x; (split; [exact Hx|]);
    destruct (ExpenseCategory_eq_dec (category x) c); congruence.
Qed.

Lemma group_by_category_categories (l : list Expense) :
  map CategoryRow.category (group_by_category l)
  = filter (fun c => existsb (in_category c) l) all_categories.
Proof. unfold group_by_category. rewrite map_map. apply map_id. Qed.

Lemma all_categories_NoDup : NoDup all_categories.
Proof.
  unfold all_categories.
  repeat (constructor; [simpl; intuition discriminate|]). constructor.
Qed.

Lemma group_by_category_NoDup (l : list Expense) :
  NoDup (map CategoryRow.category (group_by_category l)).
Proof.
  rewrite group_by_category_categories. apply NoDup_filter, all_categories_NoDup.
Qed.

Lemma group_by_category_totals (l : list Expense) :
  Zsum (map CategoryRow.total_amount (group_by_category l)) = sum_amount l.
Proof.
  unfold group_by_category. rewrite map_map; cbn [CategoryRow.total_amount].
  rewrite Zsum_map_filter.
  - apply sum_over_all_categories.
  - intros c H. rewrite (existsb_false_filter _ _ H). reflexivity.
Qed.

Lemma group_by_category_counts (l : list Expense) :
  Zsum (map CategoryRow.expense_count (group_by_category l)) = sql_count l.
Proof.
  unfold group_by_category. rewrite map_map; cbn [CategoryRow.expense_count].
  rewrite Zsum_map_filter.
  - apply count_over_all_categories.
  - intros c H. rewrite (existsb_false_filter _ _ H). reflexivity.
Qed.

Lemma group_by_category_nil : group_by_category [] = [].
Proof. reflexivity. Qed.


(* ===================================================================== *)
(** ** The records an aggregate is computed from *)
(* ===================================================================== *)

Lemma selected_window (session : AsyncSession) (c : Select) (u : UUID)
    (start_date end_date : option datetime) :
  selected session
    (conditions (where_if (where_if (mk_Statement c [UserIs u])
                                    (option_map DateGe start_date))
                          (option_map DateLe end_date)))
  = records session u start_date end_date.
Proof.
  unfold selected, records. apply filter_ext. intros x.
  unfold owned_in_window.
  destruct start_date, end_date; simpl; rewrite ?andb_true_r, ?andb_assoc; reflexivity.
Qed.

(* ===================================================================== *)
(** ** The two-place serializer *)
(* ===================================================================== *)

Lemma round_half_even_int (z : Z) : round_half_even (inject_Z z) = z.
Proof.
  unfold round_half_even, inject_Z, Qfloor, Qmult.
  cbn [Qnum Qden Pos.mul]. rewrite !Z.div_1_r.
  replace (z * 2 - 2 * z) with 0 by lia. reflexivity.
Qed.

Lemma round_half_even_eq (x y : Q) : (x == y)%Q -> round_half_even x = round_half_even y.
Proof.
  intros H. unfold round_half_even.
  rewrite (Qfloor_comp _ _ H).
  assert (H2 : (x * 2 == y * 2)%Q) by (rewrite H; reflexivity).
  rewrite (Qfloor_comp _ _ H2).
  destruct (_ =? 0); [reflexivity|].
  assert (E : Qeq_bool (x * 2) (inject_Z (2 * Qfloor y + 1))
              = Qeq_bool (y * 2) (inject_Z (2 * Qfloor y + 1))).
  { destruct (Qeq_bool (y * 2) _) eqn:Ey.
    - apply Qeq_bool_iff. apply Qeq_bool_iff in Ey. rewrite H2. exact Ey.
    - destruct (Qeq_bool (x * 2) _) eqn:Ex; [|reflexivity].
      apply Qeq_bool_iff in Ex. rewrite H2 in Ex. apply Qeq_bool_iff in Ex. congruence. }
  rewrite E. reflexivity.
Qed.

Lemma Qeq_refl_eq (x y : Q) : x = y -> (x == y)%Q.
Proof. intros ->. reflexivity. Qed.

Lemma round_half_even_cases (y : Q) :
  (round_half_even y = Qfloor y /\ (y * 2 <= inject_Z (2 * Qfloor y + 1))%Q)
  \/ (round_half_even y = Qfloor y + 1 /\ (inject_Z (2 * Qfloor y + 1) <= y * 2)%Q).
Proof.
  unfold round_half_even.
  pose proof (Qfloor_le (y * 2)) as L2.
  pose proof (Qlt_floor (y * 2)) as U2.
  pose proof (Qfloor_le y) as L1.
  pose proof (Qlt_floor y) as U1.
  destruct (Z.eqb_spec (Qfloor (y * 2) - 2 * Qfloor y) 0) as [E|E].
  - left. split; [reflexivity|].
    replace (2 * Qfloor y + 1) with (Qfloor (y * 2) + 1) by lia.
    apply Qlt_le_weak, U2.
  - assert (H : (inject_Z (2 * Qfloor y + 1) <= y * 2)%Q).
    { assert (G : 2 * Qfloor y + 1 <= Qfloor (y * 2)).
      { assert (2 * Qfloor y <= Qfloor (y * 2)); [|lia].
        rewrite <- (Qfloor_Z (2 * Qfloor y)). apply Qfloor_resp_le.
        rewrite inject_Z_mult. change (inject_Z 2) with 2%Q. lra. }
      eapply Qle_trans; [|exact L2]. rewrite <- Zle_Qle. exact G. }
    destruct (Qeq_bool (y * 2) (inject_Z (2 * Qfloor y + 1))) eqn:T.
    + apply Qeq_bool_iff in T.
      destruct (Z.even (Qfloor y)).
      * left. split; [reflexivity|]. rewrite T. apply Qle_refl.
      * right. split; [reflexivity|]. exact H.
    + right. split; [reflexivity|]. exact H.
Qed.

Lemma round_half_even_error (y : Q) : (Qabs (inject_Z (round_half_even y) - y) <= 1 # 2)%Q.
Proof.
  apply Qabs_Qle_condition.
  pose proof (Qfloor_le y) as L1.
  pose proof (Qlt_floor y) as U1.
  destruct (round_half_even_cases y) as [[-> H]|[-> H]];
    rewrite inject_Z_plus, inject_Z_mult in H; change (inject_Z 2) with 2%Q in H;
    change (inject_Z 1) with 1%Q in H.
  - split; lra.
  - rewrite inject_Z_plus in *. change (inject_Z 1) with 1%Q in *. split; lra.
Qed.

Lemma round_half_even_mono (x y : Q) :
  (x <= y)%Q -> round_half_even x <= round_half_even y.
Proof.
  intros H.
  destruct (Z_le_gt_dec (round_half_even x) (round_half_even y)) as [?|G];
    [assumption|].
  exfalso.
  pose proof (round_half_even_error x) as Ex.
  pose proof (round_half_even_error y) as Ey.
  apply Qabs_Qle_condition in Ex, Ey.
  assert (G' : (inject_Z (round_half_even y) + 1 <= inject_Z (round_half_even x))%Q).
  { change 1%Q with (inject_Z 1). rewrite <- inject_Z_plus, <- Zle_Qle. lia. }
  assert (E : (x == y)%Q) by lra.
  apply round_half_even_eq in E. lia.
Qed.

(* ===================================================================== *)
(** ** Binary64 rounding *)
(* ===================================================================== *)

Lemma pow2_pos (e : Z) : (0 < 2 ^ e)%Q.
Proof. apply Qpower_0_lt. reflexivity. Qed.

Lemma pow2_nonzero (e : Z) : ~ (2 ^ e == 0)%Q.
Proof. pose proof (pow2_pos e). lra. Qed.

Lemma pow2_plus (n m : Z) : (2 ^ (n + m) == 2 ^ n * 2 ^ m)%Q.
Proof. apply Qpower_plus. discriminate. Qed.

Lemma pow2_succ (n : Z) : (2 ^ (n + 1) == 2 * 2 ^ n)%Q.
Proof. rewrite pow2_plus. change (2 ^ 1)%Q with 2%Q. ring. Qed.

Lemma pow2_le (n m : Z) : n <= m -> (2 ^ n <= 2 ^ m)%Q.
Proof. intros H. apply Qpower_le_compat_l; [exact H | discriminate]. Qed.

Lemma pow2_lt_inv (n m : Z) : (2 ^ n < 2 ^ m)%Q -> n < m.
Proof. intros H. apply Qpower_lt_compat_l_inv with (q := 2%Q); [exact H | reflexivity]. Qed.

Lemma pow2_Z (n : Z) : 0 <= n -> (2 ^ n == inject_Z (2 ^ n))%Q.
Proof. intros H. rewrite Zpower_Qpower by exact H. reflexivity. Qed.

Lemma Qdiv_lt_cross (p q r s : Q) :
  (0 < q)%Q -> (0 < s)%Q -> (p * s < r * q)%Q -> (p / q < r / s)%Q.
Proof.
  intros Hq Hs H. apply Qlt_shift_div_l; [exact Hs|].
  setoid_replace (p / q * s)%Q with (p * s / q)%Q by (field; lra).
  apply Qlt_shift_div_r; [exact Hq | exact H].
Qed.

Lemma Qdiv_le_cross (p q r s : Q) :
  (0 < q)%Q -> (0 < s)%Q -> (p * s <= r * q)%Q -> (p / q <= r / s)%Q.
Proof.
  intros Hq Hs H. apply Qle_shift_div_l; [exact Hs|].
  setoid_replace (p / q * s)%Q with (p * s / q)%Q by (field; lra).
  apply Qle_shift_div_r; [exact Hq | exact H].
Qed.

Lemma ilog2_spec (x : Q) :
  (0 < x)%Q -> (2 ^ ilog2 x <= x /\ x < 2 ^ (ilog2 x + 1))%Q.
Proof.
  intros Hx. unfold ilog2.
  destruct x as [n d]. unfold Qlt in Hx. simpl in Hx. rewrite Z.mul_1_r in Hx.
  cbn [Qnum Qden].
  set (a := Z.log2 n). set (b := Z.log2 (Z.pos d)).
  pose proof (Z.log2_spec n Hx) as [A1 A2]. fold a in A1, A2.
  pose proof (Z.log2_spec (Z.pos d) ltac:(lia)) as [B1 B2]. fold b in B1, B2.
  pose proof (Z.log2_nonneg n) as Ha. fold a in Ha.
  pose proof (Z.log2_nonneg (Z.pos d)) as Hb. fold b in Hb.
  assert (Ea : forall k, (2 ^ (a - b + k) == 2 ^ k * inject_Z (2 ^ a) / inject_Z (2 ^ b))%Q).
  { intros k. replace (a - b + k) with (k + a + - b) by lia.
    rewrite !pow2_plus, Qpower_opp.
    rewrite (pow2_Z Ha), (pow2_Z Hb).
    unfold Qdiv. ring. }
  assert (Pb : (0 < inject_Z (2 ^ b))%Q).
  { rewrite <- pow2_Z by exact Hb. apply pow2_pos. }
  assert (Pd : (0 < inject_Z (Z.pos d))%Q) by (unfold Qlt; simpl; lia).
  assert (Ex : (n # d == inject_Z n / inject_Z (Z.pos d))%Q).
  { unfold Qeq, Qdiv, Qmult, Qinv, inject_Z; simpl. lia. }
  assert (Up : (n # d < 2 ^ (a - b + 1))%Q).
  { rewrite Ea, Ex. change (2 ^ 1)%Q with 2%Q.
    apply Qdiv_lt_cross; [exact Pd | exact Pb|].
    change 2%Q with (inject_Z 2). rewrite <- !inject_Z_mult. rewrite <- Zlt_Qlt.
    rewrite Z.pow_succ_r in A2, B2 by assumption. nia. }
  assert (Lo : (2 ^ (a - b + -1) <= n # d)%Q).
  { rewrite Ea, Ex. change (2 ^ (-1))%Q with (1 # 2)%Q.
    apply Qdiv_le_cross; [exact Pb | exact Pd|].
    assert (G : (inject_Z (2 ^ a) * inject_Z (Z.pos d)
                 <= 2 * (inject_Z n * inject_Z (2 ^ b)))%Q).
    { change 2%Q with (inject_Z 2). rewrite <- !inject_Z_mult.
      rewrite <- Zle_Qle.
      rewrite Z.pow_succ_r in A2, B2 by assumption. nia. }
    lra. }
  destruct (Qle_bool (2 ^ (a - b)) (n # d)) eqn:E.
  - apply Qle_bool_iff in E. split; [exact E | exact Up].
  - assert (E' : (n # d < 2 ^ (a - b))%Q).
    { apply Qnot_le_lt. intros H. apply Qle_bool_iff in H. congruence. }
    replace (a - b - 1 + 1) with (a - b) by lia.
    replace (a - b - 1) with (a - b + -1) by lia.
    split; [exact Lo | exact E'].
Qed.

Lemma ilog2_unique (x : Q) (k : Z) :
  (2 ^ k <= x)%Q -> (x < 2 ^ (k + 1))%Q -> ilog2 x = k.
Proof.
  intros L U.
  assert (Hx : (0 < x)%Q) by (pose proof (pow2_pos k); lra).
  destruct (ilog2_spec Hx) as [L' U'].
  assert (ilog2 x < k + 1) by (apply pow2_lt_inv; lra).
  assert (k < ilog2 x + 1) by (apply pow2_lt_inv; lra).
  lia.
Qed.

Lemma ilog2_compat (x y : Q) : (0 < x)%Q -> (x == y)%Q -> ilog2 x = ilog2 y.
Proof.
  intros Hx E. symmetry. apply ilog2_unique; rewrite <- E; apply ilog2_spec, Hx.
Qed.

Lemma ilog2_mono (x y : Q) : (0 < x)%Q -> (x <= y)%Q -> ilog2 x <= ilog2 y.
Proof.
  intros Hx H.
  destruct (ilog2_spec Hx) as [L _].
  destruct (@ilog2_spec y ltac:(lra)) as [_ U].
  assert (ilog2 x < ilog2 y + 1) by (apply pow2_lt_inv; lra). lia.
Qed.

Lemma pow2_52 : (2 ^ 52 == inject_Z 4503599627370496)%Q.
Proof. reflexivity. Qed.

Lemma pow2_53 : (2 ^ 53 == inject_Z 9007199254740992)%Q.
Proof. reflexivity. Qed.

Lemma scaled_range (x : Q) :
  (0 < x)%Q ->
  (2 ^ 52 <= x / 2 ^ (ilog2 x - 52) /\ x / 2 ^ (ilog2 x - 52) < 2 ^ 53)%Q.
Proof.
  intros Hx. destruct (ilog2_spec Hx) as [L U].
  set (k := ilog2 x) in *. pose proof (pow2_pos (k - 52)) as P.
  assert (E1 : (2 ^ k == 2 ^ 52 * 2 ^ (k - 52))%Q)
    by (rewrite <- pow2_plus; replace (52 + (k - 52)) with k by lia; reflexivity).
  assert (E2 : (2 ^ (k + 1) == 2 ^ 53 * 2 ^ (k - 52))%Q)
    by (rewrite <- pow2_plus; replace (53 + (k - 52)) with (k + 1) by lia; reflexivity).
  split.
  - apply Qle_shift_div_l; [exact P|]. rewrite <- E1. exact L.
  - apply Qlt_shift_div_r; [exact P|]. rewrite <- E2. exact U.
Qed.

Lemma significand_range (x : Q) :
  (0 < x)%Q ->
  4503599627370496 <= round_half_even (x / 2 ^ (ilog2 x - 52)) <= 9007199254740992.
Proof.
  intros Hx. destruct (scaled_range Hx) as [L U].
  rewrite pow2_52 in L. rewrite pow2_53 in U.
  split.
  - rewrite <- (round_half_even_int 4503599627370496).
    apply round_half_even_mono, L.
  - rewrite <- (round_half_even_int 9007199254740992).
    apply round_half_even_mono, Qlt_le_weak, U.
Qed.

Lemma b64_pos_bounds (x : Q) :
  (0 < x)%Q ->
  (2 ^ ilog2 x <= b64_pos x /\ b64_pos x <= 2 ^ (ilog2 x + 1))%Q.
Proof.
  intros Hx. unfold b64_pos. cbv zeta.
  pose proof (significand_range Hx) as [L U].
  set (k := ilog2 x) in *. pose proof (pow2_pos (k - 52)) as P.
  set (m := round_half_even _) in *.
  assert (E1 : (2 ^ k == 2 ^ 52 * 2 ^ (k - 52))%Q)
    by (rewrite <- pow2_plus; replace (52 + (k - 52)) with k by lia; reflexivity).
  assert (E2 : (2 ^ (k + 1) == 2 ^ 53 * 2 ^ (k - 52))%Q)
    by (rewrite <- pow2_plus; replace (53 + (k - 52)) with (k + 1) by lia; reflexivity).
  rewrite E1, E2, pow2_52, pow2_53.
  rewrite Zle_Qle in L, U.
  split; apply Qmult_le_compat_r; lra.
Qed.

Lemma b64_pos_error (x : Q) :
  (0 < x)%Q -> (Qabs (b64_pos x - x) <= x * ulp_half)%Q.
Proof.
  intros Hx. unfold b64_pos. cbv zeta.
  destruct (scaled_range Hx) as [L _].
  set (e := ilog2 x - 52) in *. pose proof (pow2_pos e) as P.
  pose proof (round_half_even_error (x / 2 ^ e)) as R.
  set (m := inject_Z (round_half_even (x / 2 ^ e))) in *.
  assert (Ex : (x == x / 2 ^ e * 2 ^ e)%Q) by (field; lra).
  set (y := (x / 2 ^ e)%Q) in *. clearbody y m.
  rewrite pow2_52 in L.
  apply Qabs_Qle_condition in R. apply Qabs_Qle_condition.
  rewrite Ex. unfold ulp_half.
  assert (Y : (inject_Z 4503599627370496 == 4503599627370496)%Q) by reflexivity.
  rewrite Y in L. clear Ex Hx.
  set (t := (2 ^ e)%Q) in *. clearbody t.
  split; nra.
Qed.

Lemma b64_pos_compat (x y : Q) : (0 < x)%Q -> (x == y)%Q -> (b64_pos x == b64_pos y)%Q.
Proof.
  intros Hx E. unfold b64_pos. cbv zeta.
  rewrite <- (ilog2_compat Hx E).
  rewrite (round_half_even_eq (x := x / 2 ^ (ilog2 x - 52)) (y := y / 2 ^ (ilog2 x - 52)));
    [reflexivity|].
  apply Qdiv_comp; [exact E | reflexivity].
Qed.

Lemma b64_pos_mono (x y : Q) :
  (0 < x)%Q -> (x <= y)%Q -> (b64_pos x <= b64_pos y)%Q.
Proof.
  intros Hx H. assert (Hy : (0 < y)%Q) by lra.
  pose proof (ilog2_mono Hx H) as K.
  destruct (Z.eq_dec (ilog2 x) (ilog2 y)) as [E|N].
  - unfold b64_pos. cbv zeta. rewrite <- E.
    pose proof (pow2_pos (ilog2 x - 52)) as P.
    apply Qmult_le_compat_r; [|lra].
    rewrite <- Zle_Qle. apply round_half_even_mono.
    apply Qmult_le_compat_r; [exact H|].
    apply Qlt_le_weak, Qinv_lt_0_compat, P.
  - destruct (b64_pos_bounds Hx) as [_ U]. destruct (b64_pos_bounds Hy) as [L _].
    assert (P : (2 ^ (ilog2 x + 1) <= 2 ^ ilog2 y)%Q) by (apply pow2_le; lia).
    lra.
Qed.

Lemma b64_pos_pos (x : Q) : (0 < x)%Q -> (0 < b64_pos x)%Q.
Proof.
  intros Hx. destruct (b64_pos_bounds Hx) as [L _].
  pose proof (pow2_pos (ilog2 x)). lra.
Qed.

Lemma b64_pos_of (x : Q) : (0 < x)%Q -> b64 x = b64_pos x.
Proof.
  intros H. unfold b64. rewrite (proj1 (Qgt_alt x 0) H). reflexivity.
Qed.

Lemma b64_neg_of (x : Q) : (x < 0)%Q -> b64 x = (- b64_pos (- x))%Q.
Proof.
  intros H. unfold b64. rewrite (proj1 (Qlt_alt x 0) H). reflexivity.
Qed.

Lemma b64_zero_of (x : Q) : (x == 0)%Q -> b64 x = 0%Q.
Proof.
  intros H. unfold b64. rewrite (proj1 (Qeq_alt x 0) H). reflexivity.
Qed.

Lemma b64_cases (x : Q) :
  ((0 < x)%Q /\ b64 x = b64_pos x)
  \/ ((x == 0)%Q /\ b64 x = 0%Q)
  \/ ((x < 0)%Q /\ b64 x = (- b64_pos (- x))%Q).
Proof.
  destruct (Q_dec x 0) as [[H|H]|H].
  - right. right. split; [exact H | apply b64_neg_of, H].
  - left. split; [exact H | apply b64_pos_of, H].
  - right. left. split; [exact H | apply b64_zero_of, H].
Qed.

Lemma b64_compat (x y : Q) : (x == y)%Q -> (b64 x == b64 y)%Q.
Proof.
  intros E. destruct (b64_cases x) as [[H ->]|[[H ->]|[H ->]]].
  - rewrite (@b64_pos_of y) by (rewrite <- E; exact H).
    apply b64_pos_compat; assumption.
  - rewrite (@b64_zero_of y) by (rewrite <- E; exact H). reflexivity.
  - rewrite (@b64_neg_of y) by (rewrite <- E; exact H).
    apply Qopp_comp, b64_pos_compat; [lra | rewrite E; reflexivity].
Qed.

#[global] Instance b64_proper : Proper (Qeq ==> Qeq) b64.
Proof. intros x y E. apply b64_compat, E. Qed.

Lemma b64_opp (x : Q) : (b64 (- x) == - b64 x)%Q.
Proof.
  destruct (b64_cases x) as [[H ->]|[[H ->]|[H ->]]].
  - rewrite b64_neg_of by lra.
    apply Qopp_comp, b64_pos_compat; [lra | ring].
  - rewrite b64_zero_of by lra. reflexivity.
  - rewrite b64_pos_of by lra. ring.
Qed.

Lemma b64_pos_sign (x : Q) : (0 < x)%Q -> (0 < b64 x)%Q.
Proof. intros H. rewrite b64_pos_of by exact H. apply b64_pos_pos, H. Qed.

Lemma b64_neg_sign (x : Q) : (x < 0)%Q -> (b64 x < 0)%Q.
Proof.
  intros H. rewrite b64_neg_of by exact H.
  pose proof (@b64_pos_pos (- x) ltac:(lra)). lra.
Qed.

Lemma b64_nonneg (x : Q) : (0 <= x)%Q -> (0 <= b64 x)%Q.
Proof.
  intros H. destruct (b64_cases x) as [[H' E]|[[H' E]|[H' E]]]; rewrite E.
  - apply Qlt_le_weak, b64_pos_pos, H'.
  - apply Qle_refl.
  - lra.
Qed.

Lemma b64_mono (x y : Q) : (x <= y)%Q -> (b64 x <= b64 y)%Q.
Proof.
  intros H.
  destruct (b64_cases x) as [[Hx Ex]|[[Hx Ex]|[Hx Ex]]];
    destruct (b64_cases y) as [[Hy Ey]|[[Hy Ey]|[Hy Ey]]]; try lra.
  - rewrite Ex, Ey. apply b64_pos_mono; assumption.
  - rewrite Ex, Ey. apply Qlt_le_weak, b64_pos_pos, Hy.
  - rewrite Ex, Ey. apply Qle_refl.
  - rewrite Ex, Ey. pose proof (@b64_pos_pos (- x) ltac:(lra)).
    pose proof (b64_pos_pos Hy). lra.
  - rewrite Ex, Ey. pose proof (@b64_pos_pos (- x) ltac:(lra)). lra.
  - rewrite Ex, Ey.
    pose proof (@b64_pos_mono (- y) (- x) ltac:(lra) ltac:(lra)). lra.
Qed.

Lemma b64_error (x : Q) : (Qabs (b64 x - x) <= Qabs x * ulp_half)%Q.
Proof.
  destruct (b64_cases x) as [[H ->]|[[H ->]|[H ->]]].
  - rewrite (Qabs_pos x) by lra. apply b64_pos_error, H.
  - rewrite H. unfold ulp_half. reflexivity || (vm_compute; discriminate).
  - rewrite (Qabs_neg x) by lra.
    pose proof (@b64_pos_error (- x) ltac:(lra)) as E.
    apply Qabs_Qle_condition in E. apply Qabs_Qle_condition. lra.
Qed.

(** For a number that is not negative the error is relative. *)
Lemma b64_within (x : Q) :
  (0 <= x)%Q -> (x * (1 - ulp_half) <= b64 x /\ b64 x <= x * (1 + ulp_half))%Q.
Proof.
  intros H. pose proof (b64_error x) as E.
  rewrite (Qabs_pos x) in E by exact H.
  apply Qabs_Qle_condition in E. lra.
Qed.

(** A 53-bit integer times a power of two is a binary64 number. *)
Lemma b64_pos_dyadic (m e : Z) :
  1 <= m <= 9007199254740992 ->
  (b64_pos (inject_Z m * 2 ^ e) == inject_Z m * 2 ^ e)%Q.
Proof.
  intros Hm. set (x := (inject_Z m * 2 ^ e)%Q).
  assert (Hx : (0 < x)%Q).
  { unfold x. apply Qmult_lt_0_compat; [|apply pow2_pos].
    change 0%Q with (inject_Z 0). rewrite <- Zlt_Qlt. lia. }
  unfold b64_pos. cbv zeta.
  destruct (scaled_range Hx) as [L U].
  set (k := ilog2 x) in *.
  assert (Ey : (x / 2 ^ (k - 52) == inject_Z m * 2 ^ (e - (k - 52)))%Q).
  { unfold x. replace (e - (k - 52)) with (e + - (k - 52)) by lia.
    rewrite pow2_plus, Qpower_opp. field. apply pow2_nonzero. }
  assert (Z : exists z, (x / 2 ^ (k - 52) == inject_Z z)%Q).
  { rewrite Ey in L, U. set (j := e - (k - 52)) in *.
    destruct (Z_le_gt_dec 0 j) as [Hj|Hj].
    - exists (m * 2 ^ j). rewrite Ey, inject_Z_mult.
      apply Qmult_comp; [reflexivity | apply pow2_Z, Hj].
    - exists 4503599627370496.
      assert (P : (2 ^ j <= 2 ^ (-1))%Q) by (apply pow2_le; lia).
      change (2 ^ (-1))%Q with (1 # 2)%Q in P.
      rewrite pow2_52 in L. pose proof (pow2_pos j) as Pj.
      assert (Mb : (inject_Z m <= inject_Z 9007199254740992)%Q)
        by (rewrite <- Zle_Qle; lia).
      assert (M0 : (0 < inject_Z m)%Q)
        by (change 0%Q with (inject_Z 0); rewrite <- Zlt_Qlt; lia).
      assert (E53 : (inject_Z 9007199254740992 == 9007199254740992)%Q) by reflexivity.
      assert (E52 : (inject_Z 4503599627370496 == 4503599627370496)%Q) by reflexivity.
      rewrite E53 in Mb. rewrite E52 in L. rewrite Ey, E52.
      set (t := (2 ^ j)%Q) in *. clearbody t. set (q := inject_Z m) in *. clearbody q.
      apply Qle_antisym; [|exact L]. nra. }
  destruct Z as [z Ez].
  rewrite (round_half_even_eq Ez), round_half_even_int, <- Ez.
  field. apply pow2_nonzero.
Qed.

Lemma b64_pos_idem (x : Q) : (0 < x)%Q -> (b64_pos (b64_pos x) == b64_pos x)%Q.
Proof.
  intros Hx. unfold b64_pos at 2 3. cbv zeta.
  apply b64_pos_dyadic.
  pose proof (significand_range Hx). lia.
Qed.

Lemma b64_idem (x : Q) : (b64 (b64 x) == b64 x)%Q.
Proof.
  destruct (b64_cases x) as [[H E]|[[H E]|[H E]]].
  - rewrite E. rewrite b64_pos_of by (apply b64_pos_pos, H).
    apply b64_pos_idem, H.
  - rewrite E. reflexivity.
  - rewrite E. rewrite b64_opp.
    rewrite b64_pos_of by (apply b64_pos_pos; lra).
    apply Qopp_comp, b64_pos_idem. lra.
Qed.

Lemma b64_dyadic (m e : Z) :
  Z.abs m <= 9007199254740992 ->
  (b64 (inject_Z m * 2 ^ e) == inject_Z m * 2 ^ e)%Q.
Proof.
  intros Hm. destruct (Z.lt_trichotomy m 0) as [N|[->|P]].
  - setoid_replace (inject_Z m * 2 ^ e)%Q with (- (inject_Z (- m) * 2 ^ e))%Q
      by (rewrite inject_Z_opp; ring).
    rewrite b64_opp. apply Qopp_comp.
    assert (Hx : (0 < inject_Z (- m) * 2 ^ e)%Q).
    { apply Qmult_lt_0_compat; [|apply pow2_pos].
      change 0%Q with (inject_Z 0). rewrite <- Zlt_Qlt. lia. }
    rewrite b64_pos_of by exact Hx. apply b64_pos_dyadic. lia.
  - rewrite b64_zero_of by ring. ring.
  - assert (Hx : (0 < inject_Z m * 2 ^ e)%Q).
    { apply Qmult_lt_0_compat; [|apply pow2_pos].
      change 0%Q with (inject_Z 0). rewrite <- Zlt_Qlt. lia. }
    rewrite b64_pos_of by exact Hx. apply b64_pos_dyadic. lia.
Qed.

Lemma b64_int (n : Z) :
  Z.abs n <= 9007199254740992 -> (b64 (inject_Z n) == inject_Z n)%Q.
Proof.
  intros H. pose proof (@b64_dyadic n 0 H) as E.
  change (2 ^ 0)%Q with 1%Q in E. rewrite Qmult_1_r in E. exact E.
Qed.


Lemma near_refl (X : Q) : near 0 X X.
Proof. unfold near. change (inject_Z 0) with 0%Q. split; lra. Qed.

Lemma near_weaken (k k' : Z) (x X : Q) :
  (0 <= X)%Q -> k <= k' -> near k x X -> near k' x X.
Proof.
  unfold near. intros HX H [L U]. rewrite Zle_Qle in H.
  set (a := inject_Z k) in *. set (b := inject_Z k') in *. clearbody a b.
  unfold unit_52 in *. split; nra.
Qed.

Lemma near_nonneg (k : Z) (x X : Q) :
  (0 <= X)%Q -> 0 <= k <= 1000000 -> near k x X -> (0 <= x)%Q.
Proof.
  unfold near. intros HX [K0 K1] [L _].
  rewrite Zle_Qle in K0, K1. change (inject_Z 0) with 0%Q in K0.
  assert (E : (inject_Z 1000000 == 1000000)%Q) by reflexivity. rewrite E in K1.
  set (a := inject_Z k) in *. clearbody a. unfold unit_52 in *. nra.
Qed.

Lemma near_b64 (k : Z) (x X : Q) :
  (0 <= X)%Q -> 0 <= k <= 1000000 -> near k x X -> near (k + 1) (b64 x) X.
Proof.
  intros HX K N. pose proof (near_nonneg HX K N) as Hx.
  destruct (b64_within Hx) as [L U]. destruct K as [K0 K1].
  unfold near in *. destruct N as [NL NU].
  rewrite inject_Z_plus. change (inject_Z 1) with 1%Q.
  rewrite Zle_Qle in K0, K1. change (inject_Z 0) with 0%Q in K0.
  assert (E : (inject_Z 1000000 == 1000000)%Q) by reflexivity. rewrite E in K1.
  set (a := inject_Z k) in *. clearbody a.
  set (y := b64 x) in *. clearbody y.
  unfold unit_52, ulp_half in *. split; nra.
Qed.

Lemma near_add (k : Z) (x X y Y : Q) :
  near k x X -> near k y Y -> near k (x + y) (X + Y).
Proof. unfold near. intros [L1 U1] [L2 U2]. split; lra. Qed.



(* ------------------------------------------------------------------ *)

Lemma cents_times_100 (z : Z) : ((z # 100) * 100 == inject_Z z)%Q.
Proof. unfold Qeq, Qmult, inject_Z; simpl. lia. Qed.

Lemma cents_as_quotient (z : Z) : (z # 100 == inject_Z z / 100)%Q.
Proof. unfold Qeq, Qdiv, Qmult, Qinv, inject_Z; simpl. lia. Qed.

Lemma is_decimal2_cents (z : Z) : is_decimal2 (z # 100) = true.
Proof.
  unfold is_decimal2. apply Qeq_bool_iff.
  rewrite (Qfloor_comp _ _ (cents_times_100 z)), Qfloor_Z, cents_times_100.
  reflexivity.
Qed.

Lemma is_decimal2_inv (x : Q) :
  is_decimal2 x = true -> (x == Qfloor (x * 100) # 100)%Q.
Proof.
  unfold is_decimal2. intros H. apply Qeq_bool_iff in H.
  rewrite cents_as_quotient, H. field.
Qed.

Lemma is_decimal2_compat (x y : Q) : (x == y)%Q -> is_decimal2 x = is_decimal2 y.
Proof.
  intros E. unfold is_decimal2.
  assert (E' : (x * 100 == y * 100)%Q) by (rewrite E; reflexivity).
  rewrite (Qfloor_comp _ _ E').
  destruct (Qeq_bool _ (y * 100)) eqn:H.
  - apply Qeq_bool_iff. apply Qeq_bool_iff in H. rewrite E'. exact H.
  - destruct (Qeq_bool _ (x * 100)) eqn:H'; [|reflexivity].
    apply Qeq_bool_iff in H'. rewrite E' in H'. apply Qeq_bool_iff in H'. congruence.
Qed.

Lemma round2_float (z : Z) : round2 (float_of_decimal z) = float_of_decimal z.
Proof. unfold round2, float_of_decimal. rewrite is_decimal2_cents. reflexivity. Qed.

Lemma round2_idem (x : Q) : round2 (round2 x) = round2 x.
Proof.
  assert (H : round2 x = x \/ exists z, round2 x = float_of_decimal z).
  { unfold round2. destruct (is_decimal2 x); [left; reflexivity|].
    right. eexists. reflexivity. }
  destruct H as [H|[z H]]; rewrite H; [exact H | apply round2_float].
Qed.

Lemma round2_compat (x y : Q) : (x == y)%Q -> (round2 x == round2 y)%Q.
Proof.
  intros E. unfold round2. rewrite (is_decimal2_compat E).
  destruct (is_decimal2 y); [exact E|].
  rewrite (round_half_even_eq (x := b64 x * 100) (y := b64 y * 100));
    [reflexivity|].
  rewrite (b64_compat E). reflexivity.
Qed.

(** On a binary64 number the serializer rounds the number itself. *)
Lemma round2_binary64 (x : Q) :
  (b64 x == x)%Q -> (round2 x == round_half_even (x * 100) # 100)%Q.
Proof.
  intros C. unfold round2. destruct (is_decimal2 x) eqn:E.
  - apply is_decimal2_inv in E.
    rewrite (round_half_even_eq (x := x * 100) (y := inject_Z (Qfloor (x * 100)))).
    + rewrite round_half_even_int. exact E.
    + rewrite E at 1. apply cents_times_100.
  - rewrite (round_half_even_eq (x := b64 x * 100) (y := x * 100));
      [reflexivity|].
    rewrite C. reflexivity.
Qed.

Lemma cents_le (a b : Z) : (a # 100 <= b # 100)%Q <-> a <= b.
Proof. unfold Qle; simpl. lia. Qed.

Lemma round2_binary64_mono (x y : Q) :
  (b64 x == x)%Q -> (b64 y == y)%Q -> (x <= y)%Q -> (round2 x <= round2 y)%Q.
Proof.
  intros Cx Cy H. rewrite (round2_binary64 Cx), (round2_binary64 Cy).
  apply cents_le, round_half_even_mono. lra.
Qed.

Lemma round2_binary64_error (x : Q) :
  (b64 x == x)%Q -> (Qabs (round2 x - x) <= 1 # 200)%Q.
Proof.
  intros C. rewrite (round2_binary64 C).
  pose proof (round_half_even_error (x * 100)) as H.
  apply Qabs_Qle_condition in H. apply Qabs_Qle_condition.
  rewrite cents_as_quotient. 
  set (r := inject_Z (round_half_even (x * 100))) in *. clearbody r.
  split.
  - apply Qplus_le_l with (z := x). ring_simplify.
    apply Qle_shift_div_l; [reflexivity|]. lra.
  - apply Qplus_le_l with (z := x). ring_simplify.
    apply Qle_shift_div_r; [reflexivity|]. lra.
Qed.

Lemma round_half_even_near (y : Q) (c : Z) :
  (Qabs (y - inject_Z c) < 1 # 2)%Q -> round_half_even y = c.
Proof.
  intros H. apply Qabs_Qlt_condition in H.
  pose proof (round_half_even_error y) as E. apply Qabs_Qle_condition in E.
  assert (L : (inject_Z (round_half_even y) < inject_Z (c + 1))%Q)
    by (rewrite inject_Z_plus; change (inject_Z 1) with 1%Q; lra).
  assert (U : (inject_Z (c - 1) < inject_Z (round_half_even y))%Q).
  { unfold Z.sub. rewrite inject_Z_plus, inject_Z_opp.
    change (inject_Z 1) with 1%Q. lra. }
  rewrite <- Zlt_Qlt in L, U. lia.
Qed.

(** A binary64 number within half a cent of a two-place decimal is
    reported as that decimal. *)
Lemma round2_binary64_near (x : Q) (c : Z) :
  (b64 x == x)%Q -> (Qabs (x - float_of_decimal c) < 1 # 200)%Q ->
  (round2 x == float_of_decimal c)%Q.
Proof.
  intros C H. rewrite (round2_binary64 C). unfold float_of_decimal in *.
  rewrite (@round_half_even_near (x * 100) c); [reflexivity|].
  apply Qabs_Qlt_condition in H. apply Qabs_Qlt_condition.
  rewrite cents_as_quotient in H.
  set (q := inject_Z c) in *. clearbody q.
  assert (E : (q == q / 100 * 100)%Q) by (field).
  split; lra.
Qed.

(* ------------------------------------------------------------------ *)

Lemma near_compat (k : Z) (x x' X X' : Q) :
  (x == x')%Q -> (X == X')%Q -> near k x X -> near k x' X'.
Proof. unfold near. intros E1 E2 [L U]. rewrite <- E1, <- E2. split; assumption. Qed.

Lemma Qsum_nonneg (l : list Q) : Forall (fun t => 0 <= t)%Q l -> (0 <= Qsum l)%Q.
Proof. induction 1; simpl; lra. Qed.

Lemma fold_float_add_binary64 (l : list Q) (acc : Q) :
  (b64 acc == acc)%Q -> (b64 (fold_left float_add l acc) == fold_left float_add l acc)%Q.
Proof.
  revert acc. induction l as [|t l IH]; intros acc C; simpl; [exact C|].
  apply IH. unfold float_add. apply b64_idem.
Qed.

Lemma sum_float_binary64 (l : list Q) : (b64 (sum_float l) == sum_float l)%Q.
Proof. apply fold_float_add_binary64. reflexivity. Qed.

Lemma fold_float_add_near (l : list Q) :
  forall (acc A : Q) (k : Z),
    (0 <= A)%Q -> (b64 acc == acc)%Q ->
    1 <= k -> k + Z.of_nat (List.length l) <= 1000000 ->
    near k acc A ->
    Forall (fun t => 0 <= t)%Q l ->
    near (k + Z.of_nat (List.length l)) (fold_left float_add l acc) (A + Qsum l).
Proof.
  induction l as [|t l IH]; intros acc A k HA C K1 K2 N F.
  - simpl. rewrite Z.add_0_r. apply (near_compat (x := acc) (X := A));
      [reflexivity | ring | exact N].
  - inversion F as [|? ? Ht F']; subst.
    change (List.length (t :: l)) with (S (List.length l)) in *.
    rewrite Nat2Z.inj_succ in *.
    replace (k + Z.succ (Z.of_nat (List.length l)))
      with ((k + 1) + Z.of_nat (List.length l)) by lia.
    cbn [fold_left Qsum fold_right].
    apply (near_compat (x := fold_left float_add l (float_add acc t))
                       (X := ((A + t) + Qsum l)%Q)); [reflexivity | unfold Qsum; ring |].
    apply IH.
    + lra.
    + unfold float_add. apply b64_idem.
    + lia.
    + lia.
    + unfold float_add. apply near_b64; [lra | lia |].
      apply near_add.
      * apply (near_compat (x := acc) (X := A));
          [symmetry; exact C | reflexivity | exact N].
      * apply near_weaken with (k := 0 + 1); [exact Ht | lia|].
        apply near_b64; [exact Ht | lia | apply near_refl].
    + exact F'.
Qed.

(** Python's [sum] over floats that are not negative: the relative error
    grows by one unit for each addend. *)
Lemma sum_float_near (l : list Q) :
  Forall (fun t => 0 <= t)%Q l ->
  Z.of_nat (List.length l) < 1000000 ->
  near (1 + Z.of_nat (List.length l)) (sum_float l) (Qsum l).
Proof.
  intros F L. unfold sum_float.
  apply (near_compat (x := fold_left float_add l 0%Q) (X := (0 + Qsum l)%Q));
    [reflexivity | ring |].
  apply fold_float_add_near; try lia; try lra.
  - reflexivity.
  - unfold near. split; lra.
  - exact F.
Qed.

Lemma fold_float_add_ge (l : list Q) :
  forall acc : Q,
    (0 <= acc)%Q -> (b64 acc == acc)%Q ->
    Forall (fun t => 0 <= t)%Q l ->
    (acc <= fold_left float_add l acc)%Q
    /\ Forall (fun t => b64 t <= fold_left float_add l acc)%Q l.
Proof.
  induction l as [|t l IH]; intros acc H0 C F; simpl.
  - split; [lra | constructor].
  - inversion F as [|? ? Ht F']; subst.
    pose proof (b64_nonneg Ht) as Bt.
    assert (S1 : (acc <= float_add acc t)%Q).
    { unfold float_add. apply Qle_trans with (b64 (b64 acc)).
      - rewrite b64_idem, C. apply Qle_refl.
      - apply b64_mono. lra. }
    assert (S2 : (b64 t <= float_add acc t)%Q).
    { unfold float_add. apply Qle_trans with (b64 (b64 t)).
      - rewrite b64_idem. apply Qle_refl.
      - apply b64_mono. pose proof (b64_nonneg H0). lra. }
    destruct (IH (float_add acc t)) as [G1 G2];
      [lra | unfold float_add; apply b64_idem | exact F' |].
    split; [lra|]. constructor; [lra | exact G2].
Qed.



Lemma Zsum_nonneg (l : list Z) : Forall (fun z => 0 <= z) l -> 0 <= Zsum l.
Proof. induction 1; simpl; lia. Qed.


Lemma sum_amount_nonneg (l : list Expense) :
  Forall (fun x => 0 <= amount x) l -> 0 <= sum_amount l.
Proof. induction 1; simpl; lia. Qed.

Lemma group_totals_nonneg (l : list Expense) :
  Forall (fun x => 0 <= amount x) l ->
  Forall (fun z => 0 <= z) (map CategoryRow.total_amount (group_by_category l)).
Proof.
  intros H. apply Forall_map, Forall_forall. intros r Hr.
  apply group_by_category_in in Hr. destruct Hr as (c & _ & ->). cbn.
  apply sum_amount_nonneg. apply Forall_forall. intros x Hx.
  apply filter_In in Hx. rewrite Forall_forall in H. apply H, Hx.
Qed.

(* ===================================================================== *)
(** ** Float sums of two-place decimals *)
(* ===================================================================== *)

Lemma fold_float_add_compat (l l' : list Q) :
  Forall2 Qeq l l' ->
  forall a a', (a == a')%Q -> (fold_left float_add l a == fold_left float_add l' a')%Q.
Proof.
  induction 1 as [|x y l l' E F IH]; intros a a' Ea; simpl; [exact Ea|].
  apply IH. unfold float_add. rewrite Ea, E. reflexivity.
Qed.

Lemma sum_float_compat {A : Type} (f g : A -> Q) (l : list A) :
  (forall a, f a == g a)%Q -> (sum_float (map f l) == sum_float (map g l))%Q.
Proof.
  intros H. apply fold_float_add_compat; [|reflexivity].
  induction l as [|a l IH]; simpl; constructor; [apply H | exact IH].
Qed.

Lemma float_of_decimal_nonneg (z : Z) : 0 <= z -> (0 <= float_of_decimal z)%Q.
Proof. intros H. unfold float_of_decimal, Qle; simpl. lia. Qed.

(** The distance that a relative error allows below a bound. *)
Lemma near_abs (k : Z) (x X B : Q) :
  (0 <= X)%Q -> (X <= B)%Q -> 0 <= k -> near k x X ->
  (Qabs (x - X) <= B * (inject_Z k * unit_52))%Q.
Proof.
  unfold near. intros H0 HB K [L U]. rewrite Zle_Qle in K.
  change (inject_Z 0) with 0%Q in K.
  set (a := inject_Z k) in *. clearbody a. unfold unit_52 in *.
  apply Qabs_Qle_condition. split; nra.
Qed.

(** Python's [sum] over the floats of decimals that are not negative. *)
Lemma sum_float_decimals (zs : list Z) :
  Forall (fun z => 0 <= z) zs ->
  (List.length zs <= 1000)%nat ->
  near (1 + Z.of_nat (List.length zs))
       (sum_float (map float_of_decimal zs)) (float_of_decimal (Zsum zs)).
Proof.
  intros F L.
  apply (near_compat (x := sum_float (map float_of_decimal zs))
                     (X := Qsum (map float_of_decimal zs)));
    [reflexivity | apply Qsum_float |].
  rewrite <- (length_map float_of_decimal zs).
  apply sum_float_near.
  - apply Forall_map. eapply Forall_impl; [|exact F].
    intros z Hz. apply float_of_decimal_nonneg, Hz.
  - rewrite length_map. lia.
Qed.

(** Rounded to two places, the float sum of decimals that are not negative
    is their sum, as long as the sum times the number of addends and one
    stays below 2^51 cents. *)
Lemma reported_sum_float (zs : list Z) :
  Forall (fun z => 0 <= z) zs ->
  (List.length zs <= 1000)%nat ->
  Zsum zs * (Z.of_nat (List.length zs) + 1) < 2251799813685248 ->
  (round2 (sum_float (map float_of_decimal zs)) == float_of_decimal (Zsum zs))%Q.
Proof.
  intros F L M.
  apply round2_binary64_near; [apply sum_float_binary64|].
  pose proof (sum_float_decimals F L) as N.
  pose proof (Zsum_nonneg F) as S0.
  pose proof (float_of_decimal_nonneg S0) as Q0.
  assert (K : 0 <= 1 + Z.of_nat (List.length zs)) by lia.
  eapply Qle_lt_trans; [apply (near_abs Q0 (Qle_refl _) K N)|].
  unfold float_of_decimal, unit_52, Qlt, Qmult, inject_Z. cbn [Qnum Qden].
  rewrite !Pos2Z.inj_mul. lia.
Qed.


(* ===================================================================== *)
(** ** What the service functions compute *)
(* ===================================================================== *)

Lemma get_spending_by_category_run session u s e tr :
  ExpenseService.get_spending_by_category session u s e tr
  = (inr (map ExpenseService.category_spending_of_row
              (category_rows session tr u s e)),
     tr ++ [category_statement u s e]).
Proof.
  unfold ExpenseService.get_spending_by_category, bind, execute, eval, ret.
  cbn [columns where_if eval_select].
  rewrite selected_window. reflexivity.
Qed.

Lemma get_spending_summary_run session u s e tr :
  ExpenseService.get_spending_summary session u s e tr
  = (inr (SpendingSummaryModel.make
            (float_or_zero (sql_sum (records session u s e)))
            (int_or_zero (sql_count (records session u s e)))
            (map ExpenseService.category_spending_of_row
                 (category_rows session (tr ++ [totals_statement u s e]) u s e))
            s e),
     tr ++ [totals_statement u s e] ++ [category_statement u s e]).
Proof.
  unfold ExpenseService.get_spending_summary, bind.
  unfold execute at 1. unfold eval. cbn [columns where_if eval_select].
  rewrite selected_window. cbn [hd_error TotalsRow.total TotalsRow.expense_count].
  rewrite get_spending_by_category_run. unfold ret.
  rewrite <- app_assoc. reflexivity.
Qed.

Lemma spending_total_amounts (rows : list CategoryRow.t) :
  map CategorySpendingModel.total_amount
      (map ExpenseService.category_spending_of_row rows)
  = map float_of_decimal (map CategoryRow.total_amount rows).
Proof. rewrite !map_map. reflexivity. Qed.

Lemma spending_expense_counts (rows : list CategoryRow.t) :
  map CategorySpendingModel.expense_count
      (map ExpenseService.category_spending_of_row rows)
  = map CategoryRow.expense_count rows.
Proof. rewrite !map_map. reflexivity. Qed.

Lemma category_rows_perm session tr u s e :
  Permutation (category_rows session tr u s e)
              (group_by_category (records session u s e)).
Proof. apply order_by_total_perm. Qed.

Lemma category_rows_sorted session tr u s e :
  StronglySorted total_desc (category_rows session tr u s e).
Proof. apply order_by_total_sorted. Qed.

Lemma category_rows_totals session tr u s e :
  Zsum (map CategoryRow.total_amount (category_rows session tr u s e))
  = sum_amount (records session u s e).
Proof.
  rewrite (Zsum_perm (Permutation_map _ (category_rows_perm session tr u s e))).
  apply group_by_category_totals.
Qed.

Lemma category_rows_counts session tr u s e :
  Zsum (map CategoryRow.expense_count (category_rows session tr u s e))
  = sql_count (records session u s e).
Proof.
  rewrite (Zsum_perm (Permutation_map _ (category_rows_perm session tr u s e))).
  apply group_by_category_counts.
Qed.

Lemma category_rows_empty session tr u s e :
  records session u s e = [] -> category_rows session tr u s e = [].
Proof.
  intros E. apply Permutation_nil, Permutation_sym.
  rewrite <- group_by_category_nil, <- E. apply category_rows_perm.
Qed.

Lemma spending_descending (rows : list CategoryRow.t) :
  StronglySorted total_desc rows ->
  StronglySorted amount_desc (map ExpenseService.category_spending_of_row rows).
Proof.
  apply StronglySorted_map. intros a b H.
  unfold amount_desc; cbn. apply float_of_decimal_le, H.
Qed.

Lemma spending_total (rows : list CategoryRow.t) :
  (py_sum (map CategorySpendingModel.total_amount
               (map ExpenseService.category_spending_of_row rows))
   == float_of_decimal (Zsum (map CategoryRow.total_amount rows)))%Q.
Proof. rewrite py_sum_spec, spending_total_amounts. apply Qsum_float. Qed.

(* ===================================================================== *)
(** ** Category spending and the summary *)
(* ===================================================================== *)

Lemma spending_categories (rows : list CategoryRow.t) :
  map CategorySpendingModel.category
      (map ExpenseService.category_spending_of_row rows)
  = map CategoryRow.category rows.
Proof. rewrite !map_map. reflexivity. Qed.

(** What a row of the category statement holds. *)
Lemma category_rows_in session tr u s e (r : CategoryRow.t) :
  In r (category_rows session tr u s e) ->
  (exists x, In x (records session u s e) /\ category x = CategoryRow.category r)
  /\ CategoryRow.total_amount r
     = category_total (records session u s e) (CategoryRow.category r)
  /\ CategoryRow.expense_count r
     = Z.of_nat (List.length (filter (in_category (CategoryRow.category r))
                                     (records session u s e))).
Proof.
  intros H. apply (Permutation_in _ (category_rows_perm session tr u s e)) in H.
  apply group_by_category_in in H. destruct H as (c & Hc & ->). cbn.
  split; [apply occurs_in_category, Hc|]. split; reflexivity.
Qed.

Lemma category_rows_categories session tr u s e (c : ExpenseCategory) :
  In c (map CategoryRow.category (category_rows session tr u s e))
  <-> exists x, In x (records session u s e) /\ category x = c.
Proof.
  rewrite <- occurs_in_category. split.
  - intros H.
    apply (Permutation_in _ (Permutation_map _ (category_rows_perm session tr u s e)))
      in H.
    rewrite group_by_category_categories in H. apply filter_In in H. apply H.
  - intros H.
    apply (Permutation_in _ (Permutation_map _
             (Permutation_sym (category_rows_perm session tr u s e)))).
    rewrite group_by_category_categories. apply filter_In.
    split; [apply all_categories_complete | exact H].
Qed.

Lemma category_rows_NoDup session tr u s e :
  NoDup (map CategoryRow.category (category_rows session tr u s e)).
Proof.
  eapply Permutation_NoDup; [|apply group_by_category_NoDup].
  apply Permutation_map, Permutation_sym, category_rows_perm.
Qed.

(** C7. Group-by-category returns one entry for each category that has an
    expense of the user in the window and for no other, each with the sum of
    the amounts of those expenses and their number, ordered by total_amount,
    highest first; when the user has no expense in the window it returns the
    empty list, and the summary then reports a total of 0.0, a count of 0 and
    an empty breakdown. *)
Theorem category_spending_descending session u s e tr :
  exists out,
    fst (ExpenseService.get_spending_by_category session u s e tr) = inr out
    /\ StronglySorted amount_desc out
    /\ NoDup (map CategorySpendingModel.category out)
    /\ (forall c, In c (map CategorySpendingModel.category out)
                  <-> exists x, In x (records session u s e) /\ category x = c)
    /\ Forall (fun m =>
                 CategorySpendingModel.total_amount m
                 = float_of_decimal
                     (category_total (records session u s e)
                                     (CategorySpendingModel.category m))
                 /\ CategorySpendingModel.expense_count m
                    = Z.of_nat
                        (List.length
                           (filter (in_category (CategorySpendingModel.category m))
                                   (records session u s e))))
              out
    /\ (records session u s e = [] ->
        out = []
        /\ fst (ExpenseService.get_spending_summary session u s e tr)
           = inr (SpendingSummaryModel.make 0%Q 0 [] s e)).
Proof.
  rewrite get_spending_by_category_run, get_spending_summary_run; cbn [fst].
  eexists. split; [reflexivity|].
  split; [apply spending_descending, category_rows_sorted|].
  split; [rewrite spending_categories; apply category_rows_NoDup|].
  split; [intros c; rewrite spending_categories; apply category_rows_categories|].
  split.
  - apply Forall_map, Forall_forall. intros r Hr.
    apply category_rows_in in Hr. destruct Hr as (_ & Ht & Hc). cbn.
    rewrite Ht, Hc. split; reflexivity.
  - intros E. rewrite !(category_rows_empty _ _ _ _ _ E), E.
    split; reflexivity.
Qed.

Lemma category_spending_descending_witness :
  (exists out,
     fst (ExpenseService.get_spending_by_category
            (stable_session distinct_totals_table) 1%N None None []) = inr out
     /\ map CategorySpendingModel.category out = [TRANSPORT; FOOD]
     /\ map CategorySpendingModel.total_amount out
        = [float_of_decimal 1500; float_of_decimal 1200]
     /\ StronglySorted amount_desc out)
  /\ fst (ExpenseService.get_spending_by_category
            (stable_session distinct_totals_table) 2%N None None []) = inr []
  /\ fst (ExpenseService.get_spending_summary
            (stable_session distinct_totals_table) 2%N None None [])
     = inr (SpendingSummaryModel.make 0%Q 0 [] None None).
Proof.
  split.
  - destruct (category_spending_descending
                (stable_session distinct_totals_table) 1%N None None [])
      as (out & H & S & _).
    exists out. split; [exact H|].
    vm_compute in H. injection H as <-.
    split; [reflexivity|]. split; [reflexivity | exact S].
  - destruct (category_spending_descending
                (stable_session distinct_totals_table) 2%N None None [])
      as (out & H & _ & _ & _ & _ & E).
    destruct E as [-> E]; [reflexivity|].
    split; [exact H | exact E].
Defined.

(** C3. Over the same window the per-category totals of group-by-category
    add up to the total_spending of the summary, and the per-category counts
    to its expense_count; the same holds for the breakdown carried by the
    summary, for the values after serialization, and, in cents, for the rows
    of the two statements. *)
Theorem category_totals_add_up session u s e tr tr' :
  exists cats summary,
    fst (ExpenseService.get_spending_by_category session u s e tr) = inr cats
    /\ fst (ExpenseService.get_spending_summary session u s e tr') = inr summary
    /\ (py_sum (map CategorySpendingModel.total_amount cats)
        == SpendingSummaryModel.total_spending summary)%Q
    /\ py_sum_int (map CategorySpendingModel.expense_count cats)
       = SpendingSummaryModel.expense_count summary
    /\ (py_sum (map CategorySpendingModel.total_amount
                    (SpendingSummaryModel.category_breakdown summary))
        == SpendingSummaryModel.total_spending summary)%Q
    /\ py_sum_int (map CategorySpendingModel.expense_count
                       (SpendingSummaryModel.category_breakdown summary))
       = SpendingSummaryModel.expense_count summary
    /\ (py_sum (map CategorySpendingModel.total_amount
                    (map CategorySpendingModel.serialize cats))
        == round2 (SpendingSummaryModel.total_spending summary))%Q
    /\ (SpendingSummaryModel.total_spending summary
        == float_of_decimal (sum_amount (records session u s e)))%Q
    /\ SpendingSummaryModel.expense_count summary
       = Z.of_nat (List.length (records session u s e))
    /\ Zsum (map CategoryRow.total_amount (category_rows session tr u s e))
       = sum_amount (records session u s e)
    /\ Zsum (map CategoryRow.expense_count (category_rows session tr u s e))
       = Z.of_nat (List.length (records session u s e)).
Proof.
  rewrite get_spending_by_category_run, get_spending_summary_run; cbn [fst].
  do 2 eexists. split; [reflexivity|]. split; [reflexivity|].
  cbn [SpendingSummaryModel.category_breakdown SpendingSummaryModel.total_spending
       SpendingSummaryModel.expense_count].
  assert (T : forall t,
             (py_sum (map CategorySpendingModel.total_amount
                        (map ExpenseService.category_spending_of_row
                             (category_rows session t u s e)))
              == float_or_zero (sql_sum (records session u s e)))%Q).
  { intros t. rewrite spending_total, category_rows_totals, float_or_zero_sum.
    reflexivity. }
  assert (C : forall t,
             py_sum_int (map CategorySpendingModel.expense_count
                           (map ExpenseService.category_spending_of_row
                                (category_rows session t u s e)))
             = int_or_zero (sql_count (records session u s e))).
  { intros t. rewrite py_sum_int_spec, spending_expense_counts, int_or_zero_id.
    apply category_rows_counts. }
  split; [apply T|]. split; [apply C|]. split; [apply T|]. split; [apply C|].
  split; [|split; [|split; [|split]]].
  - rewrite (round2_compat (float_or_zero_sum _)), round2_float.
    rewrite <- float_or_zero_sum, <- (T tr). apply Qeq_refl_eq. f_equal.
    rewrite !map_map. apply map_ext. intros r. cbn. apply round2_float.
  - apply float_or_zero_sum.
  - apply int_or_zero_id.
  - apply category_rows_totals.
  - apply category_rows_counts.
Qed.

(* ===================================================================== *)
(** ** Repeating the category query *)
(* ===================================================================== *)

Lemma twice_get_spending_by_category session u s e tr :
  twice (ExpenseService.get_spending_by_category session u s e) tr
  = (inr (map ExpenseService.category_spending_of_row
              (category_rows session tr u s e),
          map ExpenseService.category_spending_of_row
              (category_rows session (tr ++ [category_statement u s e]) u s e)),
     (tr ++ [category_statement u s e]) ++ [category_statement u s e]).
Proof.
  unfold twice, bind. rewrite !get_spending_by_category_run. reflexivity.
Qed.

(** C8, as the code has it.  Two invocations of group-by-category, one after
    the other on the same table, return the same categories with the same
    totals and counts, each time ordered by total_amount descending; the two
    sequences are identical, also after serialization, whenever no two
    categories have the same total.  The query names no second ordering key,
    so the order between tied categories is the engine's at each
    execution. *)
Theorem category_spending_repeatable session u s e tr :
  exists out1 out2,
    fst (twice (ExpenseService.get_spending_by_category session u s e) tr)
    = inr (out1, out2)
    /\ Permutation out1 out2
    /\ StronglySorted amount_desc out1
    /\ StronglySorted amount_desc out2
    /\ Permutation (map CategorySpendingModel.serialize out1)
                   (map CategorySpendingModel.serialize out2)
    /\ (NoDup (map CategoryRow.total_amount
                   (group_by_category (records session u s e))) ->
        out1 = out2
        /\ map CategorySpendingModel.serialize out1
           = map CategorySpendingModel.serialize out2).
Proof.
  rewrite twice_get_spending_by_category; cbn [fst].
  set (tr2 := tr ++ [category_statement u s e]).
  assert (P : Permutation (category_rows session tr u s e)
                          (category_rows session tr2 u s e)).
  { eapply perm_trans; [apply category_rows_perm|].
    apply Permutation_sym, category_rows_perm. }
  do 2 eexists. split; [reflexivity|].
  split; [apply Permutation_map, P|].
  split; [apply spending_descending, category_rows_sorted|].
  split; [apply spending_descending, category_rows_sorted|].
  split; [apply Permutation_map, Permutation_map, P|].
  intros N.
  assert (E : category_rows session tr u s e = category_rows session tr2 u s e).
  { apply (descending_arrangement_unique CategoryRow.total_amount).
    - exact P.
    - apply category_rows_sorted.
    - apply category_rows_sorted.
    - eapply Permutation_NoDup; [|exact N].
      apply Permutation_map, Permutation_sym, category_rows_perm. }
  rewrite E. split; reflexivity.
Qed.

Lemma category_spending_repeatable_witness :
  exists out,
    fst (twice (ExpenseService.get_spending_by_category
                  (alternating_session distinct_totals_table) 1%N None None) [])
    = inr (out, out).
Proof.
  destruct (category_spending_repeatable
              (alternating_session distinct_totals_table) 1%N None None [])
    as (out1 & out2 & H1 & _ & _ & _ & _ & H).
  destruct H as [H _].
  - vm_compute.
    constructor; [simpl; intuition lia|].
    constructor; [simpl; tauto | constructor].
  - exists out1. rewrite H1, H. reflexivity.
Defined.

(** C8, as stated, fails: on the same three records the second invocation
    returns the tied categories Food and Transport in the opposite order. *)
Lemma category_spending_order_of_ties :
  ~ (forall session u s e tr out1 out2,
       fst (twice (ExpenseService.get_spending_by_category session u s e) tr)
       = inr (out1, out2) ->
       out1 = out2).
Proof.
  intros H.
  pose proof (H (alternating_session sample_table) 1%N None None []) as H'.
  vm_compute in H'.
  specialize (H' _ _ eq_refl). discriminate H'.
Qed.

(* ===================================================================== *)
(** ** Category chart *)
(* ===================================================================== *)

Lemma get_category_chart_data_run session u s e tr :
  ExpenseService.get_category_chart_data session u s e tr
  = (let cats := map ExpenseService.category_spending_of_row
                     (category_rows session tr u s e) in
     inr (map (chart_data_of (sum_float (map CategorySpendingModel.total_amount cats)))
              cats),
     tr ++ [category_statement u s e]).
Proof.
  unfold ExpenseService.get_category_chart_data, bind.
  rewrite get_spending_by_category_run. reflexivity.
Qed.






Lemma b64_hundred : (b64 100 == 100)%Q.
Proof. apply (b64_int 100). lia. Qed.

Lemma b64_one : (b64 1 == 1)%Q.
Proof. apply (b64_int 1). lia. Qed.










(* ===================================================================== *)
(** ** Time buckets *)
(* ===================================================================== *)

Lemma bucket_key_kind (g : Granularity) (d : datetime) : key_kind g (bucket_key g d).
Proof. destruct g; exact I. Qed.

Lemma key_geb_total (a b : BucketKey) : key_geb a b = true \/ key_geb b a = true.
Proof.
  unfold key_geb, key_ltb. rewrite !negb_true_iff.
  destruct (lex3_ltb (key_tuple a) (key_tuple b)) eqn:E; [|left; reflexivity].
  right. apply not_true_is_false. intros E'.
  apply lex3_ltb_spec in E, E'.
  destruct (key_tuple a) as [[a1 a2] a3], (key_tuple b) as [[b1 b2] b3]. lia.
Qed.

Lemma key_geb_trans (a b c : BucketKey) :
  key_geb a b = true -> key_geb b c = true -> key_geb a c = true.
Proof.
  unfold key_geb, key_ltb. rewrite !negb_true_iff. intros H1 H2.
  apply not_true_is_false. intros E.
  apply not_true_iff_false in H1, H2. rewrite lex3_ltb_spec in *.
  destruct (key_tuple a) as [[a1 a2] a3], (key_tuple b) as [[b1 b2] b3],
           (key_tuple c) as [[c1 c2] c3]. lia.
Qed.

Lemma key_geb_strict (g : Granularity) (a b : BucketKey) :
  key_kind g a -> key_kind g b -> key_geb a b = true -> a <> b -> key_lt b a.
Proof.
  unfold key_lt, key_geb, key_ltb. rewrite negb_true_iff. intros Ka Kb H N.
  apply not_true_iff_false in H. rewrite lex3_ltb_spec in *.
  destruct g, a as [y m|y|y m d], b as [y' m'|y'|y' m' d']; simpl in Ka, Kb;
    try contradiction; simpl in *.
  - destruct (Z.eq_dec y y'), (Z.eq_dec m m'); subst; try congruence; lia.
  - destruct (Z.eq_dec y y'); subst; try congruence; lia.
  - destruct (Z.eq_dec y y'), (Z.eq_dec m m'), (Z.eq_dec d d'); subst;
      try congruence; lia.
Qed.

Lemma key_lt_trans (a b c : BucketKey) : key_lt a b -> key_lt b c -> key_lt a c.
Proof.
  unfold key_lt, key_ltb. rewrite !lex3_ltb_spec.
  destruct (key_tuple a) as [[a1 a2] a3], (key_tuple b) as [[b1 b2] b3],
           (key_tuple c) as [[c1 c2] c3]. lia.
Qed.

Lemma key_lt_irrefl (a : BucketKey) : ~ key_lt a a.
Proof.
  unfold key_lt, key_ltb. rewrite lex3_ltb_spec.
  destruct (key_tuple a) as [[a1 a2] a3]. lia.
Qed.

Lemma bucket_keys_desc_perm (g : Granularity) (l : list Expense) :
  Permutation (bucket_keys_desc g l)
              (nodup BucketKey_eq_dec (map (fun e => bucket_key g (expense_date e)) l)).
Proof. apply isort_perm. Qed.

Lemma bucket_keys_desc_in (g : Granularity) (l : list Expense) (k : BucketKey) :
  In k (bucket_keys_desc g l) <->
  exists e, In e l /\ bucket_key g (expense_date e) = k.
Proof.
  split.
  - intros H. apply (Permutation_in _ (bucket_keys_desc_perm g l)) in H.
    apply nodup_In, in_map_iff in H. destruct H as (e & E & He).
    exists e. split; assumption.
  - intros (e & He & E).
    apply (Permutation_in _ (Permutation_sym (bucket_keys_desc_perm g l))).
    apply nodup_In, in_map_iff. exists e. split; assumption.
Qed.

Lemma bucket_keys_desc_sorted (g : Granularity) (l : list Expense) :
  StronglySorted (fun a b => key_lt b a) (bucket_keys_desc g l).
Proof.
  apply StronglySorted_strict
    with (R := fun a b => key_geb a b = true) (P := key_kind g).
  - intros a b. apply key_geb_strict.
  - apply Forall_forall. intros k Hk. apply bucket_keys_desc_in in Hk.
    destruct Hk as (e & _ & <-). apply bucket_key_kind.
  - eapply Permutation_NoDup; [apply Permutation_sym, bucket_keys_desc_perm|].
    apply NoDup_nodup.
  - apply (isort_sorted key_geb key_geb_total key_geb_trans).
Qed.

(* ===================================================================== *)
(** ** The time series *)
(* ===================================================================== *)

Lemma selected_user (session : AsyncSession) (u : UUID) :
  selected session [UserIs u] = expenses_of session u.
Proof.
  unfold selected, expenses_of. apply filter_ext. intros x.
  simpl. apply andb_true_r.
Qed.

Lemma period_type_cases (period_type : string) :
  In period_type Routes.period_types ->
  period_type = "day" \/ period_type = "week"
  \/ period_type = "month" \/ period_type = "year".
Proof. simpl. intuition auto. Qed.

Lemma chart_point_of_bucket (period_type : string) (l : list Expense) (k : BucketKey) :
  In period_type Routes.period_types ->
  key_kind (ExpenseService.granularity period_type) k ->
  ExpenseService.chart_point period_type
    (bucket_row (ExpenseService.granularity period_type) l k)
  = inr (series_point (ExpenseService.granularity period_type) l k).
Proof.
  intros H K. apply period_type_cases in H.
  destruct H as [-> | [-> | [-> | ->]]];
    change (ExpenseService.granularity "day") with ByDate in *;
    change (ExpenseService.granularity "week") with ByDate in *;
    change (ExpenseService.granularity "month") with ByMonth in *;
    change (ExpenseService.granularity "year") with ByYear in *;
    destruct k; simpl in K; try contradiction; reflexivity.
Qed.

Lemma get_expenses_for_visualization_trace session u period_type limit tr :
  snd (ExpenseService.get_expenses_for_visualization session u period_type limit tr)
  = tr ++ [series_statement u period_type limit].
Proof.
  unfold ExpenseService.get_expenses_for_visualization, bind, execute, lift.
  destruct (eval session tr _); reflexivity.
Qed.

Lemma get_expenses_for_visualization_run session u period_type limit tr :
  In period_type Routes.period_types ->
  0 <= limit ->
  ExpenseService.get_expenses_for_visualization session u period_type limit tr
  = (inr (map (series_point (ExpenseService.granularity period_type)
                            (expenses_of session u))
              (kept_keys (ExpenseService.granularity period_type)
                         (expenses_of session u) limit)),
     tr ++ [series_statement u period_type limit]).
Proof.
  intros H L.
  unfold ExpenseService.get_expenses_for_visualization, bind, execute, eval, lift.
  cbn [columns conditions eval_select].
  rewrite selected_user. unfold sql_limit.
  destruct (Z.ltb_spec limit 0) as [?|_]; [lia|].
  unfold group_by_bucket, kept_keys, series_statement.
  rewrite firstn_map, <- map_rev.
  rewrite (for_each_map _
             (fun row => series_point (ExpenseService.granularity period_type)
                                      (expenses_of session u) (SeriesRow.key row))).
  - rewrite map_map. reflexivity.
  - intros row Hrow. apply in_map_iff in Hrow. destruct Hrow as (k & <- & Hk).
    apply chart_point_of_bucket; [exact H|].
    apply in_rev, In_firstn, bucket_keys_desc_in in Hk.
    destruct Hk as (e & _ & <-). apply bucket_key_kind.
Qed.

Lemma kept_keys_sorted g l limit : StronglySorted key_lt (kept_keys g l limit).
Proof.
  unfold kept_keys.
  apply (StronglySorted_rev (R := fun a b => key_lt b a)).
  apply StronglySorted_firstn, bucket_keys_desc_sorted.
Qed.

Lemma kept_keys_length g l limit :
  0 <= limit -> Z.of_nat (List.length (kept_keys g l limit)) <= limit.
Proof.
  intros L. unfold kept_keys. rewrite length_rev, length_firstn. lia.
Qed.

Lemma kept_keys_in g l limit k :
  In k (kept_keys g l limit) -> exists e, In e l /\ bucket_key g (expense_date e) = k.
Proof.
  unfold kept_keys. intros H.
  apply in_rev, In_firstn in H. apply bucket_keys_desc_in, H.
Qed.

(** A bucket that is left out is older than every bucket kept, and then
    the limit is reached. *)
Lemma kept_keys_recent g l limit e :
  0 <= limit -> In e l ->
  In (bucket_key g (expense_date e)) (kept_keys g l limit)
  \/ (Z.of_nat (List.length (kept_keys g l limit)) = limit
      /\ Forall (key_lt (bucket_key g (expense_date e))) (kept_keys g l limit)).
Proof.
  intros L He. set (k := bucket_key g (expense_date e)).
  assert (Hk : In k (bucket_keys_desc g l))
    by (apply bucket_keys_desc_in; exists e; split; [exact He | reflexivity]).
  pose proof (bucket_keys_desc_sorted g l) as Srt.
  unfold kept_keys.
  rewrite <- (firstn_skipn (Z.to_nat limit) (bucket_keys_desc g l)) in Hk, Srt.
  apply in_app_or in Hk. destruct Hk as [Hk|Hk].
  - left. rewrite <- in_rev. exact Hk.
  - right. split.
    + rewrite length_rev, length_firstn.
      assert (Hn : (Z.to_nat limit < List.length (bucket_keys_desc g l))%nat).
      { destruct (Nat.lt_ge_cases (Z.to_nat limit) (List.length (bucket_keys_desc g l)))
          as [?|Hge]; [assumption|].
        rewrite skipn_all2 in Hk by exact Hge. destruct Hk. }
      lia.
    + apply StronglySorted_app_inv in Srt. destruct Srt as [_ Srt].
      apply Forall_forall. intros k' Hk'. rewrite <- in_rev in Hk'.
      apply (Srt k' k Hk' Hk).
Qed.

Lemma members_nonempty g l e :
  In e l -> In e (members g l (bucket_key g (expense_date e))).
Proof.
  intros H. apply filter_In. split; [exact H|].
  unfold in_bucket, key_eqb. destruct (BucketKey_eq_dec _ _); congruence.
Qed.

(** C1. For a recognized period_type and a limit that is not negative, the
    time series is the list of data points of the buckets [keys], where
    [keys] is in chronological ascending order, has at most [limit] elements,
    holds only buckets with at least one expense of the user, and leaves out
    only buckets older than all those it keeps (and then exactly [limit] are
    kept); every point carries the sum and the count of its bucket. *)
Theorem time_series_recent_ascending session u period_type limit tr :
  In period_type Routes.period_types ->
  0 <= limit ->
  let g := ExpenseService.granularity period_type in
  let l := expenses_of session u in
  exists keys,
    fst (ExpenseService.get_expenses_for_visualization session u period_type limit tr)
    = inr (map (series_point g l) keys)
    /\ StronglySorted key_lt keys
    /\ Z.of_nat (List.length (map (series_point g l) keys)) <= limit
    /\ Forall (fun p => 0 < ChartDataPointModel.expense_count p)
              (map (series_point g l) keys)
    /\ Forall (fun k =>
                 ChartDataPointModel.period (series_point g l k) = label k
                 /\ (ChartDataPointModel.total_amount (series_point g l k)
                     == float_of_decimal (sum_amount (members g l k)))%Q
                 /\ ChartDataPointModel.expense_count (series_point g l k)
                    = Z.of_nat (List.length (members g l k)))
              keys
    /\ (forall e, In e l ->
          In (bucket_key g (expense_date e)) keys
          \/ (Z.of_nat (List.length keys) = limit
              /\ Forall (key_lt (bucket_key g (expense_date e))) keys)).
Proof.
  intros H L g l.
  rewrite (get_expenses_for_visualization_run session u tr H L); cbn [fst].
  fold g l. exists (kept_keys g l limit).
  split; [reflexivity|].
  split; [apply kept_keys_sorted|].
  split; [rewrite length_map; apply kept_keys_length, L|].
  split; [|split].
  - apply Forall_map, Forall_forall. intros k Hk.
    apply kept_keys_in in Hk. destruct Hk as (e & He & <-).
    cbn. rewrite int_or_zero_id. unfold sql_count.
    pose proof (members_nonempty g l e He) as M.
    destruct (members g l (bucket_key g (expense_date e))); [destruct M|].
    simpl List.length. lia.
  - apply Forall_forall. intros k _. split; [reflexivity|]. split.
    + apply float_or_zero_sum.
    + apply int_or_zero_id.
  - intros e He. apply kept_keys_recent; assumption.
Qed.

Lemma time_series_recent_ascending_witness :
  exists keys,
    fst (ExpenseService.get_expenses_for_visualization
           (stable_session sample_table) 1%N "month" 1 [])
    = inr (map (series_point ByMonth (expenses_of (stable_session sample_table) 1%N))
               keys)
    /\ StronglySorted key_lt keys
    /\ Z.of_nat (List.length keys) = 1.
Proof.
  destruct (@time_series_recent_ascending (stable_session sample_table) 1%N "month" 1 [])
    as (keys & H1 & H2 & _ & _ & _ & H3); [simpl; tauto | lia |].
  exists keys. split; [exact H1|]. split; [exact H2|].
  destruct (H3 (expense 1%N FOOD 1000 (at_date 2025 3 1))) as [H|[H _]];
    [simpl; tauto | | exact H].
  vm_compute in H1. injection H1 as H1.
  destruct keys as [|k [|k' keys]]; [destruct H | reflexivity | discriminate H1].
Defined.

(* ===================================================================== *)
(** ** The time-series handler *)
(* ===================================================================== *)

Lemma Zrange_in (lo n z : Z) :
  lo <= z < lo + n -> In z (Zrange lo n).
Proof.
  intros H. unfold Zrange. apply in_map_iff.
  exists (Z.to_nat (z - lo)). split; [lia|].
  apply in_seq. lia.
Qed.

Lemma str_int_four_digits (y : Z) : 1000 <= y <= 9999 -> str_int y = four_digits y.
Proof.
  intros H.
  assert (A : forallb (fun y => String.eqb (str_int y) (four_digits y))
                      (Zrange 1000 9000) = true) by (vm_compute; reflexivity).
  rewrite forallb_forall in A. apply String.eqb_eq, A, Zrange_in. lia.
Qed.

Lemma format_02d_two_digits (m : Z) : 0 <= m <= 99 -> format_0d 2 m = two_digits m.
Proof.
  intros H.
  assert (A : forallb (fun m => String.eqb (format_0d 2 m) (two_digits m))
                      (Zrange 0 100) = true) by (vm_compute; reflexivity).
  rewrite forallb_forall in A. apply String.eqb_eq, A, Zrange_in. lia.
Qed.

Lemma Zsum_map_ext_in {A : Type} (f g : A -> Z) (l : list A) :
  (forall a, In a l -> f a = g a) -> Zsum (map f l) = Zsum (map g l).
Proof.
  induction l as [|a l IH]; intros H; simpl; [reflexivity|].
  rewrite (H a (or_introl eq_refl)), IH; [reflexivity|].
  intros b Hb. apply H. right. exact Hb.
Qed.

Lemma Zsum_zero {A : Type} (l : list A) : Zsum (map (fun _ => 0) l) = 0.
Proof. induction l; simpl; lia. Qed.

Lemma key_eqb_eq (a b : BucketKey) : key_eqb a b = true <-> a = b.
Proof.
  unfold key_eqb. destruct (BucketKey_eq_dec a b); split; congruence.
Qed.

(** An expense counts in exactly one of the buckets. *)
Lemma Zsum_one_bucket (g : Granularity) (K : list BucketKey) (x : Expense) (v : Z) :
  NoDup K -> In (bucket_key g (expense_date x)) K ->
  Zsum (map (fun k => if in_bucket g k x then v else 0) K) = v.
Proof.
  unfold in_bucket. set (kx := bucket_key g (expense_date x)).
  induction 1 as [|a K Ha N IH]; intros Hk; [destruct Hk|].
  simpl. destruct (key_eqb kx a) eqn:E.
  - apply key_eqb_eq in E. subst a.
    rewrite (Zsum_map_ext_in _ (fun _ => 0)), Zsum_zero; [lia|].
    intros b Hb. destruct (key_eqb kx b) eqn:E'; [|reflexivity].
    apply key_eqb_eq in E'. subst b. contradiction.
  - destruct Hk as [Hk|Hk].
    + subst a. unfold key_eqb in E. destruct (BucketKey_eq_dec kx kx); congruence.
    + rewrite (IH Hk). lia.
Qed.

Lemma buckets_partition (g : Granularity) (K : list BucketKey) (l : list Expense)
    (f : Expense -> Z) :
  NoDup K ->
  (forall x, In x l -> In (bucket_key g (expense_date x)) K) ->
  Zsum (map (fun k => Zsum (map f (filter (in_bucket g k) l))) K) = Zsum (map f l).
Proof.
  intros N. induction l as [|x l IH]; intros H.
  - simpl. apply Zsum_zero.
  - rewrite (Zsum_map_ext _
               (fun k => (if in_bucket g k x then f x else 0)
                         + Zsum (map f (filter (in_bucket g k) l)))).
    + rewrite Zsum_map_add, Zsum_one_bucket, IH.
      * reflexivity.
      * intros y Hy. apply H. right. exact Hy.
      * exact N.
      * apply H. left. reflexivity.
    + intros k. simpl. destruct (in_bucket g k x); reflexivity.
Qed.

Lemma sum_amount_Zsum (l : list Expense) : sum_amount l = Zsum (map amount l).
Proof. induction l as [|x l IH]; simpl; [reflexivity | rewrite IH; reflexivity]. Qed.

Lemma length_Zsum {A : Type} (l : list A) :
  Z.of_nat (List.length l) = Zsum (map (fun _ => 1) l).
Proof.
  induction l as [|x l IH]; [reflexivity|].
  change (List.length (x :: l)) with (S (List.length l)).
  change (Zsum (map (fun _ => 1) (x :: l))) with (1 + Zsum (map (fun _ : A => 1) l)).
  lia.
Qed.

Lemma Qsum_map_float {A : Type} (f : A -> Q) (h : A -> Z) (l : list A) :
  (forall a, f a == float_of_decimal (h a))%Q ->
  (Qsum (map f l) == float_of_decimal (Zsum (map h l)))%Q.
Proof.
  intros H. induction l as [|a l IH]; simpl; [reflexivity|].
  rewrite H, IH. unfold float_of_decimal, Qeq, Qplus; simpl. lia.
Qed.

Lemma kept_keys_all (g : Granularity) (l : list Expense) (limit : Z) :
  Z.of_nat (List.length (bucket_keys_desc g l)) <= limit ->
  kept_keys g l limit = rev (bucket_keys_desc g l).
Proof.
  intros H. unfold kept_keys. rewrite firstn_all2; [reflexivity | lia].
Qed.

Lemma bucket_keys_desc_NoDup (g : Granularity) (l : list Expense) :
  NoDup (bucket_keys_desc g l).
Proof.
  eapply Permutation_NoDup; [apply Permutation_sym, bucket_keys_desc_perm|].
  apply NoDup_nodup.
Qed.

Lemma query_bounds_ok parameter lo hi v tr :
  lo <= v <= hi ->
  query_bounds parameter (Some lo) (Some hi) v tr = (inr tt, tr).
Proof.
  intros H. unfold query_bounds.
  destruct (Z.leb_spec lo v); [|lia]. destruct (Z.leb_spec v hi); [|lia].
  reflexivity.
Qed.

Lemma query_bounds_trace parameter lo hi v tr :
  snd (query_bounds parameter lo hi v tr) = tr.
Proof. unfold query_bounds. destruct (_ && _); reflexivity. Qed.

Lemma recognized_period_type (period_type : string) :
  existsb (String.eqb period_type) Routes.period_types = true
  <-> In period_type Routes.period_types.
Proof.
  rewrite existsb_exists. split.
  - intros (x & Hx & E). apply String.eqb_eq in E. subst. exact Hx.
  - intros H. exists period_type. split; [exact H | apply String.eqb_refl].
Qed.

Lemma visualization_succeeds period_type limit user session tr :
  In period_type Routes.period_types -> 1 <= limit <= 100 ->
  exists resp,
    fst (Routes.get_visualization_data period_type limit user session tr) = inr resp.
Proof.
  intros H L. unfold Routes.get_visualization_data, bind.
  rewrite (query_bounds_ok "limit" tr L).
  apply recognized_period_type in H as E. rewrite E. cbn [negb].
  apply recognized_period_type in E.
  rewrite (get_expenses_for_visualization_run session (UserModel.id user) tr E)
    by lia.
  eexists. reflexivity.
Qed.

Lemma format_04d_four_digits (y : Z) : 0 <= y <= 9999 -> format_0d 4 y = four_digits y.
Proof.
  intros H.
  assert (A : forallb (fun y => String.eqb (format_0d 4 y) (four_digits y))
                      (Zrange 0 10000) = true) by (vm_compute; reflexivity).
  rewrite forallb_forall in A. apply String.eqb_eq, A, Zrange_in. lia.
Qed.

Lemma str_date_iso (y m d : Z) :
  0 <= y <= 9999 -> 0 <= m <= 99 -> 0 <= d <= 99 ->
  str_date y m d = iso_date (y, m, d).
Proof.
  intros Hy Hm Hd. unfold str_date, iso_date.
  rewrite (format_04d_four_digits Hy), (format_02d_two_digits Hm),
    (format_02d_two_digits Hd).
  reflexivity.
Qed.

Lemma in_bucket_on_date (k : BucketKey) (x : Expense) :
  key_kind ByDate k -> in_bucket ByDate k x = on_date (key_tuple k) x.
Proof.
  destruct k as [y m|y|y m d]; simpl; try contradiction. intros _.
  unfold in_bucket, key_eqb, on_date. cbn [bucket_key].
  destruct (BucketKey_eq_dec _ _) as [E|E].
  - injection E as -> -> ->. rewrite !Z.eqb_refl. reflexivity.
  - symmetry. apply not_true_is_false. intros H.
    apply andb_prop in H. destruct H as [H H3]. apply andb_prop in H.
    destruct H as [H1 H2]. apply Z.eqb_eq in H1, H2, H3. congruence.
Qed.

Lemma series_point_of_date (l : list Expense) (k : BucketKey) :
  key_kind ByDate k -> point_of_date l (series_point ByDate l k) (key_tuple k).
Proof.
  intros K.
  assert (M : members ByDate l k = filter (on_date (key_tuple k)) l).
  { unfold members. apply filter_ext. intros x. apply in_bucket_on_date, K. }
  unfold point_of_date, series_point. cbn. rewrite M.
  split; [destruct k; simpl in K; try contradiction; reflexivity|].
  split; [apply float_or_zero_sum | apply int_or_zero_id].
Qed.

Lemma kept_keys_kind g l limit :
  Forall (key_kind g) (kept_keys g l limit).
Proof.
  apply Forall_forall. intros k Hk. apply kept_keys_in in Hk.
  destruct Hk as (x & _ & <-). apply bucket_key_kind.
Qed.

Lemma negative_limit_raises session u period_type limit tr :
  limit < 0 ->
  exists err,
    fst (ExpenseService.get_expenses_for_visualization session u period_type limit tr)
    = inl err.
Proof.
  intros L.
  unfold ExpenseService.get_expenses_for_visualization, bind, execute, eval, lift.
  cbn [columns conditions eval_select]. unfold sql_limit.
  destruct (Z.ltb_spec limit 0) as [_|?]; [|lia].
  eexists. reflexivity.
Qed.

(** C9. With period_type "week" the time series is the one of "day", from
    the service and from the handler.  A negative limit makes it fail;
    otherwise its points are those of the calendar dates [dates]: each is
    labelled with its date in ISO format and carries the sum and the number
    of the user's expenses of that date, and [dates] is in ascending order,
    has at most [limit] elements, holds only dates with an expense of the
    user and leaves out only dates before all those it keeps (and then
    exactly [limit] are kept). *)
Theorem week_buckets_by_day session u limit tr :
  ExpenseService.get_expenses_for_visualization session u "week" limit tr
  = ExpenseService.get_expenses_for_visualization session u "day" limit tr
  /\ (forall user,
        data_points_of (fst (Routes.get_visualization_data "week" limit user session tr))
        = data_points_of (fst (Routes.get_visualization_data "day" limit user session tr)))
  /\ (limit < 0 ->
      exists err,
        fst (ExpenseService.get_expenses_for_visualization session u "week" limit tr)
        = inl err)
  /\ (0 <= limit ->
      exists points dates,
        fst (ExpenseService.get_expenses_for_visualization session u "week" limit tr)
        = inr points
        /\ Forall2 (point_of_date (expenses_of session u)) points dates
        /\ StronglySorted date_lt dates
        /\ Z.of_nat (List.length dates) <= limit
        /\ (forall d, In d dates ->
              exists x, In x (expenses_of session u) /\ calendar_date x = d)
        /\ (forall x, In x (expenses_of session u) ->
              In (calendar_date x) dates
              \/ (Z.of_nat (List.length dates) = limit
                  /\ Forall (date_lt (calendar_date x)) dates)))
  /\ (forall y m d,
        1 <= y <= 9999 -> 1 <= m <= 12 -> 1 <= d <= 31 ->
        str_date y m d = iso_date (y, m, d)).
Proof.
  split; [reflexivity|]. split; [|split; [|split]].
  - intros user. unfold Routes.get_visualization_data, bind.
    destruct (query_bounds "limit" (Some 1) (Some 100) limit tr) as [[e|[]] tr1];
      [reflexivity|].
    assert (Ew : existsb (String.eqb "week") Routes.period_types = true) by reflexivity.
    assert (Ed : existsb (String.eqb "day") Routes.period_types = true) by reflexivity.
    rewrite Ew, Ed. cbn [negb].
    change (ExpenseService.get_expenses_for_visualization session (UserModel.id user)
              "week" limit tr1)
      with (ExpenseService.get_expenses_for_visualization session (UserModel.id user)
              "day" limit tr1).
    destruct (ExpenseService.get_expenses_for_visualization session (UserModel.id user)
                "day" limit tr1) as [[e|points] tr2]; reflexivity.
  - apply negative_limit_raises.
  - intros L.
    assert (W : In "week" Routes.period_types) by (simpl; tauto).
    rewrite (get_expenses_for_visualization_run session u tr W L); cbn [fst].
    change (ExpenseService.granularity "week") with ByDate.
    set (l := expenses_of session u).
    set (keys := kept_keys ByDate l limit).
    exists (map (series_point ByDate l) keys), (map key_tuple keys).
    split; [reflexivity|].
    split; [|split; [|split; [|split]]].
    + pose proof (kept_keys_kind ByDate l limit) as K. fold keys in K.
      induction K as [|k ks Hk _ IH]; simpl; constructor;
        [apply series_point_of_date, Hk | exact IH].
    + eapply StronglySorted_map; [|apply kept_keys_sorted].
      intros a b H. exact H.
    + rewrite length_map. apply kept_keys_length, L.
    + intros d Hd. apply in_map_iff in Hd. destruct Hd as (k & <- & Hk).
      apply kept_keys_in in Hk. destruct Hk as (x & Hx & <-).
      exists x. split; [exact Hx | reflexivity].
    + intros x Hx. rewrite length_map.
      destruct (@kept_keys_recent ByDate l limit x L Hx) as [H|[H1 H2]].
      * left. apply (in_map key_tuple) in H. exact H.
      * right. split; [exact H1|]. apply Forall_map.
        eapply Forall_impl; [|exact H2]. intros k H. exact H.
  - intros y m d Hy Hm Hd. apply str_date_iso; lia.
Qed.

Lemma week_buckets_by_day_witness :
  fst (ExpenseService.get_expenses_for_visualization
         (stable_session sample_table) 1%N "week" 2 [])
  = inr [ChartDataPointModel.make "2025-03-02" (float_of_decimal 500) 1;
         ChartDataPointModel.make "2025-04-02" (float_of_decimal 1500) 1]
  /\ (exists err,
        fst (ExpenseService.get_expenses_for_visualization
               (stable_session sample_table) 1%N "week" (-1) []) = inl err)
  /\ str_date 2025 3 2 = iso_date (2025, 3, 2).
Proof.
  split; [|split].
  - destruct (week_buckets_by_day (stable_session sample_table) 1%N 2 [])
      as (_ & _ & _ & H & _).
    destruct H as (points & dates & H & _); [lia|].
    rewrite H. vm_compute in H. injection H as <-. reflexivity.
  - destruct (week_buckets_by_day (stable_session sample_table) 1%N (-1) [])
      as (_ & _ & H & _).
    apply H. lia.
  - destruct (week_buckets_by_day (stable_session sample_table) 1%N 2 [])
      as (_ & _ & _ & _ & H).
    apply H; lia.
Defined.

(** C6. A period_type outside day, week, month and year makes the handler
    fail before any statement is executed: the outcome is an exception (the
    400 response once the limit has passed its own bounds), the trace is
    unchanged, and since every call of the aggregation operation executes
    its statement, the operation was not called. *)
Theorem invalid_period_type_rejected period_type limit user session tr :
  ~ In period_type Routes.period_types ->
  snd (Routes.get_visualization_data period_type limit user session tr) = tr
  /\ (exists e, fst (Routes.get_visualization_data period_type limit user session tr)
                = inl e)
  /\ (1 <= limit <= 100 ->
      fst (Routes.get_visualization_data period_type limit user session tr)
      = inl invalid_period_type)
  /\ (forall tr0,
        snd (ExpenseService.get_expenses_for_visualization session (UserModel.id user)
               period_type limit tr0)
        = tr0 ++ [series_statement (UserModel.id user) period_type limit]).
Proof.
  intros H.
  assert (E : existsb (String.eqb period_type) Routes.period_types = false).
  { apply not_true_is_false. intros E. apply H, recognized_period_type, E. }
  unfold Routes.get_visualization_data, bind. rewrite E. cbn [negb].
  pose proof (query_bounds_trace "limit" (Some 1) (Some 100) limit tr) as T.
  split; [|split; [|split]].
  - destruct (query_bounds _ _ _ _ _) as [[e|[]] tr1]; exact T.
  - destruct (query_bounds _ _ _ _ _) as [[e|[]] tr1]; eexists; reflexivity.
  - intros L. rewrite (query_bounds_ok "limit" tr L). reflexivity.
  - intros tr0. apply get_expenses_for_visualization_trace.
Qed.

Lemma invalid_period_type_rejected_witness :
  Routes.get_visualization_data "quarter" 12 (UserModel.make 1%N)
    (stable_session sample_table) []
  = (inl invalid_period_type, []).
Proof.
  destruct (@invalid_period_type_rejected "quarter" 12 (UserModel.make 1%N)
              (stable_session sample_table) [])
    as (H1 & _ & H2 & _).
  - simpl. intros [H|[H|[H|[H|[]]]]]; discriminate H.
  - rewrite (surjective_pairing (Routes.get_visualization_data _ _ _ _ _)).
    rewrite H1, H2; [reflexivity | lia].
Defined.




Lemma get_visualization_data_run period_type limit user session tr :
  In period_type Routes.period_types -> 1 <= limit <= 100 ->
  let points :=
    map (series_point (ExpenseService.granularity period_type)
                      (expenses_of session (UserModel.id user)))
        (kept_keys (ExpenseService.granularity period_type)
                   (expenses_of session (UserModel.id user)) limit) in
  let total_spending := sum_float (map ChartDataPointModel.total_amount points) in
  Routes.get_visualization_data period_type limit user session tr
  = (inr (ChartVisualizationResponseModel.make
            period_type points (Z.of_nat (List.length points)) total_spending
            match points with
            | [] => 0%Q
            | _ => float_truediv total_spending
                     (inject_Z (Z.of_nat (List.length points)))
            end),
     tr ++ [series_statement (UserModel.id user) period_type limit]).
Proof.
  intros H L. unfold Routes.get_visualization_data, bind.
  rewrite (query_bounds_ok "limit" tr L).
  apply recognized_period_type in H as E. rewrite E. cbn [negb].
  rewrite (get_expenses_for_visualization_run session (UserModel.id user) tr H)
    by lia.
  reflexivity.
Qed.







(** The totals of the kept buckets, in cents. *)
Lemma series_point_totals g l (keys : list BucketKey) :
  (sum_float (map ChartDataPointModel.total_amount (map (series_point g l) keys))
   == sum_float (map float_of_decimal (map (fun k => sum_amount (members g l k)) keys)))%Q
  /\ (Qsum (map ChartDataPointModel.total_amount (map (series_point g l) keys))
      == float_of_decimal (Zsum (map (fun k => sum_amount (members g l k)) keys)))%Q.
Proof.
  rewrite !map_map. split.
  - apply sum_float_compat. intros k. cbn. apply float_or_zero_sum.
  - apply Qsum_map_float. intros k. cbn. apply float_or_zero_sum.
Qed.




(* ===================================================================== *)
(** ** Pagination *)
(* ===================================================================== *)

Lemma ceil_div_spec (a b : Z) :
  0 < b -> exists q, ceil_div a b = inr q /\ (q - 1) * b < a <= q * b.
Proof.
  intros Hb. unfold ceil_div.
  destruct (Z.eqb_spec b 0) as [?|_]; [lia|].
  eexists. split; [reflexivity|].
  destruct b as [|p|p]; try lia.
  unfold Qceiling, Qfloor, Qdiv, Qmult, Qinv, Qopp, inject_Z.
  cbn [Qnum Qden]. rewrite Z.mul_1_r, Pos.mul_1_l.
  pose proof (Z.div_mod (- a) (Z.pos p) ltac:(lia)) as D.
  pose proof (Z.mod_pos_bound (- a) (Z.pos p) ltac:(lia)) as M.
  nia.
Qed.

Lemma get_user_expenses_count session u skip limit category s e search tr :
  forall expenses total_count,
    fst (ExpenseService.get_user_expenses session u skip limit category s e search tr)
    = inr (expenses, total_count) ->
    0 <= total_count.
Proof.
  intros expenses total_count.
  unfold ExpenseService.get_user_expenses, bind, execute at 1, eval.
  cbn [columns where_if eval_select hd_error].
  rewrite int_or_zero_id.
  match goal with
  | |- context [execute ?s ?st ?t] => destruct (execute s st t) as [[x|rows] tr1]
  end; [discriminate|].
  unfold ret; cbn [fst]. intros [= _ <-]. unfold sql_count. lia.
Qed.



Lemma get_expenses_succeeds page page_size category start_date end_date search
    user session tr :
  1 <= page -> 1 <= page_size <= 100 ->
  exists resp,
    fst (Routes.get_expenses page page_size category start_date end_date search
           user session tr) = inr resp
    /\ 0 <= ExpenseListResponseModel.total resp
    /\ Routes.total_pages_of (ExpenseListResponseModel.total resp) page_size
       = inr (ExpenseListResponseModel.total_pages resp).
Proof.
  intros Hpage Hsize.
  unfold Routes.get_expenses, bind, query_bounds.
  destruct (Z.leb_spec 1 page); [|lia].
  destruct (Z.leb_spec 1 page_size); [|lia].
  destruct (Z.leb_spec page_size 100); [|lia].
  cbn [andb ret].
  unfold ExpenseService.get_user_expenses, bind, execute, eval.
  cbn [columns where_if eval_select hd_error offset_limit
       order_by_desc_expense_date].
  unfold sql_offset, sql_limit.
  destruct (Z.ltb_spec ((page - 1) * page_size) 0); [nia|].
  destruct (Z.ltb_spec page_size 0); [lia|].
  unfold ret, lift. rewrite int_or_zero_id.
  match goal with
  | |- context [Routes.total_pages_of ?n page_size] => set (total := n)
  end.
  assert (Hn : 0 <= total) by (unfold total, sql_count; lia).
  assert (E : exists total_pages,
             Routes.total_pages_of total page_size = inr total_pages).
  { unfold Routes.total_pages_of. destruct (0 <? total); [|eexists; reflexivity].
    destruct (@ceil_div_spec total page_size ltac:(lia)) as (q & -> & _).
    eexists; reflexivity. }
  destruct E as [total_pages E]. rewrite E.
  eexists. cbn [fst]. split; [reflexivity|].
  cbn [ExpenseListResponseModel.total ExpenseListResponseModel.total_pages].
  split; [exact Hn | exact E].
Qed.

(* ===================================================================== *)
(** ** Monthly statistics *)
(* ===================================================================== *)

Lemma selected_month session u year month :
  selected session [UserIs u; YearIs year; MonthIs month]
  = month_records session u year month.
Proof.
  unfold selected, month_records. apply filter_ext. intros x.
  unfold in_month, owned. simpl. rewrite andb_true_r, andb_assoc. reflexivity.
Qed.

(** C4. Monthly statistics always succeed with the period label
    "{year}-{month:02d}" -- four digits, a dash and two digits for a
    four-digit year and a month from 1 to 12 -- and when the user has no
    expense in that month they report total 0.0, average 0.0, count 0 and no
    top category and no top category amount, also after serialization. *)
Theorem monthly_statistics_empty_month session u year month tr :
  exists stats,
    fst (ExpenseService.get_monthly_statistics session u year month tr) = inr stats
    /\ ExpenseStatisticsModel.period stats
       = (str_int year ++ "-" ++ format_0d 2 month)%string
    /\ (1000 <= year <= 9999 -> 1 <= month <= 12 ->
        ExpenseStatisticsModel.period stats
        = (four_digits year ++ "-" ++ two_digits month)%string)
    /\ (month_records session u year month = [] ->
        stats = empty_month_statistics (ExpenseStatisticsModel.period stats)
        /\ ExpenseStatisticsModel.top_category
             (ExpenseStatisticsModel.serialize stats) = None
        /\ ExpenseStatisticsModel.top_category_amount
             (ExpenseStatisticsModel.serialize stats) = None).
Proof.
  unfold ExpenseService.get_monthly_statistics, bind, execute, eval, ret.
  cbn [columns conditions eval_select hd_error fst].
  rewrite selected_month.
  eexists. split; [reflexivity|].
  cbn [ExpenseStatisticsModel.period].
  split; [reflexivity|]. split.
  - intros Hy Hm. rewrite str_int_four_digits, format_02d_two_digits by lia.
    reflexivity.
  - intros E. rewrite E.
    match goal with
    | |- context [order_by_total session ?t (group_by_category [])] =>
        assert (R : order_by_total session t (group_by_category []) = [])
          by apply Permutation_nil, Permutation_sym, order_by_total_perm
    end.
    rewrite R. cbn. split; [reflexivity|]. split; reflexivity.
Qed.

Lemma monthly_statistics_empty_month_witness :
  fst (ExpenseService.get_monthly_statistics (stable_session sample_table)
         1%N 2025 5 [])
  = inr (empty_month_statistics "2025-05").
Proof.
  destruct (monthly_statistics_empty_month (stable_session sample_table) 1%N 2025 5 [])
    as (stats & H1 & H2 & H3 & H4).
  rewrite H1. f_equal.
  destruct H4 as (H4 & _); [reflexivity|].
  rewrite H4, H3 by lia. reflexivity.
Defined.

(* ===================================================================== *)
(** ** The list of expenses *)
(* ===================================================================== *)

Lemma forallb_app_true {A : Type} (p : A -> bool) (l1 l2 : list A) :
  forallb p (l1 ++ l2) = forallb p l1 && forallb p l2.
Proof. induction l1 as [|a l1 IH]; simpl; [reflexivity | rewrite IH, andb_assoc; reflexivity]. Qed.

Lemma selected_listing session u category s e search :
  selected session (listing_conditions u category s e search)
  = matching session u category s e search.
Proof.
  unfold selected, matching. apply filter_ext. intros x.
  unfold listing_conditions, listed, search_matches, owned, Expense_category.
  cbn [conditions where_if]. rewrite !forallb_app_true.
  destruct category, s, e; cbn [option_map forallb holds];
    rewrite ?andb_true_r;
    (destruct search as [q|]; [destruct (q =? EmptyString)%string|]);
    cbn [forallb holds]; rewrite ?andb_true_r; reflexivity.
Qed.

Lemma get_user_expenses_run session u skip limit category s e search tr :
  0 <= skip -> 0 <= limit ->
  fst (ExpenseService.get_user_expenses session u skip limit category s e search tr)
  = inr (firstn (Z.to_nat limit)
           (skipn (Z.to_nat skip)
              (order_by_date session
                 (tr ++ [mk_Statement SelectCount
                           (listing_conditions u category s e search)])
                 (matching session u category s e search))),
         Z.of_nat (List.length (matching session u category s e search))).
Proof.
  intros Hs Hl.
  unfold ExpenseService.get_user_expenses, bind, execute, eval, ret.
  cbn [columns where_if eval_select hd_error offset_limit
       order_by_desc_expense_date fst].
  repeat match goal with
         | |- context [selected session ?c] =>
             progress change c with (listing_conditions u category s e search)
         end.
  rewrite selected_listing.
  unfold sql_offset, sql_limit.
  destruct (Z.ltb_spec skip 0); [lia|]. destruct (Z.ltb_spec limit 0); [lia|].
  cbn [fst]. rewrite int_or_zero_id. reflexivity.
Qed.

Lemma Forall_firstn {A : Type} (P : A -> Prop) (n : nat) (l : list A) :
  Forall P l -> Forall P (firstn n l).
Proof.
  intros H. apply Forall_forall. intros a Ha.
  rewrite Forall_forall in H. apply H. eapply In_firstn, Ha.
Qed.

Lemma In_skipn {A : Type} (n : nat) (l : list A) (a : A) :
  In a (skipn n l) -> In a l.
Proof.
  intros H. rewrite <- (firstn_skipn n l). apply in_or_app. right. exact H.
Qed.

Lemma StronglySorted_skipn {A : Type} (R : A -> A -> Prop) (n : nat) (l : list A) :
  StronglySorted R l -> StronglySorted R (skipn n l).
Proof.
  revert l. induction n as [|n IH]; intros l H; [exact H|].
  destruct l as [|a l]; [exact H|].
  simpl. apply IH. inversion H; assumption.
Qed.

(** X1. The page of a list: with a skip or a limit below zero the store raises;
    otherwise the total is the number of the user's expenses that pass the
    filters, whatever the page, and the expenses are those from position
    [skip] on, at most [limit] of them, of an arrangement of these expenses
    by expense_date, latest first. *)
Theorem expense_page_of_listing session u skip limit category s e search tr :
  if (skip <? 0) || (limit <? 0)
  then exists err,
         fst (ExpenseService.get_user_expenses session u skip limit
                category s e search tr) = inl err
  else exists ordered,
         Permutation ordered (matching session u category s e search)
         /\ StronglySorted date_desc ordered
         /\ fst (ExpenseService.get_user_expenses session u skip limit
                   category s e search tr)
            = inr (firstn (Z.to_nat limit) (skipn (Z.to_nat skip) ordered),
                   Z.of_nat (List.length (matching session u category s e search))).
Proof.
  destruct (Z.ltb_spec skip 0) as [Hs|Hs]; cbn [orb].
  - unfold ExpenseService.get_user_expenses, bind, execute, eval, ret.
    cbn [columns where_if eval_select hd_error offset_limit
         order_by_desc_expense_date fst].
    unfold sql_offset. destruct (Z.ltb_spec skip 0); [|lia].
    eexists. reflexivity.
  - destruct (Z.ltb_spec limit 0) as [Hl|Hl].
    + unfold ExpenseService.get_user_expenses, bind, execute, eval, ret.
      cbn [columns where_if eval_select hd_error offset_limit
           order_by_desc_expense_date fst].
      unfold sql_offset, sql_limit. destruct (Z.ltb_spec skip 0); [lia|].
      destruct (Z.ltb_spec limit 0); [|lia].
      eexists. reflexivity.
    + eexists. split; [apply order_by_date_perm|].
      split; [apply order_by_date_sorted|].
      apply get_user_expenses_run; assumption.
Qed.

Lemma total_pages_of_spec total_count page_size :
  0 <= total_count -> 1 <= page_size ->
  exists total_pages,
    Routes.total_pages_of total_count page_size = inr total_pages
    /\ total_count <= total_pages * page_size.
Proof.
  intros Ht Hp. unfold Routes.total_pages_of.
  destruct (Z.ltb_spec 0 total_count) as [H|H].
  - destruct (@ceil_div_spec total_count page_size ltac:(lia)) as (q & -> & B).
    exists q. split; [reflexivity | lia].
  - exists 0. split; [reflexivity | lia].
Qed.

(** X2. The list handler: a page below 1 or a page_size outside 1..100 is
    refused before anything is executed.  Otherwise the response echoes page
    and page_size, its total is the number of the user's expenses that pass
    the filters, and its expenses all pass the filters, are ordered by
    expense_date, latest first, and number min(page_size, total - (page - 1)
    * page_size), or none when that is negative; a page after the last is
    empty. *)
Theorem expense_list_page page page_size category s e search user session tr :
  if (1 <=? page) && (1 <=? page_size) && (page_size <=? 100)
  then exists resp,
         fst (Routes.get_expenses page page_size category s e search user session tr)
         = inr resp
         /\ ExpenseListResponseModel.total resp
            = Z.of_nat (List.length
                          (matching session (UserModel.id user) category s e search))
         /\ ExpenseListResponseModel.page resp = page
         /\ ExpenseListResponseModel.page_size resp = page_size
         /\ Z.of_nat (List.length (ExpenseListResponseModel.expenses resp))
            = Z.min page_size
                (Z.max 0 (ExpenseListResponseModel.total resp - (page - 1) * page_size))
         /\ Forall (fun x => listed session (UserModel.id user) category s e search x
                             = true)
                   (ExpenseListResponseModel.expenses resp)
         /\ StronglySorted date_desc (ExpenseListResponseModel.expenses resp)
         /\ (if ExpenseListResponseModel.total_pages resp <? page
             then ExpenseListResponseModel.expenses resp = []
             else True)
  else (exists parameter,
          fst (Routes.get_expenses page page_size category s e search user session tr)
          = inl (RequestValidationError parameter))
       /\ snd (Routes.get_expenses page page_size category s e search user session tr)
          = tr.
Proof.
  unfold Routes.get_expenses, bind, query_bounds.
  destruct (Z.leb_spec 1 page) as [Hp|Hp]; cbn [andb ret raise];
    [|split; [eexists|]; reflexivity].
  destruct (Z.leb_spec 1 page_size) as [H1|H1]; cbn [andb ret raise];
    [|split; [eexists|]; reflexivity].
  destruct (Z.leb_spec page_size 100) as [H2|H2]; cbn [andb ret raise];
    [|split; [eexists|]; reflexivity].
  set (u := UserModel.id user).
  assert (Hskip : 0 <= (page - 1) * page_size) by nia.
  pose proof (@get_user_expenses_run session u ((page - 1) * page_size) page_size
                category s e search tr Hskip ltac:(lia)) as R.
  destruct (ExpenseService.get_user_expenses session u ((page - 1) * page_size)
              page_size category s e search tr) as [[err|[expenses total_count]] tr1];
    cbn [fst] in R; [discriminate R|].
  injection R as Re Rt.
  destruct (@total_pages_of_spec total_count page_size ltac:(lia) H1)
    as (total_pages & Etp & Btp).
  unfold lift. rewrite Etp. unfold ret; cbn [fst].
  eexists. split; [reflexivity|].
  cbn [ExpenseListResponseModel.total ExpenseListResponseModel.page
       ExpenseListResponseModel.page_size ExpenseListResponseModel.expenses
       ExpenseListResponseModel.total_pages].
  set (ordered := order_by_date session _ _) in Re.
  assert (P : Permutation ordered (matching session u category s e search))
    by apply order_by_date_perm.
  assert (L : List.length ordered
              = List.length (matching session u category s e search))
    by (apply Permutation_length, P).
  assert (Len : Z.of_nat (List.length expenses)
                = Z.min page_size (Z.max 0 (total_count - (page - 1) * page_size))).
  { rewrite Re, length_firstn, length_skipn, L. lia. }
  split; [exact Rt|]. split; [reflexivity|]. split; [reflexivity|].
  split; [exact Len|]. split; [|split].
  - rewrite Re. apply Forall_forall. intros x Hx.
    apply In_firstn, In_skipn in Hx.
    apply (Permutation_in _ P) in Hx. apply filter_In in Hx. apply Hx.
  - rewrite Re. apply StronglySorted_firstn, StronglySorted_skipn.
    apply order_by_date_sorted.
  - destruct (Z.ltb_spec total_pages page) as [Hlt|_]; [|exact I].
    assert (Z.of_nat (List.length expenses) = 0) by nia.
    destruct expenses; [reflexivity | simpl in *; lia].
Qed.

(* ===================================================================== *)
(** ** Statistics of a month with expenses *)
(* ===================================================================== *)

(** The first row of a descending arrangement of the groups is a category
    that occurs and whose total no category that occurs exceeds. *)
Lemma top_of_groups (l : list Expense) (ordered : list CategoryRow.t) :
  Permutation ordered (group_by_category l) ->
  StronglySorted total_desc ordered ->
  match l with
  | [] => ordered = []
  | _ :: _ =>
      exists c rest,
        ordered = CategoryRow.make c (category_total l c)
                    (sql_count (filter (in_category c) l)) :: rest
        /\ existsb (in_category c) l = true
        /\ Forall (fun x => category_total l (category x) <= category_total l c) l
  end.
Proof.
  intros P S. destruct l as [|x0 l0] eqn:El.
  - apply Permutation_nil, Permutation_sym, P.
  - rewrite <- El in *.
    assert (Hx0 : In x0 l) by (rewrite El; left; reflexivity).
    destruct ordered as [|r rest].
    + exfalso.
      assert (G : In (CategoryRow.make (category x0) (category_total l (category x0))
                        (sql_count (filter (in_category (category x0)) l)))
                     (group_by_category l)).
      { apply group_by_category_in. exists (category x0). split; [|reflexivity].
        apply existsb_exists. exists x0. split; [exact Hx0 | apply in_category_self]. }
      apply (Permutation_in _ (Permutation_sym P)) in G. destruct G.
    + assert (Hr : In r (group_by_category l))
        by (apply (Permutation_in _ P); left; reflexivity).
      apply group_by_category_in in Hr. destruct Hr as (c & Hc & ->).
      exists c, rest. split; [reflexivity|]. split; [exact Hc|].
      apply Forall_forall. intros x Hx.
      assert (G : In (CategoryRow.make (category x) (category_total l (category x))
                        (sql_count (filter (in_category (category x)) l)))
                     (group_by_category l)).
      { apply group_by_category_in. exists (category x). split; [|reflexivity].
        apply existsb_exists. exists x. split; [exact Hx | apply in_category_self]. }
      apply (Permutation_in _ (Permutation_sym P)) in G.
      inversion S as [|? ? _ F]; subst. rewrite Forall_forall in F.
      destruct G as [G|G].
      * injection G as Gc Gt _. lia.
      * specialize (F _ G). unfold total_desc in F. cbn in F. exact F.
Qed.

Lemma round_half_away_error (y : Q) :
  (Qabs (inject_Z (round_half_away y) - y) <= 1 # 2)%Q.
Proof.
  unfold round_half_away. apply Qabs_Qle_condition.
  destruct (Qle_bool 0 y).
  - pose proof (Qfloor_le (y + (1 # 2))) as L.
    pose proof (Qlt_floor (y + (1 # 2))) as U.
    rewrite inject_Z_plus in U. change (inject_Z 1) with 1%Q in U.
    split; lra.
  - pose proof (Qfloor_le (- y + (1 # 2))) as L.
    pose proof (Qlt_floor (- y + (1 # 2))) as U.
    rewrite inject_Z_plus in U. change (inject_Z 1) with 1%Q in U.
    rewrite inject_Z_opp. split; lra.
Qed.

Lemma select_div_scale_ge (cents n : Z) : 2 <= select_div_scale cents n.
Proof.
  unfold select_div_scale.
  destruct (numeric_leading cents) as [w1 d1].
  destruct (numeric_leading (n * 100)) as [w2 d2]. lia.
Qed.

(** NUMERIC division is the quotient up to half a unit of its scale, which
    has two places or more. *)
Lemma numeric_div_error (cents n : Z) :
  (Qabs (numeric_div cents n - float_of_decimal cents / inject_Z n) <= 1 # 200)%Q.
Proof.
  unfold numeric_div.
  set (q := (float_of_decimal cents / inject_Z n)%Q).
  set (k := 10 ^ select_div_scale cents n).
  assert (K : 100 <= k).
  { unfold k. change 100 with (10 ^ 2).
    apply Z.pow_le_mono_r; [lia | apply select_div_scale_ge]. }
  assert (Kq : (100 <= inject_Z k)%Q).
  { change 100%Q with (inject_Z 100). rewrite <- Zle_Qle. exact K. }
  pose proof (round_half_away_error (q * inject_Z k)) as E.
  apply Qabs_Qle_condition in E. apply Qabs_Qle_condition.
  set (r := inject_Z (round_half_away (q * inject_Z k))) in *. clearbody r.
  set (t := inject_Z k) in *. clearbody t.
  assert (D : (r / t * t == r)%Q) by (field; lra).
  set (d := (r / t)%Q) in *. clearbody d.
  rewrite <- D in E. split; nra.
Qed.

(** [float(row.average) if row.average else 0.0] over the expenses of a
    month. *)
Lemma average_of_month (l : list Expense) :
  let q := (float_of_decimal (sum_amount l)
            / inject_Z (Z.of_nat (List.length l)))%Q in
  (Qabs (match sql_avg l with
         | Some a => if Qeq_bool a 0 then 0 else b64 a
         | None => 0
         end - q)
   <= (1 # 200) + (Qabs q + (1 # 200)) * ulp_half)%Q.
Proof.
  intros q.
  assert (U : (0 <= ulp_half)%Q) by (unfold ulp_half, Qle; simpl; lia).
  pose proof (Qabs_nonneg q) as A0.
  destruct l as [|x l].
  - assert (E0 : (q == 0)%Q) by reflexivity.
    cbn [sql_avg]. rewrite E0. vm_compute. discriminate.
  - unfold sql_avg. fold q.
    pose proof (numeric_div_error (sum_amount (x :: l))
                  (Z.of_nat (List.length (x :: l)))) as E.
    fold q in E.
    set (a := numeric_div (sum_amount (x :: l)) (Z.of_nat (List.length (x :: l)))) in *.
    clearbody a.
    destruct (Qeq_bool a 0) eqn:Z0.
    + apply Qeq_bool_iff in Z0. rewrite Z0 in E.
      apply Qabs_Qle_condition in E. apply Qabs_Qle_condition. split; nra.
    + pose proof (b64_error a) as B.
      assert (Aa : (Qabs a <= Qabs q + (1 # 200))%Q).
      { apply Qabs_Qle_condition in E.
        apply Qabs_Qle_condition. 
        pose proof (Qle_Qabs q). pose proof (Qle_Qabs (- q)) as Hn.
        rewrite Qabs_opp in Hn. split; lra. }
      apply Qabs_Qle_condition in E, B. apply Qabs_Qle_condition.
      split; nra.
Qed.

Lemma average_is_binary64 (l : list Expense) :
  let average := match sql_avg l with
                 | Some a => if Qeq_bool a 0 then 0%Q else b64 a
                 | None => 0%Q
                 end in
  (b64 average == average)%Q.
Proof.
  cbv zeta. destruct (sql_avg l) as [a|]; [|reflexivity].
  destruct (Qeq_bool a 0); [reflexivity | apply b64_idem].
Qed.

(** X3. Monthly statistics, for a year from 2000 to 2100 and a month from 1
    to 12: the count is the number of the user's expenses dated in the
    month and the total their sum; the average is the total divided by the
    count up to the rounding of the NUMERIC division, at most 0.005, and of
    its conversion to a float, and the serializer moves it by 0.005 at most.
    With no such expense the average is 0.0 and there is no top category;
    otherwise the top category is one that occurs in the month, its amount
    is that category's total, and no category of the month has a larger
    total. *)
Theorem monthly_statistics_of_month session u year month tr :
  2000 <= year <= 2100 ->
  1 <= month <= 12 ->
  let l := month_records session u year month in
  let q := (float_of_decimal (sum_amount l)
            / inject_Z (Z.of_nat (List.length l)))%Q in
  exists stats,
    fst (ExpenseService.get_monthly_statistics session u year month tr) = inr stats
    /\ ExpenseStatisticsModel.expense_count stats = Z.of_nat (List.length l)
    /\ (ExpenseStatisticsModel.total_spending stats
        == float_of_decimal (sum_amount l))%Q
    /\ (Qabs (ExpenseStatisticsModel.average_expense stats - q)
        <= (1 # 200) + (Qabs q + (1 # 200)) * ulp_half)%Q
    /\ (Qabs (ExpenseStatisticsModel.average_expense
                (ExpenseStatisticsModel.serialize stats)
              - ExpenseStatisticsModel.average_expense stats)
        <= 1 # 200)%Q
    /\ match l with
       | [] => ExpenseStatisticsModel.average_expense stats = 0%Q
               /\ ExpenseStatisticsModel.top_category stats = None
               /\ ExpenseStatisticsModel.top_category_amount stats = None
       | _ :: _ =>
           exists c,
             ExpenseStatisticsModel.top_category stats = Some c
             /\ ExpenseStatisticsModel.top_category_amount stats
                = Some (float_of_decimal (category_total l c))
             /\ existsb (in_category c) l = true
             /\ Forall (fun x => category_total l (category x) <= category_total l c) l
       end.
Proof.
  intros _ _ l q.
  unfold ExpenseService.get_monthly_statistics, bind, execute, eval, ret.
  cbn [columns conditions eval_select hd_error fst].
  rewrite selected_month. fold l.
  eexists. split; [reflexivity|].
  cbn [ExpenseStatisticsModel.expense_count ExpenseStatisticsModel.total_spending
       ExpenseStatisticsModel.average_expense ExpenseStatisticsModel.top_category
       ExpenseStatisticsModel.top_category_amount ExpenseStatisticsModel.serialize
       StatisticsRow.total StatisticsRow.average StatisticsRow.expense_count].
  rewrite int_or_zero_id. unfold sql_count.
  split; [reflexivity|]. split; [apply float_or_zero_sum|].
  split; [apply average_of_month|].
  split; [apply round2_binary64_error, average_is_binary64|].
  match goal with
  | |- context [order_by_total session ?t (group_by_category l)] =>
      pose proof (top_of_groups l (order_by_total_perm session t (group_by_category l))
                    (order_by_total_sorted session t (group_by_category l))) as T;
      set (ordered := order_by_total session t (group_by_category l)) in *
  end.
  destruct l as [|x0 l0].
  - rewrite T. split; [reflexivity|]. split; reflexivity.
  - destruct T as (c & rest & -> & Hc & F).
    exists c. cbn. split; [reflexivity|]. split; [reflexivity|].
    split; [exact Hc | exact F].
Qed.

Lemma monthly_statistics_of_month_witness :
  exists stats,
    fst (ExpenseService.get_monthly_statistics
           (stable_session sample_table) 1%N 2025 3 []) = inr stats
    /\ ExpenseStatisticsModel.expense_count stats = 2
    /\ (ExpenseStatisticsModel.total_spending stats == 15)%Q
    /\ (ExpenseStatisticsModel.average_expense stats == 15 / 2)%Q
    /\ ExpenseStatisticsModel.top_category stats = Some FOOD.
Proof.
  destruct (@monthly_statistics_of_month (stable_session sample_table) 1%N 2025 3 [])
    as (stats & H & H1 & H2 & _); [lia | lia |].
  exists stats. split; [exact H|].
  split; [rewrite H1; reflexivity|]. split; [rewrite H2; reflexivity|].
  vm_compute in H. injection H as <-. split; reflexivity.
Defined.

(* ===================================================================== *)
(** ** The category chart and the summary *)
(* ===================================================================== *)

Lemma float_truediv_mono (a b T : Q) :
  (0 < T)%Q -> (a <= b)%Q -> (float_truediv a T <= float_truediv b T)%Q.
Proof.
  intros HT H. unfold float_truediv. apply b64_mono.
  pose proof (b64_pos_sign HT) as P. pose proof (b64_mono H) as M.
  unfold Qdiv. apply Qmult_le_compat_r; [exact M|].
  apply Qlt_le_weak, Qinv_lt_0_compat, P.
Qed.

Lemma float_mul_hundred_mono (x y : Q) :
  (x <= y)%Q -> (float_mul x 100 <= float_mul y 100)%Q.
Proof.
  intros H. unfold float_mul. apply b64_mono.
  rewrite b64_hundred. pose proof (b64_mono H). lra.
Qed.

Lemma percentage_of_mono (T : Q) (a b : CategorySpendingModel.t) :
  amount_desc a b -> (percentage_of T b <= percentage_of T a)%Q.
Proof.
  unfold amount_desc, percentage_of. intros H.
  destruct (Qlt_le_dec 0 T) as [HT|HT]; [|lra].
  apply float_mul_hundred_mono, float_truediv_mono; assumption.
Qed.

Lemma percentage_of_binary64 (T : Q) (a : CategorySpendingModel.t) :
  (b64 (percentage_of T a) == percentage_of T a)%Q.
Proof.
  unfold percentage_of. destruct (Qlt_le_dec 0 T); [|reflexivity].
  unfold float_mul. apply b64_idem.
Qed.

(** A share of a float total that is not exceeded lies between 0 and 100. *)
Lemma percentage_within (a T : Q) :
  (0 <= a)%Q -> (0 < T)%Q -> (b64 T == T)%Q -> (b64 a <= T)%Q ->
  (0 <= float_mul (float_truediv a T) 100
   /\ float_mul (float_truediv a T) 100 <= 100)%Q.
Proof.
  intros Ha HT C H.
  pose proof (b64_nonneg Ha) as A0.
  assert (D0 : (0 <= b64 a / b64 T)%Q)
    by (rewrite C; apply Qle_shift_div_l; [exact HT | lra]).
  assert (D1 : (b64 a / b64 T <= 1)%Q)
    by (rewrite C; apply Qle_shift_div_r; [exact HT | lra]).
  assert (V0 : (0 <= float_truediv a T)%Q) by (apply b64_nonneg, D0).
  assert (V1 : (float_truediv a T <= 1)%Q).
  { unfold float_truediv. rewrite <- b64_one. apply b64_mono, D1. }
  assert (W0 : (0 <= b64 (float_truediv a T))%Q) by (apply b64_nonneg, V0).
  assert (W1 : (b64 (float_truediv a T) <= 1)%Q)
    by (rewrite <- b64_one; apply b64_mono, V1).
  unfold float_mul. split.
  - apply b64_nonneg. rewrite b64_hundred. nra.
  - rewrite <- b64_hundred at 2. apply b64_mono. rewrite b64_hundred. nra.
Qed.

Lemma sum_float_ge (l : list Q) :
  Forall (fun t => 0 <= t)%Q l -> Forall (fun t => b64 t <= sum_float l)%Q l.
Proof.
  intros F. apply (fold_float_add_ge (acc := 0%Q)); [lra | reflexivity | exact F].
Qed.

(** X5. The category chart lists its categories by total_amount and by
    percentage, highest first, and the percentages stay in that order after
    the two-place serialization; when no expense of the window has a
    negative amount every percentage lies between 0 and 100. *)
Theorem chart_percentages_descending session u s e tr :
  exists out,
    fst (ExpenseService.get_category_chart_data session u s e tr) = inr out
    /\ StronglySorted
         (fun a b => (CategoryChartDataModel.total_amount b
                      <= CategoryChartDataModel.total_amount a)%Q) out
    /\ StronglySorted percentage_desc out
    /\ StronglySorted percentage_desc (map CategoryChartDataModel.serialize out)
    /\ (if forallb (fun x => 0 <=? amount x) (records session u s e)
        then Forall (fun c => (0 <= CategoryChartDataModel.percentage c
                               /\ CategoryChartDataModel.percentage c <= 100)%Q) out
        else True).
Proof.
  rewrite get_category_chart_data_run; cbn [fst].
  set (rows := category_rows session tr u s e).
  set (cats := map ExpenseService.category_spending_of_row rows).
  cbv zeta. set (T := sum_float (map CategorySpendingModel.total_amount cats)).
  assert (Sc : StronglySorted amount_desc cats)
    by (apply spending_descending, category_rows_sorted).
  eexists. split; [reflexivity|]. split; [|split; [|split]].
  - eapply StronglySorted_map; [|exact Sc]. intros a b H. exact H.
  - eapply StronglySorted_map; [|exact Sc]. intros a b H.
    unfold percentage_desc; cbn. apply percentage_of_mono, H.
  - rewrite map_map. eapply StronglySorted_map; [|exact Sc]. intros a b H.
    unfold percentage_desc; cbn.
    apply round2_binary64_mono;
      [apply percentage_of_binary64 | apply percentage_of_binary64 |].
    apply percentage_of_mono, H.
  - destruct (forallb _ _) eqn:N; [|exact I].
    assert (F : Forall (fun x => 0 <= amount x) (records session u s e)).
    { apply Forall_forall. intros x Hx. rewrite forallb_forall in N.
      apply Z.leb_le, N, Hx. }
    assert (Fr : Forall (fun z => 0 <= z) (map CategoryRow.total_amount rows)).
    { eapply Permutation_Forall; [|apply (group_totals_nonneg F)].
      apply Permutation_map, Permutation_sym, category_rows_perm. }
    assert (Fq : Forall (fun t => 0 <= t)%Q
                        (map CategorySpendingModel.total_amount cats)).
    { unfold cats. rewrite spending_total_amounts. apply Forall_map.
      eapply Forall_impl; [|exact Fr]. intros z Hz.
      apply float_of_decimal_nonneg, Hz. }
    pose proof (sum_float_ge Fq) as G. fold T in G.
    apply Forall_map, Forall_forall. intros c Hc. cbn.
    unfold percentage_of.
    destruct (Qlt_le_dec 0 T) as [HT|HT]; [|split; lra].
    rewrite Forall_forall in Fq, G.
    apply percentage_within.
    + apply Fq, in_map, Hc.
    + exact HT.
    + apply sum_float_binary64.
    + apply G, in_map, Hc.
Qed.



Lemma records_unbounded session u : records session u None None = expenses_of session u.
Proof.
  unfold records, expenses_of. apply filter_ext. intros x.
  unfold owned_in_window, owned. rewrite !andb_true_r. reflexivity.
Qed.

(** X7. When the limit leaves no bucket out, the time-series response
    accounts for every expense of the user once: there is one data point for
    each bucket and the expense counts of the points add up to the number of
    these expenses; when no expense is negative and they add up to no more
    than ten thousand million, the total_spending it reports after the
    two-place serialization is the sum of all the user's expenses, the
    total_spending that the unbounded summary reports. *)
Theorem series_accounts_for_all period_type limit user session tr tr' :
  let u := UserModel.id user in
  let l := expenses_of session u in
  let keys := bucket_keys_desc (ExpenseService.granularity period_type) l in
  if existsb (String.eqb period_type) Routes.period_types
     && (1 <=? limit) && (limit <=? 100)
     && (Z.of_nat (List.length keys) <=? limit)
  then exists resp summary,
         fst (Routes.get_visualization_data period_type limit user session tr)
         = inr resp
         /\ fst (Routes.get_spending_summary None None user session tr') = inr summary
         /\ ChartVisualizationResponseModel.total_periods resp
            = Z.of_nat (List.length keys)
         /\ py_sum_int (map ChartDataPointModel.expense_count
                            (ChartVisualizationResponseModel.data_points resp))
            = Z.of_nat (List.length l)
         /\ (if forallb (fun x => 0 <=? amount x) l
                && (sum_amount l <=? 1000000000000)
             then (ChartVisualizationResponseModel.total_spending
                     (ChartVisualizationResponseModel.serialize resp)
                   == float_of_decimal (sum_amount l))%Q
                  /\ (ChartVisualizationResponseModel.total_spending
                        (ChartVisualizationResponseModel.serialize resp)
                      == SpendingSummaryModel.total_spending
                           (SpendingSummaryModel.serialize summary))%Q
             else True)
  else True.
Proof.
  intros u l keys.
  destruct (existsb _ _) eqn:Ep; cbn [andb]; [|exact I].
  destruct (Z.leb_spec 1 limit) as [L1|?]; cbn [andb]; [|exact I].
  destruct (Z.leb_spec limit 100) as [L2|?]; cbn [andb]; [|exact I].
  destruct (Z.leb_spec (Z.of_nat (List.length keys)) limit) as [L3|?]; [|exact I].
  apply recognized_period_type in Ep as Hp.
  rewrite (get_visualization_data_run user session tr Hp (conj L1 L2)).
  unfold Routes.get_spending_summary.
  rewrite get_spending_summary_run. cbn [fst]. cbv zeta.
  fold u. fold l. rewrite (kept_keys_all (ExpenseService.granularity period_type) l L3).
  fold keys. set (g := ExpenseService.granularity period_type) in *.
  do 2 eexists. split; [reflexivity|]. split; [reflexivity|].
  cbn [ChartVisualizationResponseModel.total_periods
       ChartVisualizationResponseModel.total_spending
       ChartVisualizationResponseModel.data_points
       ChartVisualizationResponseModel.serialize
       SpendingSummaryModel.total_spending SpendingSummaryModel.serialize].
  assert (N : NoDup (rev keys))
    by (eapply Permutation_NoDup; [apply Permutation_rev | apply bucket_keys_desc_NoDup]).
  assert (C : forall x, In x l -> In (bucket_key g (expense_date x)) (rev keys)).
  { intros x Hx. rewrite <- in_rev. apply bucket_keys_desc_in.
    exists x. split; [exact Hx | reflexivity]. }
  split; [rewrite !length_map, length_rev; reflexivity|].
  split.
  - rewrite py_sum_int_spec, map_map.
    rewrite (Zsum_map_ext _ (fun k => Zsum (map (fun _ => 1) (filter (in_bucket g k) l)))).
    + rewrite (@buckets_partition g (rev keys) l (fun _ => 1) N C), <- length_Zsum.
      reflexivity.
    + intros k. cbn. rewrite int_or_zero_id. unfold sql_count, members.
      apply length_Zsum.
  - destruct (forallb _ l) eqn:NN; cbn [andb]; [|exact I].
    destruct (Z.leb_spec (sum_amount l) 1000000000000) as [M|?]; [|exact I].
    assert (F : Forall (fun x => 0 <= amount x) l).
    { apply Forall_forall. intros x Hx. rewrite forallb_forall in NN.
      apply Z.leb_le, NN, Hx. }
    set (zs := map (fun k => sum_amount (members g l k)) (rev keys)).
    destruct (series_point_totals g l (rev keys)) as [ET _]. fold zs in ET.
    assert (ES : Zsum zs = sum_amount l).
    { unfold zs.
      rewrite (Zsum_map_ext _ (fun k => Zsum (map amount (filter (in_bucket g k) l)))).
      - rewrite (@buckets_partition g (rev keys) l amount N C), <- sum_amount_Zsum.
        reflexivity.
      - intros k. unfold members. apply sum_amount_Zsum. }
    assert (Fz : Forall (fun z => 0 <= z) zs).
    { unfold zs. apply Forall_map, Forall_forall. intros k _.
      apply sum_amount_nonneg. apply Forall_forall. intros x Hx.
      apply filter_In in Hx. rewrite Forall_forall in F. apply F, Hx. }
    assert (Lz : (List.length zs <= 100)%nat)
      by (unfold zs; rewrite length_map, length_rev; lia).
    assert (R : (round2 (sum_float (map ChartDataPointModel.total_amount
                                        (map (series_point g l) (rev keys))))
                 == float_of_decimal (sum_amount l))%Q).
    { rewrite (round2_compat ET), <- ES.
      apply reported_sum_float; [exact Fz | lia | nia]. }
    split; [exact R|].
    rewrite R, records_unbounded. fold l.
    rewrite (round2_compat (float_or_zero_sum _)), round2_float. reflexivity.
Qed.

(* ===================================================================== *)
(** ** What the time series depends on *)
(* ===================================================================== *)

(** Two lists in strictly increasing order with the same elements are the
    same list. *)
Lemma strictly_sorted_unique {A : Type} (R : A -> A -> Prop) (l1 : list A) :
  (forall a, ~ R a a) ->
  (forall a b c, R a b -> R b c -> R a c) ->
  forall l2,
    StronglySorted R l1 -> StronglySorted R l2 ->
    (forall a, In a l1 <-> In a l2) ->
    l1 = l2.
Proof.
  intros Irr Tr. induction l1 as [|x l1 IH]; intros l2 S1 S2 H.
  - destruct l2 as [|y l2]; [reflexivity|].
    exfalso. apply (proj2 (H y)). left. reflexivity.
  - destruct l2 as [|y l2].
    { exfalso. apply (proj1 (H x)). left. reflexivity. }
    inversion S1 as [|? ? S1' F1]; subst. inversion S2 as [|? ? S2' F2]; subst.
    rewrite Forall_forall in F1, F2.
    assert (E : x = y).
    { destruct (proj1 (H x) (or_introl eq_refl)) as [E|Hx]; [congruence|].
      destruct (proj2 (H y) (or_introl eq_refl)) as [E|Hy]; [congruence|].
      exfalso. apply (Irr x). apply Tr with y; [apply F1, Hy | apply F2, Hx]. }
    subst y. f_equal. apply IH; [assumption | assumption|].
    intros a. split; intros Ha.
    + destruct (proj1 (H a) (or_intror Ha)) as [E|Ha']; [|exact Ha'].
      subst a. exfalso. apply (Irr x), F1, Ha.
    + destruct (proj2 (H a) (or_intror Ha)) as [E|Ha']; [|exact Ha'].
      subst a. exfalso. apply (Irr x), F2, Ha.
Qed.

Lemma bucket_keys_desc_permuted (g : Granularity) (l1 l2 : list Expense) :
  Permutation l1 l2 -> bucket_keys_desc g l1 = bucket_keys_desc g l2.
Proof.
  intros P.
  apply (@strictly_sorted_unique _ (fun a b => key_lt b a)).
  - intros a. apply key_lt_irrefl.
  - intros a b c H1 H2. apply key_lt_trans with b; assumption.
  - apply bucket_keys_desc_sorted.
  - apply bucket_keys_desc_sorted.
  - intros k. rewrite !bucket_keys_desc_in. split; intros (x & Hx & E); exists x;
      (split; [|exact E]).
    + eapply Permutation_in; [exact P | exact Hx].
    + eapply Permutation_in; [apply Permutation_sym, P | exact Hx].
Qed.

Lemma sum_amount_perm (l1 l2 : list Expense) :
  Permutation l1 l2 -> sum_amount l1 = sum_amount l2.
Proof. induction 1; simpl; lia. Qed.

Lemma Permutation_filter {A : Type} (p : A -> bool) (l1 l2 : list A) :
  Permutation l1 l2 -> Permutation (filter p l1) (filter p l2).
Proof.
  induction 1 as [|x l1 l2 P IH|x y l|l1 l2 l3 P1 IH1 P2 IH2]; simpl.
  - constructor.
  - destruct (p x); [constructor|]; exact IH.
  - destruct (p x), (p y); try apply Permutation_refl. apply perm_swap.
  - eapply perm_trans; eassumption.
Qed.

Lemma sql_sum_perm (l1 l2 : list Expense) :
  Permutation l1 l2 -> sql_sum l1 = sql_sum l2.
Proof.
  intros P. pose proof (sum_amount_perm P) as E.
  pose proof (Permutation_length P) as L.
  destruct l1, l2; try discriminate L; [reflexivity|].
  unfold sql_sum. rewrite E. reflexivity.
Qed.

Lemma group_by_bucket_permuted (g : Granularity) (l1 l2 : list Expense) :
  Permutation l1 l2 -> group_by_bucket g l1 = group_by_bucket g l2.
Proof.
  intros P. unfold group_by_bucket.
  rewrite (bucket_keys_desc_permuted g P). apply map_ext. intros k.
  unfold bucket_row.
  pose proof (Permutation_filter (in_bucket g k) P) as Pf.
  rewrite (sql_sum_perm Pf). unfold sql_count.
  rewrite (Permutation_length Pf). reflexivity.
Qed.

(** X8. The time series of a user is settled by that user's expenses as a bag:
    two sessions whose rows for the user are rearrangements of one another
    give the same outcome, whatever the rows of other users, the engines and
    the statements executed before. *)
Theorem series_depends_on_own_rows (s1 s2 : AsyncSession) u period_type limit tr1 tr2 :
  Permutation (expenses_of s1 u) (expenses_of s2 u) ->
  fst (ExpenseService.get_expenses_for_visualization s1 u period_type limit tr1)
  = fst (ExpenseService.get_expenses_for_visualization s2 u period_type limit tr2).
Proof.
  intros P.
  unfold ExpenseService.get_expenses_for_visualization, bind, execute, eval, lift.
  cbn [columns conditions eval_select].
  rewrite !selected_user.
  rewrite (group_by_bucket_permuted (ExpenseService.granularity period_type) P).
  destruct (sql_limit limit _); reflexivity.
Qed.

Lemma series_depends_on_own_rows_witness :
  fst (ExpenseService.get_expenses_for_visualization
         (stable_session sample_table) 1%N "month" 12 [])
  = fst (ExpenseService.get_expenses_for_visualization
           (alternating_session shuffled_table) 1%N "month" 12
           [series_statement 1%N "day" 3]).
Proof.
  apply series_depends_on_own_rows.
  vm_compute. apply Permutation_rev with (l := [_; _; _]).
Defined.

(* ===================================================================== *)
(** ** Windows, serialization and the limit *)
(* ===================================================================== *)

Lemma datetime_leb_trans (a b c : datetime) :
  datetime_leb a b = true -> datetime_leb b c = true -> datetime_leb a c = true.
Proof. rewrite !datetime_leb_spec. lia. Qed.

(** X9. A window whose end lies before its start selects nothing: the category
    list is empty and the summary reports 0.0 and 0, without an error. *)
Theorem inverted_window_is_empty session u start_date end_date tr :
  if datetime_leb start_date end_date then True
  else fst (ExpenseService.get_spending_by_category session u
              (Some start_date) (Some end_date) tr) = inr []
       /\ fst (ExpenseService.get_spending_summary session u
                 (Some start_date) (Some end_date) tr)
          = inr (SpendingSummaryModel.make 0%Q 0 []
                   (Some start_date) (Some end_date)).
Proof.
  destruct (datetime_leb start_date end_date) eqn:E; [exact I|].
  assert (R : records session u (Some start_date) (Some end_date) = []).
  { unfold records.
    induction (table session) as [|x l IH]; [reflexivity|].
    simpl. rewrite IH. unfold owned_in_window.
    destruct (datetime_leb start_date (expense_date x)) eqn:E1;
      [|rewrite andb_false_r; reflexivity].
    destruct (datetime_leb (expense_date x) end_date) eqn:E2;
      [|rewrite andb_false_r; reflexivity].
    rewrite (datetime_leb_trans _ _ _ E1 E2) in E. discriminate E. }
  rewrite get_spending_by_category_run, get_spending_summary_run; cbn [fst].
  rewrite !(category_rows_empty _ _ _ _ _ R), R. split; reflexivity.
Qed.

(** X10. The totals of group-by-category are sums of two-place amounts, so the
    two-place serializer returns them as they are; and serializing a chart
    entry a second time changes nothing. *)
Theorem serialization_keeps_totals session u s e tr :
  (exists out,
     fst (ExpenseService.get_spending_by_category session u s e tr) = inr out
     /\ map CategorySpendingModel.serialize out = out)
  /\ (forall m,
        CategoryChartDataModel.serialize (CategoryChartDataModel.serialize m)
        = CategoryChartDataModel.serialize m).
Proof.
  split.
  - rewrite get_spending_by_category_run; cbn [fst].
    eexists. split; [reflexivity|].
    rewrite map_map. apply map_ext. intros r.
    unfold CategorySpendingModel.serialize, ExpenseService.category_spending_of_row.
    cbn. rewrite round2_float. reflexivity.
  - intros m. unfold CategoryChartDataModel.serialize. cbn.
    f_equal; apply round2_idem.
Qed.

(** X11. The time-series handler refuses a limit outside 1..100 before anything is
    executed, whatever the period_type; with a limit in range and a
    recognized period_type it executes exactly the one statement of the
    service. *)
Theorem visualization_limit_bounds period_type limit user session tr :
  if (1 <=? limit) && (limit <=? 100)
  then if existsb (String.eqb period_type) Routes.period_types
       then snd (Routes.get_visualization_data period_type limit user session tr)
            = tr ++ [series_statement (UserModel.id user) period_type limit]
       else True
  else Routes.get_visualization_data period_type limit user session tr
       = (inl (RequestValidationError "limit"), tr).
Proof.
  unfold Routes.get_visualization_data, bind, query_bounds.
  destruct (1 <=? limit); cbn [andb ret raise]; [|reflexivity].
  destruct (limit <=? 100); cbn [andb ret raise]; [|reflexivity].
  destruct (existsb _ _) eqn:E; [|exact I]. cbn [negb].
  pose proof (get_expenses_for_visualization_trace session (UserModel.id user)
                period_type limit tr) as T.
  destruct (ExpenseService.get_expenses_for_visualization _ _ _ _ _)
    as [[err|points] tr1]; cbn [snd] in *; exact T.
Qed.

(* ===================================================================== *)
(** ** Looking up, creating and deleting an expense *)
(* ===================================================================== *)

Lemma hd_error_filter {A : Type} (p : A -> bool) (l : list A) :
  match hd_error (filter p l) with
  | Some a => In a l /\ p a = true
  | None => Forall (fun a => p a = false) l
  end.
Proof.
  induction l as [|a l IH]; simpl; [constructor|].
  destruct (p a) eqn:E; simpl.
  - split; [left; reflexivity | exact E].
  - destruct (hd_error (filter p l)).
    + split; [right; apply IH | apply IH].
    + constructor; assumption.
Qed.

Lemma id_and_owner_spec expense_id owner e :
  id_and_owner expense_id owner e = true <-> id e = expense_id /\ user_id e = owner.
Proof.
  unfold id_and_owner. rewrite andb_true_iff, !N.eqb_eq. tauto.
Qed.

Lemma lookup_found session expense_id owner e :
  ExpenseRecords.get_expense_by_id session expense_id owner = Some e ->
  In e (table session) /\ id e = expense_id /\ user_id e = owner.
Proof.
  unfold ExpenseRecords.get_expense_by_id. intros G.
  pose proof (hd_error_filter (id_and_owner expense_id owner) (table session)) as H.
  rewrite G in H. destruct H as [Hin Hp]. apply id_and_owner_spec in Hp. tauto.
Qed.

(** X12. Looking up an expense by id for a user returns a row of the table with
    that id and that owner, or nothing when the table has no such row: an
    expense of another user is never returned. *)
Theorem lookup_is_owner_scoped session expense_id owner :
  match ExpenseRecords.get_expense_by_id session expense_id owner with
  | Some e => In e (table session) /\ id e = expense_id /\ user_id e = owner
  | None => Forall (fun e => id_and_owner expense_id owner e = false) (table session)
  end.
Proof.
  unfold ExpenseRecords.get_expense_by_id.
  pose proof (hd_error_filter (id_and_owner expense_id owner) (table session)) as H.
  destruct (hd_error _) as [e|]; [|exact H].
  destruct H as [Hin Hp]. apply id_and_owner_spec in Hp. tauto.
Qed.

Lemma filter_filter {A : Type} (p q : A -> bool) (l : list A) :
  filter p (filter q l) = filter (fun a => q a && p a) l.
Proof.
  induction l as [|a l IH]; simpl; [reflexivity|].
  destruct (q a); simpl; [destruct (p a); rewrite IH; reflexivity | exact IH].
Qed.

Lemma lookup_in_own_rows session expense_id owner :
  ExpenseRecords.get_expense_by_id session expense_id owner
  = hd_error (filter (has_id expense_id) (expenses_of session owner)).
Proof.
  unfold ExpenseRecords.get_expense_by_id, expenses_of.
  rewrite filter_filter. f_equal. apply filter_ext. intros x.
  unfold id_and_owner, owned, has_id. apply andb_comm.
Qed.

(** X13. The read handler answers from the user's own rows alone: two sessions
    that hold the same expenses of the user give the same response, so an
    expense of somebody else is answered like one that does not exist. *)
Theorem read_depends_on_own_rows (s1 s2 : AsyncSession) expense_id user :
  expenses_of s1 (UserModel.id user) = expenses_of s2 (UserModel.id user) ->
  RecordRoutes.get_expense expense_id user s1
  = RecordRoutes.get_expense expense_id user s2.
Proof.
  intros H. unfold RecordRoutes.get_expense.
  rewrite !lookup_in_own_rows, H. reflexivity.
Qed.

Lemma read_depends_on_own_rows_witness :
  RecordRoutes.get_expense 14%N (UserModel.make 1%N) (stable_session keyed_table)
  = inl RecordRoutes.not_found
  /\ RecordRoutes.get_expense 14%N (UserModel.make 1%N)
       (stable_session (firstn 3 keyed_table))
     = inl RecordRoutes.not_found.
Proof.
  rewrite (@read_depends_on_own_rows (stable_session keyed_table)
             (stable_session (firstn 3 keyed_table)) 14%N (UserModel.make 1%N));
    [|reflexivity].
  split; reflexivity.
Defined.

Lemma lookup_app session rows expense_id owner :
  ExpenseRecords.get_expense_by_id (with_table session rows) expense_id owner
  = hd_error (filter (id_and_owner expense_id owner) rows).
Proof. reflexivity. Qed.

Lemma filter_none {A : Type} (p : A -> bool) (l : list A) :
  existsb p l = false -> filter p l = [].
Proof. apply existsb_false_filter. Qed.

Lemma existsb_id_and_owner expense_id owner l :
  existsb (has_id expense_id) l = false ->
  existsb (id_and_owner expense_id owner) l = false.
Proof.
  induction l as [|x l IH]; simpl; [reflexivity|].
  intros H. apply orb_false_iff in H. destruct H as [H1 H2].
  rewrite (IH H2). unfold id_and_owner. unfold has_id in H1. rewrite H1.
  reflexivity.
Qed.

Lemma create_expense_cases env session owner data :
  match ExpenseRecords.create_expense env session owner data with
  | (inr e, session') =>
      created_as env owner data e
      /\ session' = with_table session (table session ++ [e])
      /\ existsb (has_id (id e)) (table session) = false
  | (inl err, session') => session' = session
  end.
Proof.
  unfold ExpenseRecords.create_expense.
  destruct (string_100 (ExpenseCreateModel.title data)) as [err|t] eqn:Et;
    [reflexivity|].
  destruct (Env.numeric env (ExpenseCreateModel.amount data)) as [err|cents] eqn:En;
    [reflexivity|].
  destruct (existsb (has_id (Env.uuid4 env)) (table session)) eqn:Ex; [reflexivity|].
  destruct (existsb (N.eqb owner) (users session)); cbn [negb]; [|reflexivity].
  assert (Ett : t = ExpenseCreateModel.title data).
  { unfold string_100 in Et. destruct (_ <=? _)%nat; congruence. }
  subst t. cbn [id]. split; [|split; [reflexivity | exact Ex]].
  unfold created_as; cbn; repeat split; exact En.
Qed.

Lemma lookup_appended session owner e :
  existsb (has_id (id e)) (table session) = false ->
  user_id e = owner ->
  ExpenseRecords.get_expense_by_id (with_table session (table session ++ [e]))
    (id e) owner = Some e.
Proof.
  intros Ex Ho. rewrite lookup_app, filter_app.
  rewrite (filter_none _ _ (existsb_id_and_owner _ owner _ Ex)).
  cbn. unfold id_and_owner. rewrite Ho, !N.eqb_refl. reflexivity.
Qed.

(** X14. Creating an expense either fails and leaves the table as it was, or
    appends one row: the expense returned, owned by the caller, dated as
    asked or at the current time when no date is given.  The caller then
    finds it under its id, and every other lookup is answered as before. *)
Theorem create_expense_stores env session owner data :
  match ExpenseRecords.create_expense env session owner data with
  | (inr e, session') =>
      created_as env owner data e
      /\ table session' = table session ++ [e]
      /\ ExpenseRecords.get_expense_by_id session' (id e) owner = Some e
      /\ (forall expense_id other,
            if N.eqb expense_id (Env.uuid4 env) then True
            else ExpenseRecords.get_expense_by_id session' expense_id other
                 = ExpenseRecords.get_expense_by_id session expense_id other)
  | (inl err, session') => session' = session
  end.
Proof.
  pose proof (create_expense_cases env session owner data) as C.
  destruct (ExpenseRecords.create_expense env session owner data)
    as [[err|e] session']; [exact C|].
  destruct C as (Cr & -> & Ex).
  split; [exact Cr|]. split; [reflexivity|].
  destruct Cr as (Ei & Eo & _). split.
  - apply lookup_appended; assumption.
  - intros expense_id other. destruct (N.eqb_spec expense_id (Env.uuid4 env)) as [|N];
      [exact I|].
    rewrite lookup_app, filter_app. unfold ExpenseRecords.get_expense_by_id.
    cbn [filter]. unfold id_and_owner at 2. rewrite Ei.
    destruct (N.eqb_spec (Env.uuid4 env) expense_id); [congruence|].
    cbn. rewrite app_nil_r. reflexivity.
Qed.

Lemma records_app session rows owner s e :
  records (with_table session rows) owner s e = filter (owned_in_window owner s e) rows.
Proof. reflexivity. Qed.

Lemma sum_amount_app (l1 l2 : list Expense) :
  sum_amount (l1 ++ l2) = sum_amount l1 + sum_amount l2.
Proof. induction l1 as [|x l1 IH]; simpl; [reflexivity | rewrite IH; lia]. Qed.

(** X15. After a creation the summary of any user over any window has grown by
    the stored amount and by one expense when the new expense is that
    user's and falls in the window, and is as before otherwise; so the
    summaries of other users do not change. *)
Theorem create_adds_to_summary env session owner data reader s e tr tr' :
  match ExpenseRecords.create_expense env session owner data with
  | (inr new, session') =>
      exists before after,
        fst (ExpenseService.get_spending_summary session reader s e tr) = inr before
        /\ fst (ExpenseService.get_spending_summary session' reader s e tr')
           = inr after
        /\ (SpendingSummaryModel.total_spending after
            == SpendingSummaryModel.total_spending before
               + (if owned_in_window reader s e new
                  then float_of_decimal (amount new) else 0))%Q
        /\ SpendingSummaryModel.expense_count after
           = SpendingSummaryModel.expense_count before
             + (if owned_in_window reader s e new then 1 else 0)
        /\ (if N.eqb reader owner then True
            else owned_in_window reader s e new = false)
  | (inl err, session') => True
  end.
Proof.
  pose proof (create_expense_cases env session owner data) as C.
  destruct (ExpenseRecords.create_expense env session owner data)
    as [[err|new] session']; [exact I|].
  destruct C as (Cr & Ct & _).
  apply (f_equal table) in Ct. cbn [table with_table] in Ct.
  rewrite !get_spending_summary_run; cbn [fst].
  do 2 eexists. split; [reflexivity|]. split; [reflexivity|].
  cbn [SpendingSummaryModel.total_spending SpendingSummaryModel.expense_count].
  assert (R : records session' reader s e
              = records session reader s e
                ++ (if owned_in_window reader s e new then [new] else [])).
  { unfold records. rewrite Ct, filter_app. cbn [filter].
    destruct (owned_in_window reader s e new); reflexivity. }
  rewrite !float_or_zero_sum, !int_or_zero_id, R, sum_amount_app.
  unfold sql_count. rewrite length_app.
  split; [|split].
  - destruct (owned_in_window reader s e new); simpl sum_amount;
      unfold float_of_decimal, Qeq, Qplus; simpl; lia.
  - destruct (owned_in_window reader s e new); simpl List.length; lia.
  - destruct (N.eqb_spec reader owner) as [|N]; [exact I|].
    unfold owned_in_window. destruct Cr as (_ & Eo & _). rewrite Eo.
    destruct (N.eqb_spec owner reader); [congruence | reflexivity].
Qed.

Lemma filter_negb_perm {A : Type} (p : A -> bool) (l : list A) :
  Permutation l (filter p l ++ filter (fun a => negb (p a)) l).
Proof.
  induction l as [|a l IH]; simpl; [constructor|].
  destruct (p a); simpl.
  - constructor. exact IH.
  - apply Permutation_cons_app. exact IH.
Qed.

Lemma has_id_unique (l : list Expense) (e : Expense) :
  NoDup (map id l) -> In e l -> filter (has_id (id e)) l = [e].
Proof.
  induction l as [|x l IH]; intros N H; [destruct H|].
  inversion N as [|? ? Nx N']; subst. simpl. unfold has_id at 1.
  destruct H as [->|H].
  - rewrite N.eqb_refl. f_equal.
    apply existsb_false_filter. apply not_true_is_false. intros E.
    apply existsb_exists in E. destruct E as (y & Hy & E).
    unfold has_id in E. apply N.eqb_eq in E.
    apply Nx. rewrite <- E. apply in_map, Hy.
  - destruct (N.eqb_spec (id x) (id e)) as [E|_].
    + exfalso. apply Nx. rewrite E. apply in_map, H.
    + apply IH; assumption.
Qed.

(** X16. Deleting an expense that the user does not own, or that does not exist,
    is answered with 404 and changes nothing.  Deleting one that the user
    owns removes the rows with its id -- with unique ids exactly that one
    row, all others staying -- after which nobody finds it. *)
Theorem delete_removes_own_row session expense_id user :
  unique_ids session ->
  match ExpenseRecords.get_expense_by_id session expense_id (UserModel.id user) with
  | None =>
      RecordRoutes.delete_expense expense_id user session
      = (inl RecordRoutes.not_found, session)
  | Some e =>
      exists session',
        RecordRoutes.delete_expense expense_id user session
        = (inr (ExpenseDeleteResponse.make "Expense deleted successfully" "success"),
           session')
        /\ Permutation (table session) (e :: table session')
        /\ table session' = filter (fun x => negb (has_id expense_id x)) (table session)
        /\ forall other,
             ExpenseRecords.get_expense_by_id session' expense_id other = None
  end.
Proof.
  intros U.
  unfold RecordRoutes.delete_expense, ExpenseRecords.delete_expense.
  destruct (ExpenseRecords.get_expense_by_id session expense_id (UserModel.id user))
    as [e|] eqn:G; [|reflexivity].
  destruct (lookup_found _ _ _ G) as (Hin & Hid & _). subst expense_id.
  eexists. split; [reflexivity|]. cbn [table with_table].
  split; [|split; [reflexivity|]].
  - eapply perm_trans; [apply (filter_negb_perm (has_id (id e)))|].
    rewrite (@has_id_unique (table session) e U Hin). apply Permutation_refl.
  - intros other. unfold ExpenseRecords.get_expense_by_id. cbn [table with_table].
    rewrite filter_filter.
    rewrite existsb_false_filter; [reflexivity|].
    apply not_true_is_false. intros E. apply existsb_exists in E.
    destruct E as (x & _ & E). unfold id_and_owner, has_id in E.
    destruct (N.eqb (id x) (id e)); discriminate E.
Qed.

Lemma delete_removes_own_row_witness :
  exists session',
    RecordRoutes.delete_expense 12%N (UserModel.make 1%N) (stable_session keyed_table)
    = (inr (ExpenseDeleteResponse.make "Expense deleted successfully" "success"),
       session')
    /\ RecordRoutes.delete_expense 14%N (UserModel.make 1%N)
         (stable_session keyed_table)
       = (inl RecordRoutes.not_found, stable_session keyed_table).
Proof.
  assert (U : unique_ids (stable_session keyed_table)).
  { unfold unique_ids. vm_compute.
    repeat (constructor; [simpl; intuition discriminate|]). constructor. }
  pose proof (@delete_removes_own_row (stable_session keyed_table) 12%N
                (UserModel.make 1%N) U) as H1.
  pose proof (@delete_removes_own_row (stable_session keyed_table) 14%N
                (UserModel.make 1%N) U) as H2.
  cbv beta iota delta [ExpenseRecords.get_expense_by_id] in H1, H2.
  cbn in H1, H2.
  destruct H1 as (session' & H1 & _).
  exists session'. split; [exact H1 | exact H2].
Defined.

(** X17. An expense that has just been created can be deleted by its owner, and
    the table is then what it was before the creation. *)
Theorem create_then_delete env session owner data :
  match ExpenseRecords.create_expense env session owner data with
  | (inr e, session') =>
      exists session'',
        ExpenseRecords.delete_expense session' (id e) owner = (inr true, session'')
        /\ table session'' = table session
  | (inl err, session') => session' = session
  end.
Proof.
  pose proof (create_expense_cases env session owner data) as C.
  destruct (ExpenseRecords.create_expense env session owner data)
    as [[err|e] session']; [exact C|].
  destruct C as ((_ & Eo & _) & -> & Ex).
  unfold ExpenseRecords.delete_expense.
  rewrite (@lookup_appended session owner e Ex Eo).
  eexists. split; [reflexivity|].
  cbn [table with_table]. rewrite filter_app. cbn [filter].
  unfold has_id at 2. rewrite N.eqb_refl. cbn [negb].
  rewrite app_nil_r.
  induction (table session) as [|x l IH]; [reflexivity|].
  simpl in Ex. apply orb_false_iff in Ex. destruct Ex as [E1 E2].
  simpl. rewrite E1. cbn [negb]. rewrite (IH E2). reflexivity.
Qed.

(** X18. The creation handler refuses data that breaks the field constraints
    before the table is touched; for valid data the title fits the column,
    so the outcome is decided by the conversion of the amount, by the
    freshness of the id and by the presence of the user among the users that
    the foreign key refers to, and on success the response carries the
    stored expense with the message of the handler. *)
Theorem create_handler_outcomes env data user session :
  if ExpenseCreateModel.valid data
  then match Env.numeric env (ExpenseCreateModel.amount data) with
       | inl err =>
           RecordRoutes.create_expense env data user session = (inl err, session)
       | inr cents =>
           if existsb (has_id (Env.uuid4 env)) (table session)
              || negb (existsb (N.eqb (UserModel.id user)) (users session))
           then exists detail,
                  RecordRoutes.create_expense env data user session
                  = (inl (DBAPIError detail), session)
           else exists e,
                  RecordRoutes.create_expense env data user session
                  = (inr (ExpenseMessageResponse.make "Expense created successfully"
                            "success" e),
                     with_table session (table session ++ [e]))
                  /\ created_as env (UserModel.id user) data e
                  /\ amount e = cents
                  /\ (1 <= String.length (title e) <= 100)%nat
       end
  else RecordRoutes.create_expense env data user session
       = (inl (RequestValidationError "expense_data"), session).
Proof.
  unfold RecordRoutes.create_expense.
  destruct (ExpenseCreateModel.valid data) eqn:V; [|reflexivity]. cbn [negb].
  unfold ExpenseCreateModel.valid in V.
  apply andb_true_iff in V. destruct V as [V _].
  apply andb_true_iff in V. destruct V as [V _].
  apply andb_true_iff in V. destruct V as [V1 V2].
  apply Nat.leb_le in V1, V2.
  pose proof (create_expense_cases env session (UserModel.id user) data) as C.
  unfold ExpenseRecords.create_expense in *. unfold string_100 in *.
  destruct (Nat.leb_spec (String.length (ExpenseCreateModel.title data)) 100);
    [|lia].
  destruct (Env.numeric env (ExpenseCreateModel.amount data)) as [err|cents];
    [reflexivity|].
  destruct (existsb (has_id (Env.uuid4 env)) (table session));
    [eexists; reflexivity|].
  destruct (existsb (N.eqb (UserModel.id user)) (users session));
    cbn [negb orb] in *; [|eexists; reflexivity].
  destruct C as (C & _).
  eexists. split; [reflexivity|]. split; [exact C|]. split; [reflexivity|].
  cbn [title]. lia.
Qed.

(* ===================================================================== *)
(** ** Updating an expense *)
(* ===================================================================== *)

Lemma datetime_eqb_eq (a b : datetime) : datetime_eqb a b = true -> a = b.
Proof.
  unfold datetime_eqb. rewrite !andb_true_iff, !Z.eqb_eq.
  destruct a, b; simpl. intros [[[-> ->] ->] ->]. reflexivity.
Qed.

Lemma category_eqb_eq (a b : ExpenseCategory) : category_eqb a b = true -> a = b.
Proof. unfold category_eqb. destruct (ExpenseCategory_eq_dec a b); congruence. Qed.

Lemma option_eqb_eq (a b : option string) : option_eqb String.eqb a b = true -> a = b.
Proof.
  destruct a, b; simpl; try congruence. intros H. apply String.eqb_eq in H. congruence.
Qed.

Lemma set_column_field {A : Type} (column : string) (same : A -> A -> bool)
    (f : Field A) (old new : A) :
  (forall a b, same a b = true -> a = b) ->
  set_column column inr (changed same f old) old = inr new ->
  field_set f old new.
Proof.
  intros Hs. destruct f as [|[v|]]; simpl.
  - congruence.
  - destruct (same v old) eqn:E; simpl; [|congruence].
    apply Hs in E. congruence.
  - discriminate.
Qed.

Lemma set_title_field (f : Field string) (old new : string) :
  set_column "title" string_100 (changed String.eqb f old) old = inr new ->
  field_set f old new.
Proof.
  destruct f as [|[v|]]; simpl.
  - congruence.
  - destruct (String.eqb_spec v old) as [E|E]; simpl; [congruence|].
    unfold string_100. destruct (_ <=? _)%nat; congruence.
  - discriminate.
Qed.

Lemma set_amount_field (env : Env.t) (f : Field Q) (old new : Z) :
  set_column "amount" (Env.numeric env) (changed same_amount f old) old = inr new ->
  amount_set env f old new.
Proof.
  destruct f as [|[q|]]; simpl.
  - congruence.
  - destruct (same_amount q old); simpl; [congruence | auto].
  - discriminate.
Qed.

Lemma lookup_after_replace (i o : UUID) (e' : Expense) (l : list Expense) :
  id e' = i -> user_id e' = o ->
  is_some (hd_error (filter (id_and_owner i o) l)) = true ->
  hd_error (filter (id_and_owner i o) (map (fun x => if has_id i x then e' else x) l))
  = Some e'.
Proof.
  intros Hi Ho. assert (M : id_and_owner i o e' = true)
    by (apply id_and_owner_spec; split; assumption).
  induction l as [|x l IH]; cbn [map filter]; [discriminate|].
  destruct (has_id i x) eqn:Hx.
  - rewrite M. intros _. reflexivity.
  - assert (F : id_and_owner i o x = false).
    { unfold id_and_owner. unfold has_id in Hx. rewrite Hx. reflexivity. }
    rewrite F. exact IH.
Qed.

(** X19. A partial update fails or finds nothing and leaves the table as it was,
    or it rewrites the expense of the user with the given id: id, owner and
    creation time stay, every field left out of the request stays, every
    field given takes the value given (the amount after conversion), a null
    is taken only by the description, the table holds the new row in place
    of the old one, and the user finds the new row under the id. *)
Theorem update_changes_given_fields env session expense_id owner data :
  match ExpenseRecords.update_expense env session expense_id owner data with
  | (inr (Some e'), session') =>
      exists e,
        ExpenseRecords.get_expense_by_id session expense_id owner = Some e
        /\ id e' = id e /\ user_id e' = user_id e /\ created_at e' = created_at e
        /\ field_set (ExpenseUpdateModel.title data) (title e) (title e')
        /\ amount_set env (ExpenseUpdateModel.amount data) (amount e) (amount e')
        /\ field_set (ExpenseUpdateModel.category data) (category e) (category e')
        /\ nullable_set (ExpenseUpdateModel.description data)
             (description e) (description e')
        /\ field_set (ExpenseUpdateModel.expense_date data)
             (expense_date e) (expense_date e')
        /\ (updated_at e' = updated_at e
            \/ updated_at e' = Env.updated_at_default env)
        /\ table session'
           = map (fun x => if has_id expense_id x then e' else x) (table session)
        /\ ExpenseRecords.get_expense_by_id session' expense_id owner = Some e'
  | (inr None, session') =>
      session' = session
      /\ ExpenseRecords.get_expense_by_id session expense_id owner = None
  | (inl err, session') => session' = session
  end.
Proof.
  unfold ExpenseRecords.update_expense.
  destruct (ExpenseRecords.get_expense_by_id session expense_id owner) as [e|] eqn:G;
    [|split; reflexivity].
  destruct (lookup_found _ _ _ G) as (Hin & Hid & Hown).
  destruct (set_column "title" _ _ _) as [err|t'] eqn:Et; [reflexivity|].
  destruct (set_column "amount" _ _ _) as [err|a'] eqn:Ea; [reflexivity|].
  destruct (set_column "category" _ _ _) as [err|c'] eqn:Ec; [reflexivity|].
  destruct (set_column "expense_date" _ _ _) as [err|d'] eqn:Ed; [reflexivity|].
  exists e. split; [reflexivity|].
  cbn [id user_id title amount category description expense_date created_at
       updated_at table with_table].
  split; [reflexivity|]. split; [reflexivity|]. split; [reflexivity|].
  split; [apply set_title_field, Et|].
  split; [apply set_amount_field, Ea|].
  split; [eapply set_column_field; [apply category_eqb_eq | exact Ec]|].
  split.
  { unfold changed_nullable, nullable_set.
    destruct (ExpenseUpdateModel.description data) as [|v]; [reflexivity|].
    destruct (option_eqb String.eqb v (description e)) eqn:E; [|reflexivity].
    symmetry. apply option_eqb_eq, E. }
  split; [eapply set_column_field; [apply datetime_eqb_eq | exact Ed]|].
  split; [destruct (_ || _); [right | left]; reflexivity|].
  rewrite Hid. split; [reflexivity|].
  unfold ExpenseRecords.get_expense_by_id in *. cbn [table with_table].
  apply lookup_after_replace; [reflexivity | exact Hown | rewrite G; reflexivity].
Qed.

Lemma expense_eta (e : Expense) :
  mk_Expense (id e) (owner_of e) (title e) (amount e) (category e) (description e)
    (expense_date e) (created_at e) (updated_at e) = e.
Proof. destruct e; reflexivity. Qed.

Lemma replace_by_itself (l : list Expense) (e : Expense) :
  NoDup (map id l) -> In e l ->
  map (fun x => if has_id (id e) x then e else x) l = l.
Proof.
  intros N H. rewrite <- (map_id l) at 2. apply map_ext_in. intros x Hx.
  destruct (has_id (id e) x) eqn:E; [|reflexivity].
  unfold has_id in E. apply N.eqb_eq in E.
  pose proof (@has_id_unique l e N H) as U.
  assert (Hf : In x (filter (has_id (id e)) l)).
  { apply filter_In. split; [exact Hx|]. unfold has_id. apply N.eqb_eq, E. }
  rewrite U in Hf. destruct Hf as [<-|[]]. reflexivity.
Qed.

(** X20. A partial update that leaves every field out, or gives values that
    compare equal to the stored ones -- an amount does when the float is
    exactly the stored decimal, as 5.0 is 5.00 and 0.1 is not 0.10 --
    returns the expense as it is and leaves every row, the update time
    included, as it was. *)
Theorem update_restating_is_identity env session expense_id owner data e :
  unique_ids session ->
  ExpenseRecords.get_expense_by_id session expense_id owner = Some e ->
  restates data e = true ->
  exists session',
    ExpenseRecords.update_expense env session expense_id owner data
    = (inr (Some e), session')
    /\ table session' = table session.
Proof.
  intros U G R.
  destruct (lookup_found _ _ _ G) as (Hin & Hid & _).
  unfold ExpenseRecords.update_expense. rewrite G.
  unfold restates in R. rewrite !andb_true_iff in R.
  destruct R as [[[[Rt Ra] Rc] Rd] Re].
  assert (Ht : changed String.eqb (ExpenseUpdateModel.title data) (title e) = None).
  { destruct (ExpenseUpdateModel.title data) as [|[v|]]; simpl;
      [reflexivity | rewrite Rt; reflexivity | discriminate]. }
  assert (Ha : changed same_amount (ExpenseUpdateModel.amount data) (amount e)
               = None).
  { destruct (ExpenseUpdateModel.amount data) as [|[v|]]; simpl;
      [reflexivity | rewrite Ra; reflexivity | discriminate]. }
  assert (Hc : changed category_eqb (ExpenseUpdateModel.category data) (category e)
               = None).
  { destruct (ExpenseUpdateModel.category data) as [|[v|]]; simpl;
      [reflexivity | rewrite Rc; reflexivity | discriminate]. }
  assert (Hd : changed_nullable String.eqb (ExpenseUpdateModel.description data)
                 (description e) = None).
  { destruct (ExpenseUpdateModel.description data) as [|v]; simpl;
      [reflexivity | rewrite Rd; reflexivity]. }
  assert (He : changed datetime_eqb (ExpenseUpdateModel.expense_date data)
                 (expense_date e) = None).
  { destruct (ExpenseUpdateModel.expense_date data) as [|[v|]]; simpl;
      [reflexivity | rewrite Re; reflexivity | discriminate]. }
  rewrite Ht, Ha, Hc, Hd, He. cbn [set_column is_some orb].
  rewrite expense_eta.
  eexists. split; [reflexivity|]. cbn [table with_table].
  apply replace_by_itself; assumption.
Qed.

Lemma update_restating_is_identity_witness :
  ExpenseUpdateModel.valid repeat_amount = true
  /\ exists session',
       ExpenseRecords.update_expense (sample_env 99%N) (stable_session keyed_table)
         12%N 1%N repeat_amount
       = (inr (Some (with_id 12%N (expense 1%N FOOD 500 (at_date 2025 3 2)))),
          session')
       /\ table session' = keyed_table.
Proof.
  split; [reflexivity|].
  apply update_restating_is_identity.
  - unfold unique_ids. vm_compute.
    repeat (constructor; [simpl; intuition discriminate|]). constructor.
  - reflexivity.
  - reflexivity.
Defined.

(** An amount of 0.1 sent for a stored 0.10 is not equal to it as a float:
    the column is written again, with the same value, and the update time
    moves. *)
Example update_with_a_tenth :
  fst (ExpenseRecords.update_expense (sample_env 99%N) (stable_session tenth_table)
         21%N 1%N
         (ExpenseUpdateModel.make Unset (Provided (Some (1 # 10)%Q)) Unset Unset Unset))
  = inr (Some (mk_Expense 21%N 1%N EmptyString 10 FOOD None (at_date 2025 3 1)
                 (at_date 2025 3 1) (Env.updated_at_default (sample_env 99%N)))).
Proof. vm_compute. reflexivity. Qed.

Lemma set_column_not_null {A B : Type} (column : string)
    (convert : A -> Exception + B) (same : A -> B -> bool) (f : Field A) (old x : B) :
  set_column column convert (changed same f old) old = inr x -> is_null f = false.
Proof. destruct f as [|[v|]]; simpl; [reflexivity | reflexivity | discriminate]. Qed.

(** X21. The update handler refuses data that breaks the field constraints; a
    null passes them.  For valid data it answers 404 when the user has no
    expense with the id, and fails, leaving the table as it was, when the
    request sets the title, the amount, the category or the date of an
    expense of the user to null.  Otherwise it fails without a change, or
    answers with its message and an expense of the same id and owner. *)
Theorem update_handler_outcomes env expense_id data user session :
  if ExpenseUpdateModel.valid data
  then match ExpenseRecords.get_expense_by_id session expense_id
               (UserModel.id user) with
       | None =>
           RecordRoutes.update_expense env expense_id data user session
           = (inl RecordRoutes.not_found, session)
       | Some e =>
           if nulls_required data
           then exists err,
                  RecordRoutes.update_expense env expense_id data user session
                  = (inl err, session)
           else match RecordRoutes.update_expense env expense_id data user session with
                | (inr response, session') =>
                    ExpenseMessageResponse.message response
                    = "Expense updated successfully"
                    /\ id (ExpenseMessageResponse.expense response) = expense_id
                    /\ user_id (ExpenseMessageResponse.expense response)
                       = UserModel.id user
                | (inl err, session') => session' = session
                end
       end
  else RecordRoutes.update_expense env expense_id data user session
       = (inl (RequestValidationError "expense_data"), session).
Proof.
  unfold RecordRoutes.update_expense, ExpenseRecords.update_expense.
  destruct (ExpenseUpdateModel.valid data); [|reflexivity]. cbn [negb].
  destruct (ExpenseRecords.get_expense_by_id session expense_id (UserModel.id user))
    as [e|] eqn:G; [|reflexivity].
  destruct (lookup_found _ _ _ G) as (_ & Hid & Hown).
  destruct (set_column "title" _ _ _) as [err|t'] eqn:Et;
    [destruct (nulls_required data); [eexists|]; reflexivity|].
  destruct (set_column "amount" _ _ _) as [err|a'] eqn:Ea;
    [destruct (nulls_required data); [eexists|]; reflexivity|].
  destruct (set_column "category" _ _ _) as [err|c'] eqn:Ec;
    [destruct (nulls_required data); [eexists|]; reflexivity|].
  destruct (set_column "expense_date" _ _ _) as [err|d'] eqn:Ed;
    [destruct (nulls_required data); [eexists|]; reflexivity|].
  apply set_column_not_null in Et, Ea, Ec, Ed.
  unfold nulls_required. rewrite Et, Ea, Ec, Ed. cbn [orb].
  cbn [ExpenseMessageResponse.message ExpenseMessageResponse.expense id user_id].
  split; [reflexivity|]. split; [exact Hid | exact Hown].
Qed.

(* ===================================================================== *)
(** ** The primary key *)
(* ===================================================================== *)

Lemma map_id_replace (i : UUID) (e' : Expense) (l : list Expense) :
  id e' = i ->
  map id (map (fun x => if has_id i x then e' else x) l) = map id l.
Proof.
  intros Hi. rewrite map_map. apply map_ext. intros x.
  destruct (has_id i x) eqn:E; [|reflexivity].
  unfold has_id in E. apply N.eqb_eq in E. congruence.
Qed.

Lemma ids_of_kept_rows (keep : Expense -> bool) (rows : list Expense) :
  NoDup (map id rows) -> NoDup (map id (filter keep rows)).
Proof.
  intros N. induction rows as [|a rows IH]; simpl; [constructor|].
  inversion N as [|? ? Na N']; subst.
  destruct (keep a); simpl; [|apply IH, N'].
  constructor; [|apply IH, N'].
  intros H. apply Na. apply in_map_iff in H. destruct H as (x & E & Hx).
  apply filter_In in Hx. rewrite <- E. apply in_map, Hx.
Qed.

(** X22. No operation on records breaks the primary key: when no two rows share
    an id before a creation, an update or a deletion, none do after it,
    whether the operation succeeds or fails. *)
Theorem unique_ids_are_kept env session expense_id owner create_data update_data :
  unique_ids session ->
  unique_ids (snd (ExpenseRecords.create_expense env session owner create_data))
  /\ unique_ids (snd (ExpenseRecords.update_expense env session expense_id owner
                        update_data))
  /\ unique_ids (snd (ExpenseRecords.delete_expense session expense_id owner)).
Proof.
  intros U. split; [|split].
  - unfold ExpenseRecords.create_expense.
    destruct (string_100 _); [exact U|].
    destruct (Env.numeric env _); [exact U|].
    destruct (existsb (has_id _) _) eqn:Ex; [exact U|].
    destruct (existsb (N.eqb owner) _); cbn [negb]; [|exact U].
    unfold unique_ids. cbn [snd table with_table].
    rewrite map_app. cbn [map id].
    apply Permutation_NoDup with (l := Env.uuid4 env :: map id (table session)).
    + apply Permutation_cons_append.
    + constructor; [|exact U].
      intros H. apply in_map_iff in H. destruct H as (x & E & Hx).
      assert (T : existsb (has_id (Env.uuid4 env)) (table session) = true).
      { apply existsb_exists. exists x. split; [exact Hx|].
        unfold has_id. apply N.eqb_eq, E. }
      congruence.
  - unfold ExpenseRecords.update_expense.
    destruct (ExpenseRecords.get_expense_by_id session expense_id owner) as [e|];
      [|exact U].
    destruct (set_column "title" _ _ _); [exact U|].
    destruct (set_column "amount" _ _ _); [exact U|].
    destruct (set_column "category" _ _ _); [exact U|].
    destruct (set_column "expense_date" _ _ _); [exact U|].
    unfold unique_ids. cbn [snd table with_table].
    rewrite map_id_replace by reflexivity. exact U.
  - unfold ExpenseRecords.delete_expense.
    destruct (ExpenseRecords.get_expense_by_id _ _ _); [|exact U].
    unfold unique_ids. cbn [snd table with_table].
    apply ids_of_kept_rows, U.
Qed.

Lemma unique_ids_are_kept_witness :
  unique_ids (snd (ExpenseRecords.delete_expense (stable_session keyed_table)
                     12%N 1%N)).
Proof.
  apply (@unique_ids_are_kept (sample_env 99%N) (stable_session keyed_table)
           12%N 1%N
           (ExpenseCreateModel.make "Lunch" (25 # 2) FOOD None None)
           repeat_amount).
  unfold unique_ids. vm_compute.
  repeat (constructor; [simpl; intuition discriminate|]). constructor.
Defined.


(* ===================================================================== *)
(** ** The rows of other users *)
(* ===================================================================== *)

Lemma filter_map_unaffected {A : Type} (p : A -> bool) (f : A -> A) (l : list A) :
  (forall x, In x l -> f x = x \/ (p (f x) = false /\ p x = false)) ->
  filter p (map f l) = filter p l.
Proof.
  induction l as [|a l IH]; intros H; [reflexivity|]. cbn [map filter].
  rewrite IH by (intros x Hx; apply H; right; exact Hx).
  destruct (H a (or_introl eq_refl)) as [-> | [-> ->]]; reflexivity.
Qed.

Lemma row_of_id (l : list Expense) (x e : Expense) :
  NoDup (map id l) -> In x l -> In e l -> id x = id e -> x = e.
Proof.
  intros N Hx He E.
  assert (Hf : In x (filter (has_id (id e)) l)).
  { apply filter_In. split; [exact Hx|]. unfold has_id. apply N.eqb_eq, E. }
  rewrite (@has_id_unique l e N He) in Hf. destruct Hf as [<-|[]]. reflexivity.
Qed.

Lemma not_owned (other owner : UUID) (e : Expense) :
  other <> owner -> user_id e = owner -> owned other e = false.
Proof.
  intros N E. unfold owned. rewrite E. apply N.eqb_neq. congruence.
Qed.

(** X23. What a user creates, updates or deletes leaves the rows of every
    other user as they were, whether the operation succeeds or fails; so
    nothing that is computed from the expenses of another user changes. *)
Theorem writes_leave_others_alone env session expense_id owner other
    create_data update_data :
  unique_ids session ->
  other <> owner ->
  expenses_of (snd (ExpenseRecords.create_expense env session owner create_data))
    other = expenses_of session other
  /\ expenses_of (snd (ExpenseRecords.update_expense env session expense_id owner
                         update_data)) other
     = expenses_of session other
  /\ expenses_of (snd (ExpenseRecords.delete_expense session expense_id owner)) other
     = expenses_of session other.
Proof.
  intros U N. split; [|split].
  - pose proof (create_expense_cases env session owner create_data) as C.
    destruct (ExpenseRecords.create_expense env session owner create_data)
      as [[err|e] session']; cbn [snd]; [rewrite C; reflexivity|].
    destruct C as ((_ & Eo & _) & -> & _).
    unfold expenses_of. cbn [table with_table]. rewrite filter_app. cbn [filter].
    rewrite (@not_owned other owner e N Eo). apply app_nil_r.
  - unfold ExpenseRecords.update_expense.
    destruct (ExpenseRecords.get_expense_by_id session expense_id owner) as [e|] eqn:G;
      [|reflexivity].
    destruct (lookup_found _ _ _ G) as (Hin & Hid & Hown).
    destruct (set_column "title" _ _ _); [reflexivity|].
    destruct (set_column "amount" _ _ _); [reflexivity|].
    destruct (set_column "category" _ _ _); [reflexivity|].
    destruct (set_column "expense_date" _ _ _); [reflexivity|].
    unfold expenses_of. cbn [snd table with_table].
    apply filter_map_unaffected. intros x Hx.
    destruct (has_id (id e) x) eqn:E; [right | left; reflexivity].
    unfold has_id in E. apply N.eqb_eq in E.
    rewrite (@row_of_id (table session) x e U Hx Hin E).
    split; apply not_owned with (owner := owner); assumption.
  - unfold ExpenseRecords.delete_expense.
    destruct (ExpenseRecords.get_expense_by_id session expense_id owner) as [e|] eqn:G;
      [|reflexivity].
    destruct (lookup_found _ _ _ G) as (Hin & Hid & Hown).
    unfold expenses_of. cbn [snd table with_table].
    rewrite filter_filter. apply filter_ext_in. intros x Hx.
    destruct (has_id (id e) x) eqn:E; [|destruct (owned other x); reflexivity].
    unfold has_id in E. apply N.eqb_eq in E.
    rewrite (@row_of_id (table session) x e U Hx Hin E).
    rewrite (@not_owned other owner e N Hown). reflexivity.
Qed.

Lemma writes_leave_others_alone_witness :
  expenses_of (snd (ExpenseRecords.delete_expense (stable_session keyed_table)
                      12%N 1%N)) 2%N
  = expenses_of (stable_session keyed_table) 2%N.
Proof.
  apply (@writes_leave_others_alone (sample_env 99%N) (stable_session keyed_table)
           12%N 1%N 2%N
           (ExpenseCreateModel.make "Lunch" (25 # 2) FOOD None None)
           repeat_amount).
  - unfold unique_ids. vm_compute.
    repeat (constructor; [simpl; intuition discriminate|]). constructor.
  - discriminate.
Defined.
